(** * Decision pipeline of the financial-package intake: a shallow embedding

    The development follows the Python sources module by module:
    - [Py]      : the fragments of the Python runtime the code relies on
                  (string methods, [int], [float], [pathlib]);
    - [Re]      : the fragment of the [re] module the code uses, with a
                  parser for pattern strings and a backtracking matcher;
    - [PeriodDetector], [SchemaValidator] : pipeline/validation;
    - [Classify] : pipeline/classification/classify.py;
    - [GateRules], [Scorer] : pipeline/quality_gate;
    - [Archive] : the scorer on an archive that may fail to open;
    - [ExtractFinancials] : pipeline/memo_builder/extract_financials.py;
    - [RunPipeline] : pipeline/run_pipeline.py, with the intake and the
                  text extraction it calls.

    Texts are byte strings ([string], a list of 8-bit characters); case
    folding is the ASCII one. *)

From Stdlib Require Import List Ascii String ZArith QArith Qabs Qround Qminmax Lia Bool Arith DecimalString Sorted.
From Stdlib Require OrderedTypeEx.
From stdpp Require Import gmap strings.
Import ListNotations.

Local Open Scope string_scope.
Local Open Scope list_scope.

(* ===================================================================== *)
(** * Python runtime fragments *)
(* ===================================================================== *)

Module Py.

(** Results of calls that may raise. The only exception the modelled code
    can raise from pure computations is [ValueError]. *)
Inductive exn := ValueError.

Inductive result (A : Type) :=
| Ok (a : A)
| Raise (e : exn).
Arguments Ok {A} a.
Arguments Raise {A} e.

Definition bind {A B} (m : result A) (f : A -> result B) : result B :=
  match m with
  | Ok a => f a
  | Raise e => Raise e
  end.

Fixpoint mapM {A B} (f : A -> result B) (l : list A) : result (list B) :=
  match l with
  | [] => Ok []
  | a :: l' =>
      bind (f a) (fun b => bind (mapM f l') (fun bs => Ok (b :: bs)))
  end.

Definition is_Some_b {A} (o : option A) : bool :=
  match o with
  | Some _ => true
  | None => false
  end.

Definition chars (s : string) : list ascii := list_ascii_of_string s.
Definition str (l : list ascii) : string := string_of_list_ascii l.

Definition code (a : ascii) : nat := nat_of_ascii a.

Definition in_range (lo hi a : ascii) : bool :=
  (code lo <=? code a)%nat && (code a <=? code hi)%nat.

Definition is_upper (a : ascii) : bool := in_range "A" "Z" a.
Definition is_lower (a : ascii) : bool := in_range "a" "z" a.
Definition is_digit (a : ascii) : bool := in_range "0" "9" a.
Definition is_alpha (a : ascii) : bool := is_upper a || is_lower a.

(** [str.isspace] on ASCII: space, \t \n \v \f \r and the separators
    0x1c..0x1f. *)
Definition is_space (a : ascii) : bool :=
  (code a =? 32)%nat || ((9 <=? code a)%nat && (code a <=? 13)%nat)
  || ((28 <=? code a)%nat && (code a <=? 31)%nat).

Definition lower_char (a : ascii) : ascii :=
  if is_upper a then ascii_of_nat (code a + 32) else a.
Definition upper_char (a : ascii) : ascii :=
  if is_lower a then ascii_of_nat (code a - 32) else a.

Definition lower (s : string) : string := str (map lower_char (chars s)).

(** [str.isascii] *)
Definition isascii (s : string) : bool :=
  forallb (fun a => (code a <? 128)%nat) (chars s).

(** [prefix p l]: [l] starts with [p]. *)
Fixpoint prefixb (p l : list ascii) : bool :=
  match p, l with
  | [], _ => true
  | a :: p', b :: l' => Ascii.eqb a b && prefixb p' l'
  | _ :: _, [] => false
  end.

(** [sub in s] *)
Fixpoint containsb (sub l : list ascii) : bool :=
  prefixb sub l ||
  match l with
  | [] => false
  | _ :: l' => containsb sub l'
  end.

Definition contains (sub s : string) : bool := containsb (chars sub) (chars s).

Definition endswith (s suffix : string) : bool :=
  prefixb (rev (chars suffix)) (rev (chars s)).

(** [s.split(sep)] for a one-character separator. *)
Fixpoint split_chars (sep : ascii) (l : list ascii) : list (list ascii) :=
  match l with
  | [] => [[]]
  | a :: l' =>
      if Ascii.eqb a sep then [] :: split_chars sep l'
      else match split_chars sep l' with
           | [] => [[a]]
           | w :: ws => (a :: w) :: ws
           end
  end.

Definition split (sep : ascii) (s : string) : list string :=
  map str (split_chars sep (chars s)).

(** [s.replace(c, "")] for a one-character pattern. *)
Definition remove_char (c : ascii) (s : string) : string :=
  str (List.filter (fun a => negb (Ascii.eqb a c)) (chars s)).

Fixpoint drop_while (p : ascii -> bool) (l : list ascii) : list ascii :=
  match l with
  | [] => []
  | a :: l' => if p a then drop_while p l' else l
  end.

Definition strip_with (p : ascii -> bool) (l : list ascii) : list ascii :=
  rev (drop_while p (rev (drop_while p l))).

(** [s.strip()] and [s.strip("%")]. *)
Definition strip (s : string) : string := str (strip_with is_space (chars s)).
Definition strip_char (c : ascii) (s : string) : string :=
  str (strip_with (Ascii.eqb c) (chars s)).

(** [sep.join(l)] *)
Fixpoint join (sep : string) (l : list string) : string :=
  match l with
  | [] => ""
  | [x] => x
  | x :: l' => x +:+ sep +:+ join sep l'
  end.

(** [s[:n]] *)
Definition take (n : nat) (s : string) : string := str (firstn n (chars s)).

(** [s.isdigit()] on ASCII: non-empty and all decimal digits. *)
Definition isdigit (s : string) : bool :=
  match chars s with
  | [] => false
  | l => forallb is_digit l
  end.

(** ** [int(s)] *)

Definition digit_val (a : ascii) : Z := Z.of_nat (code a - 48).

(** Digits with single underscores allowed between them, as [int] and
    [float] accept; returns the digits read. *)
Fixpoint digits_us (l : list ascii) (prev_digit : bool) : option (list ascii) :=
  match l with
  | [] => if prev_digit then Some [] else None
  | a :: l' =>
      if is_digit a then option_map (cons a) (digits_us l' true)
      else if Ascii.eqb a "_" then
        if prev_digit then
          match l' with
          | [] => None
          | _ => digits_us l' false
          end
        else None
      else None
  end.

Definition nat_of_digits (ds : list ascii) : Z :=
  fold_left (fun acc d => (10 * acc + digit_val d)%Z) ds 0%Z.

Definition split_sign (l : list ascii) : bool * list ascii :=
  match l with
  | "-"%char :: l' => (true, l')
  | "+"%char :: l' => (false, l')
  | _ => (false, l)
  end.

Definition int (s : string) : result Z :=
  let (neg, body) := split_sign (strip_with is_space (chars s)) in
  match body with
  | [] => Raise ValueError
  | _ =>
      match digits_us body false with
      | Some ds => Ok (if neg then (- nat_of_digits ds)%Z else nat_of_digits ds)
      | None => Raise ValueError
      end
  end.

(** ** [float(s)]

    The value of a decimal literal is kept as the exact rational it
    denotes (Python rounds it to the nearest double). *)
Inductive pyfloat :=
| Fin (q : Q)
| Inf (negative : bool)
| NaN.

(** Longest prefix of digits-with-underscores; returns the digits and the
    rest, [None] when the prefix is malformed (leading, doubled or
    trailing underscore). The prefix may be empty. *)
Fixpoint span_digits (l : list ascii) (prev_digit : bool)
  : option (list ascii * list ascii) :=
  match l with
  | [] => Some ([], [])
  | a :: l' =>
      if is_digit a then
        match span_digits l' true with
        | Some (ds, r) => Some (a :: ds, r)
        | None => None
        end
      else if Ascii.eqb a "_" then
        if prev_digit then
          match l' with
          | b :: _ => if is_digit b then span_digits l' false else None
          | [] => None
          end
        else None
      else Some ([], l)
  end.

Definition pow10 (e : Z) : Q :=
  if (0 <=? e)%Z then inject_Z (10 ^ e) else / inject_Z (10 ^ (- e)).

Definition parse_exponent (l : list ascii) : option Z :=
  match l with
  | [] => Some 0%Z
  | e :: l' =>
      if Ascii.eqb (lower_char e) "e" then
        let (neg, body) := split_sign l' in
        match body with
        | [] => None
        | _ =>
            match digits_us body false with
            | Some ds => Some (if neg then (- nat_of_digits ds)%Z else nat_of_digits ds)
            | None => None
            end
        end
      else None
  end.

Definition parse_decimal (l : list ascii) : option Q :=
  match span_digits l false with
  | None => None
  | Some (ip, r) =>
      let after_frac :=
        match r with
        | "."%char :: r' =>
            match span_digits r' false with
            | Some (fp, r'') => Some (fp, r'')
            | None => None
            end
        | _ => Some ([], r)
        end in
      match after_frac with
      | None => None
      | Some (fp, r'') =>
          match ip, fp with
          | [], [] => None
          | _, _ =>
              match parse_exponent r'' with
              | None => None
              | Some e =>
                  Some (Qred (inject_Z (nat_of_digits (ip ++ fp))
                              * pow10 (e - Z.of_nat (List.length fp))))
              end
          end
      end
  end.

Definition float (s : string) : result pyfloat :=
  let (neg, body) := split_sign (strip_with is_space (chars s)) in
  let word := str (map lower_char body) in
  if String.eqb word "inf" || String.eqb word "infinity" then Ok (Inf neg)
  else if String.eqb word "nan" then Ok NaN
  else match parse_decimal body with
       | Some q => Ok (Fin (if neg then Qred (- q) else q))
       | None => Raise ValueError
       end.

(** Arithmetic and comparisons on floats, on the exact values. *)
Definition fadd (a b : pyfloat) : pyfloat :=
  match a, b with
  | NaN, _ | _, NaN => NaN
  | Inf s, Inf s' => if Bool.eqb s s' then Inf s else NaN
  | Inf s, Fin _ | Fin _, Inf s => Inf s
  | Fin x, Fin y => Fin (Qred (x + y)%Q)
  end.

Definition fneg (a : pyfloat) : pyfloat :=
  match a with
  | Fin x => Fin (Qred (- x)%Q)
  | Inf s => Inf (negb s)
  | NaN => NaN
  end.

Definition fsub (a b : pyfloat) : pyfloat := fadd a (fneg b).

Definition fabs (a : pyfloat) : pyfloat :=
  match a with
  | Fin x => Fin (Qabs x)
  | Inf _ => Inf false
  | NaN => NaN
  end.

Definition Qltb (x y : Q) : bool := negb (Qle_bool y x).

(** [a < b] *)
Definition fltb (a b : pyfloat) : bool :=
  match a, b with
  | NaN, _ | _, NaN => false
  | Inf s, Inf s' => s && negb s'
  | Inf s, Fin _ => s
  | Fin _, Inf s => negb s
  | Fin x, Fin y => Qltb x y
  end.

(** [round(x, 1)] on an exact value: the nearest tenth, ties to even. *)
Definition round_half_even (q : Q) : Z :=
  let f := Qfloor q in
  let frac := (q - inject_Z f)%Q in
  if Qltb frac (1 # 2)%Q then f
  else if Qltb (1 # 2)%Q frac then (f + 1)%Z
  else if Z.even f then f else (f + 1)%Z.

Definition round1 (q : Q) : Q := (inject_Z (round_half_even (q * 10)) / 10)%Q.

(** [str(n)] for an integer, and the [:02d] format. *)
Definition str_of_Z (z : Z) : string :=
  DecimalString.NilZero.string_of_int (Z.to_int z).

Definition fmt_02d (z : Z) : string :=
  if ((0 <=? z) && (z <? 10))%Z then "0" +:+ str_of_Z z else str_of_Z z.

(** [sorted(set(l))]: insertion into a strictly increasing list. *)
Section SortedSet.
Context {A : Type} (cmp : A -> A -> comparison).

Fixpoint insert_uniq (x : A) (l : list A) : list A :=
  match l with
  | [] => [x]
  | y :: l' =>
      match cmp x y with
      | Lt => x :: l
      | Eq => l
      | Gt => y :: insert_uniq x l'
      end
  end.

Definition sorted_set (l : list A) : list A := fold_right insert_uniq [] l.
End SortedSet.

(** [s.splitlines()] on ASCII: \n, \r, \r\n, \v, \f and 0x1c..0x1e end a
    line; no empty last line. *)
Definition is_linebreak (a : ascii) : bool :=
  ((10 <=? code a)%nat && (code a <=? 13)%nat)
  || ((28 <=? code a)%nat && (code a <=? 30)%nat).

Fixpoint splitlines_chars (l : list ascii) (cur : list ascii) : list (list ascii) :=
  match l with
  | [] => match cur with [] => [] | _ => [rev cur] end
  | a :: l' =>
      if is_linebreak a then
        rev cur ::
        match l' with
        | b :: l'' =>
            if ((code a =? 13)%nat && (code b =? 10)%nat)%bool
            then splitlines_chars l'' []
            else splitlines_chars l' []
        | [] => []
        end
      else splitlines_chars l' (a :: cur)
  end.

Definition splitlines (s : string) : list string :=
  map str (splitlines_chars (chars s) []).

(** ** [pathlib.PurePosixPath] *)

(** [Path(p).parts]: the root, when the path is absolute, then the
    components that are neither empty nor ["."]. *)
Definition path_parts (p : string) : list string :=
  let comps :=
    List.filter (fun c => negb (String.eqb c "" || String.eqb c "."))
           (split "/" p) in
  match chars p with
  | "/"%char :: _ => "/" :: comps
  | _ => comps
  end.

(** [Path(p).name] *)
Definition path_name (p : string) : string :=
  List.last (List.filter (fun c => negb (String.eqb c "" || String.eqb c "."))
                    (split "/" p)) "".

(** [Path(p).suffix] *)
Fixpoint rfind_dot (l : list ascii) (i : nat) (found : option nat) : option nat :=
  match l with
  | [] => found
  | a :: l' => rfind_dot l' (S i) (if Ascii.eqb a "." then Some i else found)
  end.

Definition path_suffix (p : string) : string :=
  let n := chars (path_name p) in
  match rfind_dot n 0 None with
  | Some i =>
      if (0 <? i)%nat && (i <? List.length n - 1)%nat then str (skipn i n) else ""
  | None => ""
  end.

(** [str(Path(...))] from the parts. *)
Definition path_str (parts : list string) : string :=
  match parts with
  | [] => "."
  | "/" :: rest => "/" +:+ join "/" rest
  | _ => join "/" parts
  end.

(** [str(Path(p).parent)] *)
Definition path_parent (p : string) : string :=
  match path_parts p with
  | ["/"] => "/"
  | parts => path_str (removelast parts)
  end.

(** [str(Path(a) / b)]: an absolute [b] replaces [a]. *)
Definition path_join (a b : string) : string :=
  match chars b with
  | "/"%char :: _ => path_str (path_parts b)
  | _ => path_str (path_parts a ++ path_parts b)
  end.

End Py.


(* ===================================================================== *)
(** * The [re] fragment *)
(* ===================================================================== *)

Module Re.
Import Py.

(** ** Abstract syntax *)

Inductive citem :=
| CRange (lo hi : ascii)   (* a single character is [CRange c c] *)
| CDigit                   (* \d *)
| CSpace.                  (* \s *)

Inductive regex :=
| Empty
| CharSet (negated : bool) (items : list citem)
| AnyChar                                  (* . : anything but a newline *)
| Cat (r1 r2 : regex)
| Alt (r1 r2 : regex)
| Repeat (lo : nat) (hi : option nat) (greedy : bool) (r : regex)
| Group (n : nat) (r : regex).

Definition Lit (a : ascii) : regex := CharSet false [CRange a a].

(** ** Parsing pattern strings

    The syntax covered is the one the pipeline's patterns are written in:
    literals, [.], the escapes \d \s and escaped punctuation, bracket
    classes with ranges and negation, capturing and (?:...) groups,
    alternation, and the quantifiers ? * + {m} {m,} {m,n} with their lazy
    forms. Anything else is a parse error. *)

Definition is_alnum (a : ascii) : bool := is_alpha a || is_digit a.

(** An escape outside or inside a class. *)
Definition parse_escape (e : ascii) : option citem :=
  if Ascii.eqb e "d" then Some CDigit
  else if Ascii.eqb e "s" then Some CSpace
  else if is_alnum e then None
  else Some (CRange e e).

(** One end of a range or a single class member: the item and the rest. *)
Definition parse_member (l : list ascii) : option (citem * list ascii) :=
  match l with
  | "\"%char :: e :: l' =>
      match parse_escape e with
      | Some it => Some (it, l')
      | None => None
      end
  | "\"%char :: [] => None
  | c :: l' => Some (CRange c c, l')
  | [] => None
  end.

Fixpoint parse_items (fuel : nat) (l : list ascii) : option (list citem * list ascii) :=
  match fuel with
  | O => None
  | S f =>
      match l with
      | [] => None
      | "]"%char :: l' => Some ([], l')
      | _ =>
          match parse_member l with
          | None => None
          | Some (it, l1) =>
              match it, l1 with
              | CRange lo _, "-"%char :: ("]"%char :: _) =>
                  match parse_items f l1 with
                  | Some (its, r) => Some (it :: its, r)
                  | None => None
                  end
              | CRange lo _, "-"%char :: l2 =>
                  match parse_member l2 with
                  | Some (CRange hi _, l3) =>
                      match parse_items f l3 with
                      | Some (its, r) => Some (CRange lo hi :: its, r)
                      | None => None
                      end
                  | _ => None
                  end
              | _, _ =>
                  match parse_items f l1 with
                  | Some (its, r) => Some (it :: its, r)
                  | None => None
                  end
              end
          end
      end
  end.

Definition parse_class (l : list ascii) : option (regex * list ascii) :=
  let (neg, body) :=
    match l with
    | "^"%char :: l' => (true, l')
    | _ => (false, l)
    end in
  match body with
  | "]"%char :: _ => None
  | _ =>
      match parse_items (S (List.length body)) body with
      | Some (its, r) => Some (CharSet neg its, r)
      | None => None
      end
  end.

(** A run of decimal digits. *)
Fixpoint parse_nat (l : list ascii) (acc : option nat) : option nat * list ascii :=
  match l with
  | a :: l' =>
      if is_digit a
      then parse_nat l' (Some (10 * default 0%nat acc + (code a - 48))%nat)
      else (acc, l)
  | [] => (acc, l)
  end.

(** A quantifier: bounds, greediness and the rest; [None] when the input
    does not start with one. *)
Definition parse_bounds (l : list ascii) : option (nat * option nat * list ascii) :=
  match l with
  | "*"%char :: l' => Some (0%nat, None, l')
  | "+"%char :: l' => Some (1%nat, None, l')
  | "?"%char :: l' => Some (0%nat, Some 1%nat, l')
  | "{"%char :: l' =>
      match parse_nat l' None with
      | (Some lo, "}"%char :: l'') => Some (lo, Some lo, l'')
      | (Some lo, ","%char :: l'') =>
          match parse_nat l'' None with
          | (Some hi, "}"%char :: l3) =>
              if (hi <? lo)%nat then None else Some (lo, Some hi, l3)
          | (None, "}"%char :: l3) => Some (lo, None, l3)
          | _ => None
          end
      | _ => None
      end
  | _ => None
  end.

Definition parse_quant (r : regex) (l : list ascii) : regex * list ascii :=
  match parse_bounds l with
  | Some (lo, hi, "?"%char :: l') => (Repeat lo hi false r, l')
  | Some (lo, hi, l') => (Repeat lo hi true r, l')
  | None => (r, l)
  end.

(** [g] is the number of capturing groups opened so far. *)
Fixpoint parse_alt (fuel : nat) (l : list ascii) (g : nat)
  : option (regex * list ascii * nat) :=
  match fuel with
  | O => None
  | S f =>
      match parse_cat f l g with
      | Some (r1, "|"%char :: l', g1) =>
          match parse_alt f l' g1 with
          | Some (r2, l'', g2) => Some (Alt r1 r2, l'', g2)
          | None => None
          end
      | other => other
      end
  end
with parse_cat (fuel : nat) (l : list ascii) (g : nat)
  : option (regex * list ascii * nat) :=
  match fuel with
  | O => None
  | S f =>
      match l with
      | [] => Some (Empty, l, g)
      | "|"%char :: _ => Some (Empty, l, g)
      | ")"%char :: _ => Some (Empty, l, g)
      | _ =>
          match parse_atom f l g with
          | Some (r1, l1, g1) =>
              let (r1', l1') := parse_quant r1 l1 in
              match parse_cat f l1' g1 with
              | Some (Empty, l2, g2) => Some (r1', l2, g2)
              | Some (r2, l2, g2) => Some (Cat r1' r2, l2, g2)
              | None => None
              end
          | None => None
          end
      end
  end
with parse_atom (fuel : nat) (l : list ascii) (g : nat)
  : option (regex * list ascii * nat) :=
  match fuel with
  | O => None
  | S f =>
      match l with
      | "("%char :: "?"%char :: ":"%char :: l' =>
          match parse_alt f l' g with
          | Some (r, ")"%char :: l'', g') => Some (r, l'', g')
          | _ => None
          end
      | "("%char :: "?"%char :: _ => None
      | "("%char :: l' =>
          match parse_alt f l' (S g) with
          | Some (r, ")"%char :: l'', g') => Some (Group (S g) r, l'', g')
          | _ => None
          end
      | "["%char :: l' =>
          match parse_class l' with
          | Some (r, l'') => Some (r, l'', g)
          | None => None
          end
      | "."%char :: l' => Some (AnyChar, l', g)
      | "\"%char :: e :: l' =>
          match parse_escape e with
          | Some it => Some (CharSet false [it], l', g)
          | None => None
          end
      | "\"%char :: [] => None
      | "*"%char :: _ | "+"%char :: _ | "?"%char :: _ | "{"%char :: _
      | "^"%char :: _ | "$"%char :: _ => None
      | c :: l' => Some (Lit c, l', g)
      | [] => None
      end
  end.

Definition parse (pattern : string) : option regex :=
  let l := chars pattern in
  match parse_alt (3 * List.length l + 3) l 0 with
  | Some (r, [], _) => Some r
  | _ => None
  end.

(** A pattern that matches nothing stands for one that does not parse;
    every pattern of the pipeline parses ([ReFacts.all_patterns_parse]). *)
Definition Never : regex := CharSet false [].

Definition compile (pattern : string) : regex := default Never (parse pattern).

(** ** Matching *)

Definition item_has (it : citem) (a : ascii) : bool :=
  match it with
  | CRange lo hi => in_range lo hi a
  | CDigit => is_digit a
  | CSpace => is_space a
  end.

(** Membership in a bracket class; under [IGNORECASE] a character belongs
    to the class when either of its cases does. *)
Definition set_has (ic : bool) (items : list citem) (a : ascii) : bool :=
  existsb (fun it =>
             item_has it a
             || (ic && (item_has it (lower_char a) || item_has it (upper_char a))))
          items.

Definition char_ok (ic neg : bool) (items : list citem) (a : ascii) : bool :=
  xorb neg (set_has ic items a).

Definition newline : ascii := ascii_of_nat 10.

(** Captured groups, most recent first. *)
Definition caps := list (nat * list ascii).

Section Matcher.
Variable ic : bool.      (* the IGNORECASE flag *)
Context {A : Type}.

Definition cont := list ascii -> caps -> option A.
Definition matcher := list ascii -> caps -> cont -> option A.

(** The mandatory iterations of a repetition. *)
Fixpoint rep_min (mr : matcher) (n : nat) (s : list ascii) (c : caps) (k : cont)
  : option A :=
  match n with
  | O => k s c
  | S n' => mr s c (fun s' c' => rep_min mr n' s' c' k)
  end.

Definition budget_left (b : option nat) : bool :=
  match b with
  | Some O => false
  | _ => true
  end.

(** The optional iterations: at most [budget] of them, each consuming
    at least one character, so [length s] bounds their number. *)
Fixpoint rep_more (mr : matcher) (fuel : nat) (budget : option nat)
         (greedy : bool) (s : list ascii) (c : caps) (k : cont) : option A :=
  match fuel with
  | O => k s c
  | S f =>
      let more (_ : unit) :=
        if budget_left budget then
          mr s c (fun s' c' =>
                    if (List.length s' <? List.length s)%nat
                    then rep_more mr f (option_map Nat.pred budget) greedy s' c' k
                    else None)
        else None in
      if greedy then
        match more tt with
        | Some x => Some x
        | None => k s c
        end
      else
        match k s c with
        | Some x => Some x
        | None => more tt
        end
  end.

(** The backtracking matcher, in continuation-passing style: [k] is
    the rest of the pattern, and a failure of [k] makes the matcher
    try its next alternative. *)
Fixpoint exec (r : regex) (s : list ascii) (c : caps) (k : cont) {struct r}
  : option A :=
  match r with
  | Empty => k s c
  | CharSet neg items =>
      match s with
      | a :: s' => if char_ok ic neg items a then k s' c else None
      | [] => None
      end
  | AnyChar =>
      match s with
      | a :: s' => if Ascii.eqb a newline then None else k s' c
      | [] => None
      end
  | Cat r1 r2 => exec r1 s c (fun s' c' => exec r2 s' c' k)
  | Alt r1 r2 =>
      match exec r1 s c k with
      | Some x => Some x
      | None => exec r2 s c k
      end
  | Repeat lo hi greedy r' =>
      rep_min (exec r') lo s c
              (fun s' c' =>
                 rep_more (exec r') (List.length s')
                          (option_map (fun h => h - lo)%nat hi) greedy s' c' k)
  | Group n r' =>
      exec r' s c
           (fun s' c' =>
              k s' ((n, firstn (List.length s - List.length s') s) :: c'))
  end.
End Matcher.

(** ** What a successful match means

    [matches ic r w c c']: the word [w] is matched by [r], taking the
    captures from [c] to [c']. The matcher is sound for this reading
    ([exec_sound] below); which of the possible matches it returns is
    fixed by its backtracking order. *)

Fixpoint iter (P : list ascii -> caps -> caps -> Prop) (n : nat)
         (w : list ascii) (c c' : caps) : Prop :=
  match n with
  | O => w = [] /\ c' = c
  | S n' => exists w1 w2 c1, w = w1 ++ w2 /\ P w1 c c1 /\ iter P n' w2 c1 c'
  end.

Fixpoint matches (ic : bool) (r : regex) (w : list ascii) (c c' : caps) : Prop :=
  match r with
  | Empty => w = [] /\ c' = c
  | CharSet neg items => exists a, w = [a] /\ char_ok ic neg items a = true /\ c' = c
  | AnyChar => exists a, w = [a] /\ Ascii.eqb a newline = false /\ c' = c
  | Cat r1 r2 =>
      exists w1 w2 c1, w = w1 ++ w2 /\ matches ic r1 w1 c c1 /\ matches ic r2 w2 c1 c'
  | Alt r1 r2 => matches ic r1 w c c' \/ matches ic r2 w c c'
  | Repeat lo hi _ r' =>
      exists extra,
        (forall h, hi = Some h -> (extra <= h - lo)%nat)
        /\ iter (matches ic r') (lo + extra) w c c'
  | Group n r' => exists c1, matches ic r' w c c1 /\ c' = (n, w) :: c1
  end.

(** A matcher is sound for [P] when each of its successes is a success
    of the continuation after a word that [P] accepts. *)
Definition sound {A : Type} (mr : @matcher A)
           (P : list ascii -> caps -> caps -> Prop) : Prop :=
  forall s c k x,
    mr s c k = Some x ->
    exists w s' c', s = w ++ s' /\ P w c c' /\ k s' c' = Some x.

Definition backslash : ascii := "\"%char.

(** ** Match objects, [re.match], [re.search], [re.findall] *)

Record mobj := {
  m_start : nat;             (* offset of the match in the searched text *)
  m_whole : list ascii;      (* group(0) *)
  m_caps : caps;
  m_rest : list ascii        (* the text after the match *)
}.

(** [m.group(n)] for a group that took part in the match. *)
Fixpoint lookup_cap (n : nat) (c : caps) : option (list ascii) :=
  match c with
  | [] => None
  | (i, w) :: c' => if (i =? n)%nat then Some w else lookup_cap n c'
  end.

Definition group (mo : mobj) (n : nat) : option string :=
  option_map str (lookup_cap n (m_caps mo)).

(** What [findall] reports for a group: the empty string when the group
    did not take part. *)
Definition group_or_empty (mo : mobj) (n : nat) : string :=
  default "" (group mo n).

Definition match_here (ic : bool) (r : regex) (s : list ascii) (i : nat)
  : option mobj :=
  exec ic r s []
       (fun s' c =>
          Some {| m_start := i;
                  m_whole := firstn (List.length s - List.length s') s;
                  m_caps := c;
                  m_rest := s' |}).

Fixpoint search_from (ic : bool) (r : regex) (s : list ascii) (i : nat)
  : option mobj :=
  match match_here ic r s i with
  | Some mo => Some mo
  | None =>
      match s with
      | [] => None
      | _ :: s' => search_from ic r s' (S i)
      end
  end.

(** Successive non-overlapping matches, leftmost first. After an empty
    match the scan moves on by one character. *)
Fixpoint findall_from (fuel : nat) (ic : bool) (r : regex) (s : list ascii)
  : list mobj :=
  match fuel with
  | O => []
  | S f =>
      match search_from ic r s 0 with
      | None => []
      | Some mo =>
          mo :: match m_whole mo, m_rest mo with
                | [], [] => []
                | [], _ :: t => findall_from f ic r t
                | _, rest => findall_from f ic r rest
                end
      end
  end.

Definition re_match (pattern : string) (ic : bool) (s : string) : option mobj :=
  match_here ic (compile pattern) (chars s) 0.

Definition search (pattern : string) (ic : bool) (s : string) : option mobj :=
  search_from ic (compile pattern) (chars s) 0.

Definition findall (pattern : string) (ic : bool) (s : string) : list mobj :=
  let l := chars s in
  findall_from (S (List.length l)) ic (compile pattern) l.

Definition whole (mo : mobj) : string := str (m_whole mo).

(** [bool(re.search(...))] *)
Definition found (o : option mobj) : bool :=
  match o with
  | Some _ => true
  | None => false
  end.

End Re.

(* ===================================================================== *)
(** * Alphabets of patterns and of captured groups *)
(* ===================================================================== *)

Module ReAlphabet.
Import Py Re.

Definition all_ascii : list ascii := map ascii_of_nat (seq 0 256).

(** Every word of [r] is made of characters that satisfy [P]. *)
Fixpoint within (ic : bool) (P : ascii -> bool) (r : regex) : bool :=
  match r with
  | Empty => true
  | CharSet neg items =>
      forallb (fun a => implb (char_ok ic neg items a) (P a)) all_ascii
  | AnyChar => forallb (fun a => implb (negb (Ascii.eqb a newline)) (P a)) all_ascii
  | Cat r1 r2 | Alt r1 r2 => within ic P r1 && within ic P r2
  | Repeat _ _ _ r' => within ic P r'
  | Group _ r' => within ic P r'
  end.

(** Every word of [r] starts with the character [a]. *)
Fixpoint starts_with (ic : bool) (a : ascii) (r : regex) : bool :=
  match r with
  | CharSet neg items =>
      forallb (fun x => implb (char_ok ic neg items x) (Ascii.eqb x a)) all_ascii
  | Cat r1 _ => starts_with ic a r1
  | Alt r1 r2 => starts_with ic a r1 && starts_with ic a r2
  | Group _ r' => starts_with ic a r'
  | Repeat lo _ _ r' => (0 <? lo)%nat && starts_with ic a r'
  | Empty | AnyChar => false
  end.

(** The body of every group [n] of [r] passes the check [chk]. *)
Fixpoint group_all (n : nat) (chk : regex -> bool) (r : regex) : bool :=
  match r with
  | Group k r' => (if (k =? n)%nat then chk r' else true) && group_all n chk r'
  | Cat r1 r2 | Alt r1 r2 => group_all n chk r1 && group_all n chk r2
  | Repeat _ _ _ r' => group_all n chk r'
  | Empty | CharSet _ _ | AnyChar => true
  end.

(** The capture of group [n], when there is one, has the property [Pw]. *)
Definition caps_all (n : nat) (Pw : list ascii -> Prop) (c : caps) : Prop :=
  forall w, lookup_cap n c = Some w -> Pw w.

(** The characters a number pattern of classify.py can capture: a
    backslash, the letter d in either case, a comma, a dot or a dash. *)
Definition number_chars (a : ascii) : bool :=
  existsb (Ascii.eqb a) ["\"; "d"; "D"; ","; "."; "-"]%char.

(** The characters left once the commas are removed. *)
Definition bare_chars (a : ascii) : bool :=
  existsb (Ascii.eqb a) ["\"; "d"; "D"; "."; "-"]%char.

Definition number_pattern_ok (pattern : string) : bool :=
  group_all 1 (within true number_chars) (compile pattern).

(** The patterns [_extract_number] is called with in classify.py. *)
Definition number_patterns : list string :=
  [ "revenue[^\\d]+(-?[\\d,\\.]+)";
    "cogs[^\\d]+(-?[\\d,\\.]+)"; "cost of goods[^\\d]+(-?[\\d,\\.]+)";
    "operating expenses[^\\d]+(-?[\\d,\\.]+)";
    "ebitda[^\\d]+(-?[\\d,\\.]+)";
    "net income[^\\d]+(-?[\\d,\\.]+)"; "net profit[^\\d]+(-?[\\d,\\.]+)";
    "cash[^\\d]+(-?[\\d,\\.]+)";
    "accounts receivable[^\\d]+(-?[\\d,\\.]+)";
    "inventory[^\\d]+(-?[\\d,\\.]+)";
    "p\\s?p\\s?&\\s?e[^\\d]+(-?[\\d,\\.]+)"; "property[^\\d]+(-?[\\d,\\.]+)";
    "accounts payable[^\\d]+(-?[\\d,\\.]+)";
    "short[-\\s]?term debt[^\\d]+(-?[\\d,\\.]+)";
    "long[-\\s]?term debt[^\\d]+(-?[\\d,\\.]+)";
    "equity[^\\d]+(-?[\\d,\\.]+)";
    "total assets[^\\d]+(-?[\\d,\\.]+)";
    "total liabilities[^\\d]+equity[^\\d]+(-?[\\d,\\.]+)";
    "total liabilities[^\\d]+(-?[\\d,\\.]+).*equity[^\\d]+(-?[\\d,\\.]+)";
    "starting balance[^\\d]+(-?[\\d,\\.]+)"; "beginning balance[^\\d]+(-?[\\d,\\.]+)";
    "ending balance[^\\d]+(-?[\\d,\\.]+)"; "closing balance[^\\d]+(-?[\\d,\\.]+)";
    "(?:contract|agreement) value[^\\d]+(-?[\\d,\\.]+)"; "value[^\\d]+(-?[\\d,\\.]+)";
    "term[^\\d]+(\\d+)"; "\\b(\\d+) months\\b" ].

Definition cap_row_pattern : string :=
  "([A-Za-z ]+)\\s+(\\d{1,3}(?:\\.\\d+)?%)\\s+(\\d+[\\d,\\.\\-]*)".

End ReAlphabet.

(* ===================================================================== *)
(** * pipeline/validation/period_detector.py *)
(* ===================================================================== *)

Module PeriodDetector.
Import Py.

Definition MONTHS : list string :=
  ["jan"; "feb"; "mar"; "apr"; "may"; "jun";
   "jul"; "aug"; "sep"; "oct"; "nov"; "dec"].

Definition sorted_strings : list string -> list string := sorted_set String.compare.

Definition detect_periods (text : string) : list string :=
  let years := map (fun m => Re.group_or_empty m 1) (Re.findall "(20\d{2})" false text) in
  let year_months :=
    map (fun m => Re.group_or_empty m 1 +:+ "-" +:+ Re.group_or_empty m 2)
        (Re.findall "(20\d{2})[-_/](0[1-9]|1[0-2])" false text) in
  let month_names :=
    flat_map (fun month =>
                map (fun m => lower (Re.whole m))
                    (Re.findall (month +:+ "\s+20\d{2}") true text))
             MONTHS in
  sorted_strings (years ++ year_months ++ month_names).

Definition ym_pattern : string := "(20\d{2})-(0[1-9]|1[0-2])".

Definition is_ym (p : string) : bool := Re.found (Re.re_match ym_pattern false p).

(** [p.split("-")[i]]; the tokens this is applied to contain a dash. *)
Definition split_dash (p : string) (i : nat) : string := nth i (split "-" p) "".

Definition months_1_12 : list Z := [1; 2; 3; 4; 5; 6; 7; 8; 9; 10; 11; 12]%Z.

Definition detect_missing_months (periods : list string) : result (list string) :=
  let ym_values := List.filter is_ym periods in
  match ym_values with
  | [] => Ok []
  | _ =>
      bind (mapM (fun p => int (split_dash p 0)) ym_values) (fun ys =>
      bind (mapM (fun p => int (split_dash p 1)) ym_values) (fun months_present =>
        let years := sorted_set Z.compare ys in
        Ok (flat_map
              (fun year =>
                 flat_map
                   (fun month =>
                      if existsb (Z.eqb month) months_present then []
                      else [str_of_Z year +:+ "-" +:+ fmt_02d month])
                   months_1_12)
              years)))
  end.

(** ** The tokens of section 4.1 and the companion function in the
    spec's words *)

(** A [YYYY-MM] token (month zero-padded, 01..12) and its year and month. *)
Definition token_year_month (p : string) : option (Z * Z) :=
  match chars p with
  | ["2"; "0"; d1; d2; "-"; m1; m2]%char =>
      let month := (10 * digit_val m1 + digit_val m2)%Z in
      if is_digit d1 && is_digit d2 && is_digit m1 && is_digit m2
         && (1 <=? month)%Z && (month <=? 12)%Z
      then Some ((2000 + 10 * digit_val d1 + digit_val d2)%Z, month)
      else None
  | _ => None
  end.

Definition is_year_chars (l : list ascii) : bool :=
  match l with
  | ["2"; "0"; d1; d2]%char => is_digit d1 && is_digit d2
  | _ => false
  end.

(** A lowercase ["<month-abbrev> YYYY"] token; the separator is any
    non-empty run of whitespace. *)
Definition is_month_token (p : string) : bool :=
  existsb (fun month =>
             let m := chars month in
             let rest := skipn (List.length m) (chars p) in
             let year := drop_while is_space rest in
             prefixb m (chars p)
             && (List.length year <? List.length rest)%nat
             && is_year_chars year)
          MONTHS.

Definition is_period_token (p : string) : bool :=
  is_year_chars (chars p) || is_Some_b (token_year_month p) || is_month_token p.

(** Every [YYYY-MM] combination, for the years covered by the [YYYY-MM]
    tokens, whose month is not among the months present in any of them. *)
Definition spec_missing_months (periods : list string) : list string :=
  let yms := omap token_year_month periods in
  let years := sorted_set Z.compare (map fst yms) in
  let months_present := map snd yms in
  flat_map (fun year =>
              flat_map (fun month =>
                          if existsb (Z.eqb month) months_present then []
                          else [str_of_Z year +:+ "-" +:+ fmt_02d month])
                       months_1_12)
           years.

End PeriodDetector.

(* ===================================================================== *)
(** * The period tokens, enumerated *)
(* ===================================================================== *)

Module PeriodTokens.
Import Py Re PeriodDetector.

Definition digit_chars : list ascii :=
  ["0"; "1"; "2"; "3"; "4"; "5"; "6"; "7"; "8"; "9"]%char.

(** The pattern [20\d{2}]. *)
Definition year_body : regex :=
  Cat (Lit "2") (Cat (Lit "0") (Repeat 2 (Some 2%nat) true (CharSet false [CDigit]))).

(** The month-name patterns, one per entry of [MONTHS]. *)
Definition month_regex (month : string) : regex :=
  match chars month with
  | [c1; c2; c3] =>
      Cat (Lit c1) (Cat (Lit c2) (Cat (Lit c3)
          (Cat (Repeat 1 None true (CharSet false [CSpace])) year_body)))
  | _ => Never
  end.

(** The 12 zero-padded months, the 100 year tokens and the 1200
    year-month tokens, and what [detect_missing_months] must make of
    each. *)
Definition month_pairs : list (ascii * ascii) :=
  [("0", "1"); ("0", "2"); ("0", "3"); ("0", "4"); ("0", "5"); ("0", "6");
   ("0", "7"); ("0", "8"); ("0", "9"); ("1", "0"); ("1", "1"); ("1", "2")]%char.

Definition all_year_tokens : list string :=
  flat_map (fun d1 => map (fun d2 => str ["2"; "0"; d1; d2]%char) digit_chars) digit_chars.

Definition all_ym_tokens : list string :=
  flat_map (fun d1 =>
    flat_map (fun d2 =>
      map (fun '(m1, m2) => str ["2"; "0"; d1; d2; "-"; m1; m2]%char) month_pairs)
      digit_chars)
    digit_chars.

Definition year_token_ok (p : string) : bool :=
  negb (is_ym p) && negb (is_Some_b (token_year_month p)).

Definition ym_token_ok (p : string) : bool :=
  is_ym p
  && match int (split_dash p 0), int (split_dash p 1), token_year_month p with
     | Ok y, Ok m, Some (y', m') => (y =? y')%Z && (m =? m')%Z
     | _, _, _ => false
     end.

End PeriodTokens.

(* ===================================================================== *)
(** * pipeline/classification/classify.py *)
(* ===================================================================== *)

Module Classify.
Import Py.

(** Insertion order of the dictionary is the table order. *)
Definition LABEL_PATTERNS : list (string * list string) :=
  [ ("income_statement", ["income[_\\s]?statement"; "p&l"; "profit[_\\s]?loss"]);
    ("balance_sheet", ["balance[_\\s]?sheet"]);
    ("cash_flow", ["cash[_\\s]?flow"]);
    ("bank_statement", ["bank[_\\s]?statement"]);
    ("ar_aging", ["aging"; "accounts[_\\s]?receivable"]);
    ("cap_table", ["cap[_\\s]?table"; "capitalization"]);
    ("contract", ["contract"; "agreement"]) ].

(** The number of hits and the reasons, pattern by pattern: the filename
    first, then the text. *)
Fixpoint score_hits (patterns : list string) (text filename : string)
  : nat * list string :=
  match patterns with
  | [] => (0%nat, [])
  | pattern :: rest =>
      let f := Re.found (Re.search pattern true filename) in
      let t := Re.found (Re.search pattern true text) in
      let (hits, reasons) := score_hits rest text filename in
      (((if f then 1 else 0) + (if t then 1 else 0) + hits)%nat,
       (if f then ["Filename matches " +:+ pattern] else [])
         ++ (if t then ["Text matches " +:+ pattern] else [])
         ++ reasons)
  end.

(** Scores are multiples of 0.25 between 0 and 1, which doubles represent
    exactly: the rational arithmetic below is the float arithmetic. *)
Definition _score_label (patterns : list string) (text filename : string)
  : Q * list string :=
  let (hits, reasons) := score_hits patterns text filename in
  (Qmin 1 ((1 # 4) * inject_Z (Z.of_nat hits))%Q, reasons).

Definition _extract_number (text : string) (patterns : list string)
  : option pyfloat :=
  let fix go (ps : list string) : option pyfloat :=
    match ps with
    | [] => None
    | pattern :: rest =>
        match Re.search pattern true text with
        | None => go rest
        | Some m =>
            let number_str := remove_char "," (Re.group_or_empty m 1) in
            match float number_str with
            | Ok v => Some v
            | Raise ValueError => go rest
            end
        end
    end in
  go patterns.

Definition _has_placeholder (value : string) : bool :=
  Re.found (Re.search "\\b(tbd|n/?a|--+|\\?\\?\\?)\\b" true value).

(** Field values of a structured document. *)
Inductive scalar :=
| SFloat (f : pyfloat)
| SStr (s : string).

Inductive fvalue :=
| VNone
| VFloat (f : pyfloat)
| VStr (s : string)
| VRecords (rows : list (list (string * scalar))).

Definition of_number (o : option pyfloat) : fvalue :=
  match o with
  | Some f => VFloat f
  | None => VNone
  end.

Definition is_none (v : fvalue) : bool :=
  match v with
  | VNone => true
  | _ => false
  end.

(** [v is not None and v < 0] *)
Definition is_negative (v : fvalue) : bool :=
  match v with
  | VFloat f => fltb f (Fin 0)
  | _ => false
  end.

Definition fields_t := list (string * fvalue).

(** What every extractor returns: fields, missing, suspicious, format_errors. *)
Definition extraction := (fields_t * list string * list string * list string)%type.

Definition keys_where (p : string -> fvalue -> bool) (fields : fields_t) : list string :=
  map fst (List.filter (fun kv => p (fst kv) (snd kv)) fields).

Definition _extract_income_statement (text : string) : extraction :=
  let fields :=
    [ ("revenue", of_number (_extract_number text ["revenue[^\\d]+(-?[\\d,\\.]+)"]));
      ("cogs", of_number (_extract_number text
                 ["cogs[^\\d]+(-?[\\d,\\.]+)"; "cost of goods[^\\d]+(-?[\\d,\\.]+)"]));
      ("operating_expenses", of_number (_extract_number text
                 ["operating expenses[^\\d]+(-?[\\d,\\.]+)"]));
      ("ebitda", of_number (_extract_number text ["ebitda[^\\d]+(-?[\\d,\\.]+)"]));
      ("net_income", of_number (_extract_number text
                 ["net income[^\\d]+(-?[\\d,\\.]+)"; "net profit[^\\d]+(-?[\\d,\\.]+)"])) ] in
  let missing := keys_where (fun k v => is_none v && negb (String.eqb k "ebitda")) fields in
  let suspicious := keys_where (fun _ v => is_negative v) fields in
  let tokens := map Re.whole (Re.findall "[A-Za-z]+" false text) in
  let format_errors :=
    if existsb _has_placeholder tokens then ["placeholder detected"] else [] in
  (fields, missing, suspicious, format_errors).

Definition balance_core : list string :=
  ["cash"; "accounts_receivable"; "accounts_payable"; "equity"].

Definition _extract_balance_sheet (text : string) : extraction :=
  let fields :=
    [ ("cash", of_number (_extract_number text ["cash[^\\d]+(-?[\\d,\\.]+)"]));
      ("accounts_receivable", of_number (_extract_number text
                 ["accounts receivable[^\\d]+(-?[\\d,\\.]+)"]));
      ("inventory", of_number (_extract_number text ["inventory[^\\d]+(-?[\\d,\\.]+)"]));
      ("pp&e", of_number (_extract_number text
                 ["p\\s?p\\s?&\\s?e[^\\d]+(-?[\\d,\\.]+)"; "property[^\\d]+(-?[\\d,\\.]+)"]));
      ("accounts_payable", of_number (_extract_number text
                 ["accounts payable[^\\d]+(-?[\\d,\\.]+)"]));
      ("short_term_debt", of_number (_extract_number text
                 ["short[-\\s]?term debt[^\\d]+(-?[\\d,\\.]+)"]));
      ("long_term_debt", of_number (_extract_number text
                 ["long[-\\s]?term debt[^\\d]+(-?[\\d,\\.]+)"]));
      ("equity", of_number (_extract_number text ["equity[^\\d]+(-?[\\d,\\.]+)"])) ] in
  let missing_core :=
    keys_where (fun k v => is_none v && existsb (String.eqb k) balance_core) fields in
  let suspicious := keys_where (fun _ v => is_negative v) fields in
  let format_errors := if _has_placeholder text then ["placeholder detected"] else [] in
  let total_assets := _extract_number text ["total assets[^\\d]+(-?[\\d,\\.]+)"] in
  let total_liab_equity :=
    _extract_number text
      ["total liabilities[^\\d]+equity[^\\d]+(-?[\\d,\\.]+)";
       "total liabilities[^\\d]+(-?[\\d,\\.]+).*equity[^\\d]+(-?[\\d,\\.]+)"] in
  let format_errors :=
    match total_assets, total_liab_equity with
    | Some a, Some b =>
        if fltb (Fin 1) (fabs (fsub a b))
        then format_errors ++ ["non_balancing: assets != liabilities + equity"]
        else format_errors
    | _, _ => format_errors
    end in
  (fields, missing_core, suspicious, format_errors).

(** The float conversion of the amounts is not guarded. *)
Definition _extract_bank_statement (text : string) : result extraction :=
  let starting_balance :=
    _extract_number text ["starting balance[^\\d]+(-?[\\d,\\.]+)";
                          "beginning balance[^\\d]+(-?[\\d,\\.]+)"] in
  let ending_balance :=
    _extract_number text ["ending balance[^\\d]+(-?[\\d,\\.]+)";
                          "closing balance[^\\d]+(-?[\\d,\\.]+)"] in
  let transactions :=
    Re.findall "(\\d{1,2}/\\d{1,2}/\\d{2,4}).{0,40}?(-?[\\d,\\.]+)" false text in
  bind (mapM (fun m =>
                bind (float (remove_char "," (Re.group_or_empty m 2)))
                     (fun amount =>
                        Ok [("date", SStr (Re.group_or_empty m 1));
                            ("amount", SFloat amount)]))
             transactions)
       (fun list_of_transactions =>
          let fields :=
            [ ("starting_balance", of_number starting_balance);
              ("ending_balance", of_number ending_balance);
              ("list_of_transactions", VRecords list_of_transactions) ] in
          let missing :=
            keys_where (fun k v => is_none v
                                   && negb (String.eqb k "list_of_transactions"))
                       fields in
          let suspicious :=
            if is_negative (of_number starting_balance)
            then ["negative starting_balance"] else [] in
          let format_errors :=
            match transactions with
            | [] => ["incomplete transaction sections"]
            | _ => []
            end in
          Ok (fields, missing, suspicious, format_errors)).

(** The float conversions of the four columns are not guarded. *)
Definition _extract_ar_aging (text : string) : result extraction :=
  let column (m : Re.mobj) (n : nat) : result pyfloat :=
    float (remove_char "," (Re.group_or_empty m n)) in
  bind (mapM (fun m =>
                bind (column m 2) (fun cur =>
                bind (column m 3) (fun d30 =>
                bind (column m 4) (fun d60 =>
                bind (column m 5) (fun d90 =>
                  Ok [("customer", SStr (strip (Re.group_or_empty m 1)));
                      ("current", SFloat cur);
                      ("thirty_days", SFloat d30);
                      ("sixty_days", SFloat d60);
                      ("ninety_plus_days", SFloat d90)])))))
             (flat_map
                (Re.findall
                   "([A-Za-z0-9 ]+)\\s+(\\d+[\\d,\\.\\-]*)\\s+(\\d+[\\d,\\.\\-]*)\\s+(\\d+[\\d,\\.\\-]*)\\s+(\\d+[\\d,\\.\\-]*)"
                   false)
                (splitlines text)))
       (fun customers =>
          let fields := [("customers", VRecords customers)] in
          let missing :=
            match customers with
            | [] => ["current"; "thirty_days"; "sixty_days"; "ninety_plus_days"]
            | _ => []
            end in
          Ok (fields, missing, [], [])).

Definition row_percent (row : list (string * scalar)) : pyfloat :=
  match row with
  | _ :: (_, SFloat pct) :: _ => pct
  | _ => Fin 0
  end.

Definition _extract_cap_table (text : string) : extraction :=
  let parts :=
    flat_map (Re.findall "([A-Za-z ]+)\\s+(\\d{1,3}(?:\\.\\d+)?%)\\s+(\\d+[\\d,\\.\\-]*)" false)
             (splitlines text) in
  let rows :=
    flat_map
      (fun m =>
         match float (strip_char "%" (Re.group_or_empty m 2)) with
         | Raise ValueError => []
         | Ok pct_val =>
             match float (remove_char "," (Re.group_or_empty m 3)) with
             | Raise ValueError => []
             | Ok shares_val =>
                 [[("shareholder", SStr (strip (Re.group_or_empty m 1)));
                   ("ownership_percent", SFloat pct_val);
                   ("shares", SFloat shares_val)]]
             end
         end)
      parts in
  let total_pct := fold_left fadd (map row_percent rows) (Fin 0) in
  let no_rows := match rows with [] => true | _ => false end in
  let fields :=
    [ ("rows", VRecords rows);
      ("ownership_total", if no_rows then VNone else VFloat total_pct) ] in
  let missing :=
    if no_rows then ["shareholder"; "ownership_percent"; "shares"] else [] in
  let format_errors :=
    if negb no_rows && fltb (Fin (1 # 2)%Q) (fabs (fsub total_pct (Fin 100)))
    then ["ownership total not equal to 100%"] else [] in
  (fields, missing, [], format_errors).

Definition _extract_contract (text : string) : extraction :=
  let contract_value :=
    _extract_number text ["(?:contract|agreement) value[^\\d]+(-?[\\d,\\.]+)";
                          "value[^\\d]+(-?[\\d,\\.]+)"] in
  let term_length :=
    _extract_number text ["term[^\\d]+(\\d+)"; "\\b(\\d+) months\\b"] in
  let customer_name :=
    match Re.search "between\\s+([A-Za-z0-9 &]+)" true text with
    | Some m => VStr (strip (Re.group_or_empty m 1))
    | None => VNone
    end in
  let payment_terms :=
    match Re.search "payment terms[^\\n]+" true text with
    | Some m => VStr (strip (Re.whole m))
    | None => VNone
    end in
  let fields :=
    [ ("customer_name", customer_name);
      ("contract_value", of_number contract_value);
      ("term_length", of_number term_length);
      ("payment_terms", payment_terms) ] in
  let missing :=
    keys_where (fun k v => is_none v
                           && existsb (String.eqb k)
                                      ["customer_name"; "contract_value"; "term_length"])
               fields in
  (fields, missing, [], []).

Record Flags := {
  missing_fields : list string;
  suspicious_values : list string;
  format_errors : list string
}.

Record StructuredDoc := {
  document_type : string;
  fields : fields_t;
  flags : Flags
}.

(** The extractor table; [None] for a label without an extractor. *)
Definition extractors (label : string) : option (string -> result extraction) :=
  if String.eqb label "income_statement" then Some (fun t => Ok (_extract_income_statement t))
  else if String.eqb label "balance_sheet" then Some (fun t => Ok (_extract_balance_sheet t))
  else if String.eqb label "bank_statement" then Some _extract_bank_statement
  else if String.eqb label "ar_aging" then Some _extract_ar_aging
  else if String.eqb label "cap_table" then Some (fun t => Ok (_extract_cap_table t))
  else if String.eqb label "contract" then Some (fun t => Ok (_extract_contract t))
  else None.

Definition _build_structured (label text : string) : result StructuredDoc :=
  match extractors label with
  | None =>
      Ok {| document_type := "unknown";
            fields := [];
            flags := {| missing_fields := [];
                        suspicious_values := [];
                        format_errors := ["unknown document type"] |} |}
  | Some extractor =>
      bind (extractor text)
           (fun '(fields, missing, suspicious, format_errors) =>
              Ok {| document_type := label;
                    fields := fields;
                    flags := {| missing_fields := missing;
                                suspicious_values := suspicious;
                                format_errors := format_errors |} |})
  end.

Record ClassificationRecord := {
  path : string;
  label : string;
  confidence : Q;
  reasons : list string;
  structured : StructuredDoc;
  label_id : option (option Z)   (* the key is present only with a label map *)
}.

(** The loop over the table: the state is (best_label, best_confidence,
    reasons). *)
Definition best_step (text filename : string)
           (st : string * Q * list string) (entry : string * list string)
  : string * Q * list string :=
  let '(best_label, best_confidence, reasons) := st in
  let (label, patterns) := entry in
  let (confidence, explanation) := _score_label patterns text filename in
  if Qltb best_confidence confidence
  then (label, confidence, explanation)
  else st.

Definition best_match (path text : string) : string * Q * list string :=
  fold_left (best_step text (path_name path)) LABEL_PATTERNS
            ("unknown", 0%Q, ["No patterns matched"]).

Definition classify_document (path text : string) : result ClassificationRecord :=
  let '(best_label, best_confidence, reasons) := best_match path text in
  bind (_build_structured best_label text)
       (fun structured =>
          Ok {| path := path;
                label := best_label;
                confidence := round1 (best_confidence * 100)%Q;
                reasons := reasons;
                structured := structured;
                label_id := None |}).

Record ClassificationSummary := {
  total_documents : nat;
  labels : list (string * nat);
  top_label : option string;
  average_confidence : Q
}.

Record ClassificationReport := {
  documents : list ClassificationRecord;
  summary : ClassificationSummary
}.

(** [label_counts[l] = label_counts.get(l, 0) + 1], keeping insertion order. *)
Fixpoint count_label (l : string) (counts : list (string * nat)) : list (string * nat) :=
  match counts with
  | [] => [(l, 1%nat)]
  | (k, n) :: rest =>
      if String.eqb k l then (k, S n) :: rest else (k, n) :: count_label l rest
  end.

(** [max(label_counts, key=label_counts.get)]: the first key with the
    largest count. *)
Definition max_label (counts : list (string * nat)) : option string :=
  match counts with
  | [] => None
  | (k, n) :: rest =>
      Some (fst (fold_left (fun best kv => if (snd best <? snd kv)%nat then kv else best)
                           rest (k, n)))
  end.

(** [label_map] is the loaded label map ([{}] when there is none); the
    report is returned, writing it to [output_path] is left out. *)
Definition classify_documents (pdf_texts : list (string * string))
           (label_map : gmap string Z) : result ClassificationReport :=
  bind (mapM (fun '(doc_path, text) =>
                bind (classify_document doc_path text)
                     (fun result =>
                        Ok (if decide (label_map = ∅) then result
                            else {| path := result.(path);
                                    label := result.(label);
                                    confidence := result.(confidence);
                                    reasons := result.(reasons);
                                    structured := result.(structured);
                                    label_id := Some (label_map !! result.(label)) |})))
             pdf_texts)
       (fun documents =>
          let label_counts :=
            fold_left (fun counts d => count_label d.(label) counts) documents [] in
          Ok {| documents := documents;
                summary :=
                  {| total_documents := List.length documents;
                     labels := label_counts;
                     top_label := max_label label_counts;
                     average_confidence :=
                       match documents with
                       | [] => 0%Q
                       | _ =>
                           round1 (fold_left Qplus (map confidence documents) 0
                                   / inject_Z (Z.of_nat (List.length documents)))%Q
                       end |} |}).

(** ** Label assignment in the spec's words *)

(** The number of independent hits: the patterns that match the
    filename, plus the patterns that match the body text. *)
Definition hit_count (patterns : list string) (text filename : string) : nat :=
  (List.length (List.filter (fun pattern => Re.found (Re.search pattern true filename)) patterns)
   + List.length (List.filter (fun pattern => Re.found (Re.search pattern true text)) patterns))%nat.

(** 0.25 per hit, capped at 1.0. *)
Definition spec_score (hits : nat) : Q := Qmin 1 ((1 # 4) * inject_Z (Z.of_nat hits)).

(** The score of every archetype, in table order. *)
Definition archetype_scores (path text : string) : list (string * Q) :=
  map (fun entry => (fst entry, spec_score (hit_count (snd entry) text (path_name path))))
      LABEL_PATTERNS.

(** [(label, score)] is the selection among [scores]: the first entry
    whose score is strictly above every earlier one and not below any
    later one, or ["unknown"] with 0 when no score is above 0. *)
Definition selected (scores : list (string * Q)) (label : string) (score : Q) : Prop :=
  (label = "unknown" /\ score = 0%Q /\ forall e, In e scores -> (snd e <= 0)%Q)
  \/ (exists before after,
        scores = before ++ (label, score) :: after
        /\ (0 < score)%Q
        /\ (forall e, In e before -> (snd e < score)%Q)
        /\ (forall e, In e after -> (snd e <= score)%Q)).

(** The state of the selection loop and the score of a table entry. *)
Definition conf_of (st : string * Q * list string) : Q := snd (fst st).
Definition label_of (st : string * Q * list string) : string := fst (fst st).

Definition entry_score (text filename : string) (entry : string * list string) : Q :=
  spec_score (hit_count (snd entry) text filename).

End Classify.

(* ===================================================================== *)
(** * pipeline/validation/schema_validator.py *)
(* ===================================================================== *)

Module SchemaValidator.
Import Py PeriodDetector.

Definition _extract_numbers (text : string) : list pyfloat :=
  flat_map (fun m =>
              match float (remove_char "," (Re.whole m)) with
              | Ok v => [v]
              | Raise ValueError => []
              end)
           (Re.findall "-?\d{1,3}(?:,\d{3})*(?:\.\d+)?" false text).

Definition _detect_dates (text : string) : bool :=
  if Re.found (Re.search "20\d{2}[-/](0[1-9]|1[0-2])" false text) then true
  else if Re.found
            (Re.search "(jan|feb|mar|apr|may|jun|jul|aug|sep|oct|nov|dec)\s+20\d{2}"
                       true text)
  then true
  else false.

(** ** The list objects shared with the classifier

    The validator receives the classification report by reference and
    appends to lists it finds there. A [heap] holds the list objects; a
    location is the identity of one of them. *)

Definition loc := nat.
Definition heap := list (list string).

Definition alloc (h : heap) (v : list string) : loc * heap :=
  (List.length h, h ++ [v]).

Definition deref (h : heap) (l : loc) : list string := default [] (h !! l).

(** [l.append(x)], in place. *)
Definition append (h : heap) (l : loc) (x : string) : heap :=
  match h !! l with
  | Some v => <[l := v ++ [x]]> h
  | None => h
  end.

(** The part of a classification record the validator reads. A key that
    is absent is [None]. *)
Record FlagRefs := {
  r_missing_fields : option loc;
  r_suspicious_values : option loc;
  r_format_errors : option loc
}.

Record StructuredRef := { r_flags : option FlagRefs }.

Record DocRef := {
  r_path : string;
  r_structured : option StructuredRef
}.

(** Storing a report built by the classifier: each of its flag lists is
    an object of its own. *)
Definition store_doc (d : Classify.ClassificationRecord) (h : heap) : DocRef * heap :=
  let f := d.(Classify.structured).(Classify.flags) in
  let (l1, h1) := alloc h f.(Classify.missing_fields) in
  let (l2, h2) := alloc h1 f.(Classify.suspicious_values) in
  let (l3, h3) := alloc h2 f.(Classify.format_errors) in
  ({| r_path := d.(Classify.path);
      r_structured :=
        Some {| r_flags := Some {| r_missing_fields := Some l1;
                                   r_suspicious_values := Some l2;
                                   r_format_errors := Some l3 |} |} |}, h3).

Fixpoint store_report (ds : list Classify.ClassificationRecord) (h : heap)
  : list DocRef * heap :=
  match ds with
  | [] => ([], h)
  | d :: ds' =>
      let (r, h1) := store_doc d h in
      let (rs, h2) := store_report ds' h1 in
      (r :: rs, h2)
  end.

Record ValidationDetail := {
  d_path : string;
  d_periods : list string;
  d_numeric_values_found : nat;
  d_missing_months : list string;
  d_passes_numeric_presence : bool;
  d_passes_period_detection : bool;
  d_has_dates : bool;
  d_missing_fields : loc;
  d_suspicious_values : loc;
  d_format_errors : loc
}.

Record ValidationSummary := {
  documents_validated : nat;
  years_detected : list Z;
  continuity_breaks : list string;
  missing_months : list string;
  completeness_failures : nat;
  passes : bool
}.

Record ValidationReport := {
  summary : ValidationSummary;
  details : list ValidationDetail
}.

(** [classification_map[str(doc.get("path"))] = doc.get("structured", {})] *)
Definition build_classification_map (classification : option (list DocRef))
  : gmap string StructuredRef :=
  match classification with
  | None => ∅
  | Some docs =>
      fold_left (fun m doc =>
                   <[doc.(r_path) := default {| r_flags := None |} doc.(r_structured)]> m)
                docs ∅
  end.

(** [flags.get(key, []) if flags else []]: the list found under the key,
    or a new empty list. *)
Definition flag_list (flags : option FlagRefs) (key : FlagRefs -> option loc) (h : heap)
  : loc * heap :=
  match flags with
  | Some f =>
      match key f with
      | Some l => (l, h)
      | None => alloc h []
      end
  | None => alloc h []
  end.

(** The state of the loop over the documents. *)
Record loop_state := {
  st_details : list ValidationDetail;
  st_all_periods : list string;
  st_missing_months_global : list string;
  st_heap : heap
}.

Definition validate_one (classification_map : gmap string StructuredRef)
           (st : loop_state) (item : string * string) : result loop_state :=
  let (path, text) := item in
  let periods := detect_periods text in
  let numbers := _extract_numbers text in
  bind (detect_missing_months periods) (fun missing_months =>
    let has_dates := _detect_dates text in
    let alpha_chars := List.length (Re.findall "[A-Za-z]" false text) in
    let numeric_count := List.length numbers in
    let sparse_text := (alpha_chars <? 20)%nat && (numeric_count <? 5)%nat in
    let flags :=
      match classification_map !! path with
      | Some structured => structured.(r_flags)
      | None => None
      end in
    let (missing_fields, h1) := flag_list flags r_missing_fields st.(st_heap) in
    let (suspicious_values, h2) := flag_list flags r_suspicious_values h1 in
    let (format_errors, h3) := flag_list flags r_format_errors h2 in
    let h4 := if has_dates then h3 else append h3 format_errors "missing dates" in
    let h5 := if sparse_text then append h4 format_errors "sparse content" else h4 in
    let detail :=
      {| d_path := path;
         d_periods := periods;
         d_numeric_values_found := numeric_count;
         d_missing_months := missing_months;
         d_passes_numeric_presence := (5 <? List.length numbers)%nat;
         d_passes_period_detection := (0 <? List.length periods)%nat;
         d_has_dates := has_dates;
         d_missing_fields := missing_fields;
         d_suspicious_values := suspicious_values;
         d_format_errors := format_errors |} in
    Ok {| st_details := st.(st_details) ++ [detail];
          st_all_periods := st.(st_all_periods) ++ periods;
          st_missing_months_global := st.(st_missing_months_global) ++ missing_months;
          st_heap := h5 |}).

Fixpoint validate_loop (classification_map : gmap string StructuredRef)
         (items : list (string * string)) (st : loop_state) : result loop_state :=
  match items with
  | [] => Ok st
  | item :: rest =>
      bind (validate_one classification_map st item)
           (validate_loop classification_map rest)
  end.

(** [int(p[:4]) for p in all_periods if len(p) >= 4 and p[:4].isdigit()] *)
Definition period_years (all_periods : list string) : result (list Z) :=
  mapM (fun p => int (take 4 p))
       (List.filter (fun p => (4 <=? String.length p)%nat && isdigit (take 4 p)) all_periods).

(** [zip(years, years[1:])] *)
Definition adjacent (years : list Z) : list (Z * Z) := combine years (tl years).

Definition find_breaks (years : list Z) : list string :=
  flat_map (fun '(prev, current) =>
              if (1 <? current - prev)%Z
              then ["Gap between " +:+ str_of_Z prev +:+ " and " +:+ str_of_Z current]
              else [])
           (adjacent years).

Definition nonempty {A} (l : list A) : bool :=
  match l with
  | [] => false
  | _ => true
  end.

(** A detail is a completeness failure when, at the end of the loop, it
    has a missing field or a format error, or too few numbers. *)
Definition fails_completeness (h : heap) (d : ValidationDetail) : bool :=
  nonempty (deref h d.(d_missing_fields))
  || nonempty (deref h d.(d_format_errors))
  || negb d.(d_passes_numeric_presence).

(** The report is returned with the heap the call leaves behind; writing
    the report to [output_path] is left out. *)
Definition validate_documents (pdf_texts : list (string * string))
           (classification : option (list DocRef)) (h : heap)
  : result (ValidationReport * heap) :=
  let classification_map := build_classification_map classification in
  bind (validate_loop classification_map pdf_texts
          {| st_details := [];
             st_all_periods := [];
             st_missing_months_global := [];
             st_heap := h |})
       (fun st =>
  bind (period_years st.(st_all_periods)) (fun ys =>
    let years := sorted_set Z.compare ys in
    let breaks := find_breaks years in
    let failures := List.filter (fails_completeness st.(st_heap)) st.(st_details) in
    Ok ({| summary :=
             {| documents_validated := List.length pdf_texts;
                years_detected := years;
                continuity_breaks := breaks;
                missing_months := sorted_strings st.(st_missing_months_global);
                completeness_failures := List.length failures;
                passes := negb (nonempty breaks) && (List.length failures =? 0)%nat |};
           details := st.(st_details) |},
        st.(st_heap)))).

(** ** The notions of section 4.4 in the spec's words *)

(** The year a period token refers to, when it starts with four digits. *)
Definition year_of_period (p : string) : option Z :=
  if (4 <=? String.length p)%nat && isdigit (take 4 p)
  then match int (take 4 p) with
       | Ok y => Some y
       | Raise _ => None
       end
  else None.

(** Two consecutive distinct detected years: no detected year lies
    strictly between them. *)
Definition consecutive (years : list Z) (y1 y2 : Z) : Prop :=
  In y1 years /\ In y2 years /\ (y1 < y2)%Z
  /\ forall y, In y years -> ~ (y1 < y < y2)%Z.

(** A document fails completeness when it has a missing field, a format
    error, or does not exceed 5 numeric values. *)
Definition spec_fails_completeness (h : heap) (d : ValidationDetail) : bool :=
  nonempty (deref h d.(d_missing_fields))
  || nonempty (deref h d.(d_format_errors))
  || (d.(d_numeric_values_found) <=? 5)%nat.

(** ** The loop, as the proofs see it *)

(** What the loop maintains. *)
Definition loop_inv (st : loop_state) : Prop :=
  Forall (fun d => d.(d_passes_numeric_presence)
                   = (5 <? d.(d_numeric_values_found))%nat) st.(st_details)
  /\ st.(st_all_periods) = flat_map d_periods st.(st_details).

(** Each detail is the one of a document, in the order of the mapping. *)
Definition detail_of (d : ValidationDetail) (item : string * string) : Prop :=
  d.(d_path) = fst item
  /\ d.(d_periods) = detect_periods (snd item)
  /\ d.(d_numeric_values_found) = List.length (_extract_numbers (snd item)).

End SchemaValidator.

(* ===================================================================== *)
(** * pipeline/quality_gate/gate_rules.py *)
(* ===================================================================== *)

Module GateRules.
Import Py.

Definition REQUIRED_DOC_TYPES : list (string * list string) :=
  [ ("income_statement",
     ["income[_\\s]?statement"; "p&l"; "profit[_\\s]?and[_\\s]?loss"]);
    ("balance_sheet", ["balance[_\\s]?sheet"]);
    ("cash_flow", ["cash[_\\s]?flow"; "cashflow"]) ].

Definition find_missing_required (file_names : list string) : list string :=
  let lowered := map lower file_names in
  flat_map (fun '(doc_type, patterns) =>
              if existsb (fun name =>
                            existsb (fun pattern => Re.found (Re.search pattern false name))
                                    patterns)
                         lowered
              then [] else [doc_type])
           REQUIRED_DOC_TYPES.

(** The distinct elements, in order of first occurrence (the keys of a
    [Counter]). *)
Fixpoint distinct (l : list string) (seen : list string) : list string :=
  match l with
  | [] => []
  | x :: l' =>
      if existsb (String.eqb x) seen then distinct l' seen
      else x :: distinct l' (x :: seen)
  end.

Definition count_occ_str (x : string) (l : list string) : nat :=
  List.length (List.filter (String.eqb x) l).

Definition detect_folder_structure (file_names : list string) : list string :=
  let depths := map (fun name => List.length (path_parts name)) file_names in
  let deep :=
    if existsb (fun depth => (3 <? depth)%nat) depths
    then ["Files nested more than 2 levels deep"] else [] in
  let top_levels :=
    flat_map (fun name =>
                match path_parts name with
                | top :: _ :: _ => [top]
                | _ => []
                end)
             file_names in
  let many :=
    if (3 <? List.length (distinct top_levels []))%nat
    then ["Multiple top-level folders detected"] else [] in
  deep ++ many.

Definition detect_inconsistent_naming (file_names : list string) : list string :=
  let lowered := map lower file_names in
  let duplicates :=
    List.filter (fun name => (1 <? count_occ_str name lowered)%nat) (distinct lowered []) in
  let dup_issue :=
    match duplicates with
    | [] => []
    | _ => ["Duplicate names: " +:+ join ", " duplicates]
    end in
  let bad_chars :=
    List.filter (fun name => Re.found (Re.search "[^a-zA-Z0-9_./\\-]" false name)) file_names in
  let bad_issue :=
    match bad_chars with
    | [] => []
    | _ => ["Non-alphanumeric characters in file names"]
    end in
  dup_issue ++ bad_issue.

End GateRules.

(* ===================================================================== *)
(** * pipeline/quality_gate/scorer.py and router.py *)
(* ===================================================================== *)

Module Scorer.
Import Py GateRules.

(** What the scorer observes of the outside world: the archive, the text
    the PDF backend extracts from a file, whether a backend is installed,
    and the clock. Unpacking the members to the scan directory is taken
    to succeed. *)
Record World := {
  is_zipfile : string -> bool;
  namelist : string -> list string;
  extract_text : string -> string;
  PDF_EXTRACTION_AVAILABLE : bool;
  elapsed : Q
}.

Inductive Status := GOOD | BAD.

(** The result dictionary. The keys that only the full result has are
    options: [None] is an absent key. *)
Record ScoreResult := {
  status : Status;
  total_score : Z;
  issues : list string;
  missing_required : list string;
  corrupt_pdfs : list string;
  sparse_pdfs : option (list string);
  missing_terms : option (list string);
  inconsistent_naming : list string;
  folder_issues : list string;
  files : list string;
  elapsed_seconds : Q;
  score_json : option (option string);
  scan_dir : option string
}.

Section WithWorld.
Variable w : World.

Definition is_pdf (path : string) : bool :=
  String.eqb (lower (path_suffix path)) ".pdf".

Definition detect_corrupt_pdf (pdf_path : string) : bool :=
  String.eqb (strip (w.(extract_text) pdf_path)) "".

Definition _scan_for_corrupt_pdfs (extracted_paths : list string) : list string :=
  List.filter (fun path => is_pdf path && detect_corrupt_pdf path) extracted_paths.

Definition _scan_for_sparse_content (extracted_paths : list string) : list string :=
  List.filter (fun path =>
            is_pdf path
            && (List.length (Re.findall "-?\d[\d,\.]*" false (w.(extract_text) path)) <? 5)%nat)
         extracted_paths.

Definition terms : list string :=
  ["revenue"; "cash"; "assets"; "liabilities"; "income"; "balance"; "flow"].

Definition _detect_missing_financial_terms (extracted_paths : list string)
  : list string :=
  if negb w.(PDF_EXTRACTION_AVAILABLE) then []
  else
    let aggregated_text :=
      join " " (map w.(extract_text) (List.filter is_pdf extracted_paths)) in
    let missing_terms :=
      List.filter (fun term => negb (contains term (lower aggregated_text))) terms in
    if (List.length terms - 2 <=? List.length missing_terms)%nat
    then ["Missing key financial terms: " +:+ join ", " missing_terms]
    else [].

(** The destinations of the members that are not directories. *)
Definition _extract_for_scan (zip_path scan_dir : string) : list string :=
  map (path_join scan_dir)
      (List.filter (fun member => negb (endswith member "/")) (w.(namelist) zip_path)).

(** [if workdir:] holds for a non-empty string. *)
Definition given (workdir : option string) : option string :=
  match workdir with
  | Some "" => None
  | other => other
  end.

(** The result, and the score record written when a working directory
    is given (its path and its content). *)
Definition score_zip (zip_path : string) (workdir : option string)
  : ScoreResult * option (string * ScoreResult) :=
  if negb (w.(is_zipfile) zip_path) then
    let result :=
      {| status := BAD;
         total_score := 0;
         issues := ["Not a valid zip archive"];
         missing_required := [];
         corrupt_pdfs := [];
         sparse_pdfs := None;
         missing_terms := None;
         inconsistent_naming := [];
         folder_issues := [];
         files := [];
         elapsed_seconds := w.(elapsed);
         score_json := None;
         scan_dir := None |} in
    (result,
     match given workdir with
     | Some d => Some (path_join d "score.json", result)
     | None => None
     end)
  else
    let file_names :=
      List.filter (fun name => negb (endswith name "/")) (w.(namelist) zip_path) in
    let missing_required := find_missing_required file_names in
    let folder_issues := detect_folder_structure file_names in
    let naming_issues := detect_inconsistent_naming file_names in
    let scan_dir :=
      match given workdir with
      | Some d => path_join d "gate_scan"
      | None => path_join (path_parent zip_path) "gate_scan"
      end in
    let extracted_paths := _extract_for_scan zip_path scan_dir in
    let corrupt_pdfs := _scan_for_corrupt_pdfs extracted_paths in
    let sparse_pdfs := _scan_for_sparse_content extracted_paths in
    let missing_terms := _detect_missing_financial_terms extracted_paths in
    let penalties :=
      (Z.of_nat (List.length missing_required) * 20
       + Z.of_nat (List.length folder_issues) * 10
       + Z.of_nat (List.length naming_issues) * 5
       + Z.of_nat (List.length corrupt_pdfs) * 25
       + Z.of_nat (List.length sparse_pdfs) * 10
       + Z.of_nat (List.length missing_terms) * 10)%Z in
    let total_score := Z.max 0 (100 - penalties) in
    let status :=
      if (70 <=? total_score)%Z
         && negb (SchemaValidator.nonempty missing_required)
         && negb (SchemaValidator.nonempty corrupt_pdfs)
      then GOOD else BAD in
    let issues :=
      (match missing_required with
       | [] => []
       | _ => ["Missing required docs: " +:+ join ", " missing_required]
       end)
      ++ folder_issues
      ++ naming_issues
      ++ (match corrupt_pdfs with
          | [] => []
          | _ => ["Corrupt PDFs: " +:+ join ", " (map path_name corrupt_pdfs)]
          end)
      ++ (match sparse_pdfs with
          | [] => []
          | _ => ["Sparse numeric content in: " +:+ join ", " (map path_name sparse_pdfs)]
          end)
      ++ missing_terms in
    let result (score_json : option string) :=
      {| status := status;
         total_score := total_score;
         issues := issues;
         missing_required := missing_required;
         corrupt_pdfs := corrupt_pdfs;
         sparse_pdfs := Some sparse_pdfs;
         missing_terms := Some missing_terms;
         inconsistent_naming := naming_issues;
         folder_issues := folder_issues;
         files := file_names;
         elapsed_seconds := w.(elapsed);
         score_json := Some score_json;
         scan_dir := Some scan_dir |} in
    match given workdir with
    | Some d =>
        let score_path := path_join d "score.json" in
        (result (Some score_path), Some (score_path, result None))
    | None => (result None, None)
    end.

(** router.py *)
Definition route (score_result : ScoreResult) : string :=
  match score_result.(status) with
  | GOOD => "STANDARD_PATH"
  | BAD => "EXCEPTION_PATH"
  end.
End WithWorld.

(** A package with the three required documents and enough content. *)
Definition good_world : World :=
  {| is_zipfile := fun _ => true;
     namelist := fun _ =>
       ["income_statement.pdf"; "balance_sheet.pdf"; "cash_flow.pdf"];
     extract_text := fun _ => "revenue 1 cash 2 assets 3 income 4 balance 5";
     PDF_EXTRACTION_AVAILABLE := true;
     elapsed := 0 |}.

End Scorer.

(* ===================================================================== *)
(** * pipeline/quality_gate/scorer.py on an archive that may not open *)
(* ===================================================================== *)

Module Archive.
Import Py GateRules.

(** What opening an archive or reading a member can raise:
    [zipfile.BadZipFile], on a central directory that cannot be read or
    on data that does not match its directory entry, or another
    exception, given by the name of its class (NotImplementedError for a
    compression method [zipfile] does not have, RuntimeError for an
    encrypted member). *)
Inductive error :=
| BadZipFile
| Other (class_name : string).

Inductive outcome (A : Type) :=
| Returns (a : A)
| Raises (e : error).
Arguments Returns {A} a.
Arguments Raises {A} e.

Definition bind {A B : Type} (o : outcome A) (f : A -> outcome B) : outcome B :=
  match o with
  | Returns a => f a
  | Raises e => Raises e
  end.

(** [zipfile.is_zipfile] only looks for the end-of-central-directory
    record of the file. A [Disk] adds to the scorer's world what opening
    the file shows: the exception that reading its central directory
    raises, if any, and the one that reading the data of a member
    raises. Writing under the scan directory and writing score.json are
    taken to succeed. *)
Record Disk := {
  world : Scorer.World;
  directory_error : string -> option error;
  member_error : string -> string -> option error
}.

Section WithDisk.
Variable d : Disk.

(** [zipfile.ZipFile(zip_path, "r")], read through [namelist()]. *)
Definition ZipFile (zip_path : string) : outcome (list string) :=
  match d.(directory_error) zip_path with
  | None => Returns (Scorer.namelist d.(world) zip_path)
  | Some e => Raises e
  end.

(** The loop of [_extract_for_scan]: [zf.open(member)] and [src.read()]
    for every member that is not a directory. *)
Fixpoint extract_members (zip_path scan_dir : string) (members : list string)
  : outcome (list string) :=
  match members with
  | [] => Returns []
  | member :: rest =>
      if endswith member "/" then extract_members zip_path scan_dir rest
      else
        match d.(member_error) zip_path member with
        | None =>
            bind (extract_members zip_path scan_dir rest)
                 (fun extracted => Returns (path_join scan_dir member :: extracted))
        | Some e => Raises e
        end
  end.

Definition _extract_for_scan (zip_path scan_dir : string) : outcome (list string) :=
  bind (ZipFile zip_path) (extract_members zip_path scan_dir).

(** [score_zip], with the two places where it opens the archive. *)
Definition score_zip (zip_path : string) (workdir : option string)
  : outcome (Scorer.ScoreResult * option (string * Scorer.ScoreResult)) :=
  let w := d.(world) in
  if negb (Scorer.is_zipfile w zip_path) then
    let result :=
      {| Scorer.status := Scorer.BAD;
         Scorer.total_score := 0;
         Scorer.issues := ["Not a valid zip archive"];
         Scorer.missing_required := [];
         Scorer.corrupt_pdfs := [];
         Scorer.sparse_pdfs := None;
         Scorer.missing_terms := None;
         Scorer.inconsistent_naming := [];
         Scorer.folder_issues := [];
         Scorer.files := [];
         Scorer.elapsed_seconds := Scorer.elapsed w;
         Scorer.score_json := None;
         Scorer.scan_dir := None |} in
    Returns (result,
             match Scorer.given workdir with
             | Some dir => Some (path_join dir "score.json", result)
             | None => None
             end)
  else
    bind (ZipFile zip_path) (fun names =>
    let file_names := List.filter (fun name => negb (endswith name "/")) names in
    let missing_required := find_missing_required file_names in
    let folder_issues := detect_folder_structure file_names in
    let naming_issues := detect_inconsistent_naming file_names in
    let scan_dir :=
      match Scorer.given workdir with
      | Some dir => path_join dir "gate_scan"
      | None => path_join (path_parent zip_path) "gate_scan"
      end in
    bind (_extract_for_scan zip_path scan_dir) (fun extracted_paths =>
    let corrupt_pdfs := Scorer._scan_for_corrupt_pdfs w extracted_paths in
    let sparse_pdfs := Scorer._scan_for_sparse_content w extracted_paths in
    let missing_terms := Scorer._detect_missing_financial_terms w extracted_paths in
    let penalties :=
      (Z.of_nat (List.length missing_required) * 20
       + Z.of_nat (List.length folder_issues) * 10
       + Z.of_nat (List.length naming_issues) * 5
       + Z.of_nat (List.length corrupt_pdfs) * 25
       + Z.of_nat (List.length sparse_pdfs) * 10
       + Z.of_nat (List.length missing_terms) * 10)%Z in
    let total_score := Z.max 0 (100 - penalties) in
    let status :=
      if (70 <=? total_score)%Z
         && negb (SchemaValidator.nonempty missing_required)
         && negb (SchemaValidator.nonempty corrupt_pdfs)
      then Scorer.GOOD else Scorer.BAD in
    let issues :=
      (match missing_required with
       | [] => []
       | _ => ["Missing required docs: " +:+ join ", " missing_required]
       end)
      ++ folder_issues
      ++ naming_issues
      ++ (match corrupt_pdfs with
          | [] => []
          | _ => ["Corrupt PDFs: " +:+ join ", " (map path_name corrupt_pdfs)]
          end)
      ++ (match sparse_pdfs with
          | [] => []
          | _ => ["Sparse numeric content in: " +:+ join ", " (map path_name sparse_pdfs)]
          end)
      ++ missing_terms in
    let result (score_json : option string) :=
      {| Scorer.status := status;
         Scorer.total_score := total_score;
         Scorer.issues := issues;
         Scorer.missing_required := missing_required;
         Scorer.corrupt_pdfs := corrupt_pdfs;
         Scorer.sparse_pdfs := Some sparse_pdfs;
         Scorer.missing_terms := Some missing_terms;
         Scorer.inconsistent_naming := naming_issues;
         Scorer.folder_issues := folder_issues;
         Scorer.files := file_names;
         Scorer.elapsed_seconds := Scorer.elapsed w;
         Scorer.score_json := Some score_json;
         Scorer.scan_dir := Some scan_dir |} in
    match Scorer.given workdir with
    | Some dir =>
        let score_path := path_join dir "score.json" in
        Returns (result (Some score_path), Some (score_path, result None))
    | None => Returns (result None, None)
    end)).
End WithDisk.

(** Every member of the archive can be read. *)
Definition readable (d : Disk) (zip_path : string) : Prop :=
  directory_error d zip_path = None
  /\ forall member,
       In member (Scorer.namelist (world d) zip_path) ->
       member_error d zip_path member = None.


End Archive.

(* ===================================================================== *)
(** * pipeline/run_pipeline.py: classification, then validation *)
(* ===================================================================== *)

Module Pipeline.
Import Py.

(** The two stages of [run_pipeline] that share the classification
    report: the report the classifier returns is the object handed to the
    validator. The result holds the stored report, the heap before the
    validation, the validation report and the heap after it. *)
Definition classify_then_validate (pdf_texts : list (string * string))
           (label_map : gmap string Z)
  : result (list SchemaValidator.DocRef * SchemaValidator.heap
            * SchemaValidator.ValidationReport * SchemaValidator.heap) :=
  bind (Classify.classify_documents pdf_texts label_map) (fun classification_report =>
    let (docs, h0) :=
      SchemaValidator.store_report classification_report.(Classify.documents) [] in
    bind (SchemaValidator.validate_documents pdf_texts (Some docs) h0)
         (fun '(validation_report, h1) => Ok (docs, h0, validation_report, h1))).

(** The format_errors list of each classification record, read in [h]. *)
Definition classifier_format_errors (docs : list SchemaValidator.DocRef)
           (h : SchemaValidator.heap) : list (list string) :=
  map (fun d =>
         match d.(SchemaValidator.r_structured) with
         | Some {| SchemaValidator.r_flags :=
                     Some {| SchemaValidator.r_format_errors := Some l |} |} =>
             SchemaValidator.deref h l
         | _ => []
         end)
      docs.

End Pipeline.

(* ===================================================================== *)
(** * The patterns of the pipeline *)
(* ===================================================================== *)

Module Patterns.

(** Every pattern string the modelled functions pass to [re]. *)
Definition all_patterns : list string :=
  flat_map snd Classify.LABEL_PATTERNS
  ++ flat_map snd GateRules.REQUIRED_DOC_TYPES
  ++ ReAlphabet.number_patterns
  ++ map (fun month => month +:+ "\s+20\d{2}") PeriodDetector.MONTHS
  ++ [ ReAlphabet.cap_row_pattern;
       "\\b(tbd|n/?a|--+|\\?\\?\\?)\\b";
       "[A-Za-z]+";
       "(\\d{1,2}/\\d{1,2}/\\d{2,4}).{0,40}?(-?[\\d,\\.]+)";
       "([A-Za-z0-9 ]+)\\s+(\\d+[\\d,\\.\\-]*)\\s+(\\d+[\\d,\\.\\-]*)\\s+(\\d+[\\d,\\.\\-]*)\\s+(\\d+[\\d,\\.\\-]*)";
       "between\\s+([A-Za-z0-9 &]+)";
       "payment terms[^\\n]+";
       "(20\d{2})";
       "(20\d{2})[-_/](0[1-9]|1[0-2])";
       PeriodDetector.ym_pattern;
       "-?\d{1,3}(?:,\d{3})*(?:\.\d+)?";
       "20\d{2}[-/](0[1-9]|1[0-2])";
       "(jan|feb|mar|apr|may|jun|jul|aug|sep|oct|nov|dec)\s+20\d{2}";
       "[A-Za-z]";
       "-?\d[\d,\.]*";
       "[^a-zA-Z0-9_./\\-]" ].

End Patterns.

(* ===================================================================== *)
(** * Matching in a longer text *)
(* ===================================================================== *)

Module ReExtend.
Import Py Re.

Section Extend.
Variable t : list ascii.
Context {A B : Type}.

(** [k'] succeeds after [s ++ t] whenever [k] succeeds after [s]. *)
Definition ext (k : @cont A) (k' : @cont B) : Prop :=
  forall s c, k s c <> None -> forall c2, k' (s ++ t) c2 <> None.

(** A success of [mr] on [s] is a success of [mr'] on [s ++ t]. *)
Definition app_ok (mr : @matcher A) (mr' : @matcher B) : Prop :=
  forall s c c2 k k', ext k k' -> mr s c k <> None -> mr' (s ++ t) c2 k' <> None.
End Extend.

End ReExtend.

(* ===================================================================== *)
(** * The row patterns of classify.py and the results without rows *)
(* ===================================================================== *)

Module ClassifyRows.
Import Py Re Classify.

(** The pattern of [_extract_bank_statement] and the one of
    [_extract_ar_aging]. *)
Definition transaction_pattern : string :=
  "(\\d{1,2}/\\d{1,2}/\\d{2,4}).{0,40}?(-?[\\d,\\.]+)".

Definition bank_statement_empty : extraction :=
  ([("starting_balance", VNone); ("ending_balance", VNone);
    ("list_of_transactions", VRecords [])],
   ["starting_balance"; "ending_balance"], [],
   ["incomplete transaction sections"]).

Definition aging_row_pattern : string :=
  "([A-Za-z0-9 ]+)\\s+(\\d+[\\d,\\.\\-]*)\\s+(\\d+[\\d,\\.\\-]*)\\s+(\\d+[\\d,\\.\\-]*)\\s+(\\d+[\\d,\\.\\-]*)".

Definition aging_rows (text : string) : list mobj :=
  flat_map (findall aging_row_pattern false) (splitlines text).

Definition ar_aging_empty : extraction :=
  ([("customers", VRecords [])],
   ["current"; "thirty_days"; "sixty_days"; "ninety_plus_days"], [], []).


(** A field value that holds a number: a float, or a list with a row. *)
Definition holds_number (v : fvalue) : bool :=
  match v with
  | VFloat _ => true
  | VRecords (_ :: _) => true
  | _ => false
  end.

(** A structured document with a missing field or a format error. *)
Definition flagged (st : StructuredDoc) : bool :=
  SchemaValidator.nonempty st.(flags).(missing_fields)
  || SchemaValidator.nonempty st.(flags).(format_errors).

End ClassifyRows.

(* ===================================================================== *)
(** * What the validator does to the shared lists *)
(* ===================================================================== *)

Module ValidatorHeap.
Import Py SchemaValidator.

(** The two notes the validator appends. *)
Definition note (x : string) : bool :=
  String.eqb x "missing dates" || String.eqb x "sparse content".

(** Every list of [h] is still there in [h'], with notes appended. *)
Definition grows (h h' : heap) : Prop :=
  forall l v, h !! l = Some v ->
    exists extra, h' !! l = Some (v ++ extra) /\ forallb note extra = true.

(** The lists found in a classification report under [format_errors]. *)
Definition format_error_locs (classification : option (list DocRef)) : list loc :=
  match classification with
  | None => []
  | Some docs =>
      flat_map (fun doc =>
                  match doc.(r_structured) with
                  | Some {| r_flags := Some {| r_format_errors := Some l |} |} => [l]
                  | _ => []
                  end)
               docs
  end.

(** The format_errors list named by an entry of the classification map. *)
Definition touched (cm : gmap string StructuredRef) (l : loc) : Prop :=
  exists doc_path s f,
    cm !! doc_path = Some s /\ s.(r_flags) = Some f /\ f.(r_format_errors) = Some l.

(** What the validator appends for a text. *)
Definition notes_of (text : string) : list string :=
  (if _detect_dates text then [] else ["missing dates"])
  ++ (if (List.length (Re.findall "[A-Za-z]" false text) <? 20)%nat
         && (List.length (_extract_numbers text) <? 5)%nat
      then ["sparse content"] else []).

(** A structured entry whose missing_fields or format_errors list is
    not empty in [h]. *)
Definition flagged_ref (h : heap) (s : StructuredRef) : Prop :=
  exists l1 l2 l3 v1 v3,
    s.(r_flags) = Some {| r_missing_fields := Some l1;
                          r_suspicious_values := Some l2;
                          r_format_errors := Some l3 |}
    /\ h !! l1 = Some v1 /\ h !! l3 = Some v3
    /\ nonempty v1 || nonempty v3 = true.

Definition flagged_detail (h : heap) (d : ValidationDetail) : Prop :=
  exists v1 v3,
    h !! d.(d_missing_fields) = Some v1 /\ h !! d.(d_format_errors) = Some v3
    /\ nonempty v1 || nonempty v3 = true.

(** A stored record: the reference [doc] holds, in [h], the flag lists
    of the classifier's record [d]. *)
Definition stored (h : heap) (d : Classify.ClassificationRecord) (doc : DocRef) : Prop :=
  doc.(r_path) = d.(Classify.path)
  /\ exists l1 l2 l3,
       doc.(r_structured)
       = Some {| r_flags := Some {| r_missing_fields := Some l1;
                                    r_suspicious_values := Some l2;
                                    r_format_errors := Some l3 |} |}
       /\ h !! l1 = Some d.(Classify.structured).(Classify.flags).(Classify.missing_fields)
       /\ h !! l2 = Some d.(Classify.structured).(Classify.flags).(Classify.suspicious_values)
       /\ h !! l3 = Some d.(Classify.structured).(Classify.flags).(Classify.format_errors).

(** What the loop maintains when no document has an entry in the
    classification map: the lists of each detail are its own, and hold
    the notes of its text. *)
Definition own_lists (hp : heap) (d : ValidationDetail) (item : string * string) : Prop :=
  hp !! d_missing_fields d = Some []
  /\ hp !! d_format_errors d = Some (notes_of (snd item))
  /\ d_passes_numeric_presence d = (5 <? List.length (_extract_numbers (snd item)))%nat.

End ValidatorHeap.

(* ===================================================================== *)
(** * Patterns with finitely many words *)
(* ===================================================================== *)

Module ReWords.
Import Py Re ReAlphabet.

(** No repetition of [r] is unbounded. *)
Fixpoint finite (r : regex) : bool :=
  match r with
  | Empty | CharSet _ _ | AnyChar => true
  | Cat r1 r2 | Alt r1 r2 => finite r1 && finite r2
  | Repeat _ (Some _) _ r' => finite r'
  | Repeat _ None _ _ => false
  | Group _ r' => finite r'
  end.

(** The concatenations of [n] words of [ws]. *)
Fixpoint power (ws : list (list ascii)) (n : nat) : list (list ascii) :=
  match n with
  | O => [[]]
  | S n' => flat_map (fun w1 => map (app w1) (power ws n')) ws
  end.

(** The words of a finite pattern. *)
Fixpoint words (ic : bool) (r : regex) : list (list ascii) :=
  match r with
  | Empty => [[]]
  | CharSet neg items =>
      map (fun a => [a]) (List.filter (char_ok ic neg items) all_ascii)
  | AnyChar =>
      map (fun a => [a]) (List.filter (fun a => negb (Ascii.eqb a newline)) all_ascii)
  | Cat r1 r2 => flat_map (fun w1 => map (app w1) (words ic r2)) (words ic r1)
  | Alt r1 r2 => words ic r1 ++ words ic r2
  | Repeat lo (Some hi) _ r' =>
      flat_map (fun extra => power (words ic r') (lo + extra)) (seq 0 (S (hi - lo)))
  | Repeat _ None _ _ => []
  | Group _ r' => words ic r'
  end.

End ReWords.

(* ===================================================================== *)
(** * The gate rules, read as rules on names *)
(* ===================================================================== *)

Module GateSpec.
Import Py Re ReWords GateRules.

(** The strings that make a lower-cased file name count for a required
    document type: the words of its patterns. *)
Definition recognised (patterns : list string) : list string :=
  flat_map (fun pattern => map str (words false (compile pattern))) patterns.

Definition names_of (doc_type : string) : list string :=
  flat_map (fun '(t, patterns) => if String.eqb t doc_type then recognised patterns else [])
           REQUIRED_DOC_TYPES.

(** A required type is missing when no name holds one of its strings. *)
Definition spec_missing_required (file_names : list string) : list string :=
  List.filter (fun doc_type =>
                 forallb (fun name =>
                            forallb (fun key => negb (contains key (lower name)))
                                    (names_of doc_type))
                         file_names)
              (map fst REQUIRED_DOC_TYPES).

(** The characters a file name may hold without a naming issue:
    letters, digits, and [_ . / \ -]. *)
Definition name_char (a : ascii) : bool :=
  is_alpha a || is_digit a || existsb (Ascii.eqb a) ["_"; "."; "/"; "\"; "-"]%char.

End GateSpec.

(* ===================================================================== *)
(** * Years in a text *)
(* ===================================================================== *)

Module PeriodSpec.
Import Py PeriodDetector SchemaValidator.

(** The text holds a year 20YY. *)
Definition has_year (l : list ascii) : Prop :=
  exists before d1 d2 after,
    l = before ++ ["2"; "0"; d1; d2]%char ++ after
    /\ is_digit d1 = true /\ is_digit d2 = true.

(** The year a token starts with, when it has one, is in 2000..2099. *)
Definition year_in_century (p : string) : bool :=
  match year_of_period p with
  | Some y => (2000 <=? y)%Z && (y <=? 2099)%Z
  | None => true
  end.

(** A document fails the checks the validator makes on its text alone. *)
Definition text_fails (item : string * string) : bool :=
  negb (_detect_dates (snd item))
  || (List.length (_extract_numbers (snd item)) <=? 5)%nat.

End PeriodSpec.

(* ===================================================================== *)
(** * pipeline/memo_builder/extract_financials.py *)
(* ===================================================================== *)

Module ExtractFinancials.
Import Py.

(** The pattern built for a keyword: the f-string is raw, and its
    doubled braces stand for single ones. *)
Definition metric_pattern (keyword : string) : string :=
  keyword +:+ "[^\\d]*(20\\d{2})?[^\\d]*(-?\\d[\\d,\\.]+)".

Definition _extract_metric (text keyword : string) : list (string * pyfloat) :=
  flat_map (fun m =>
              let year :=
                if String.eqb (Re.group_or_empty m 1) "" then "unknown"
                else Re.group_or_empty m 1 in
              let value_str := remove_char "," (Re.group_or_empty m 2) in
              match float value_str with
              | Ok value => [(year, value)]
              | Raise ValueError => []
              end)
           (Re.findall (metric_pattern keyword) true text).

Record Financials := {
  revenue : list (string * pyfloat);
  ebitda : list (string * pyfloat);
  net_income : list (string * pyfloat)
}.

(** The third keyword is written in an ordinary string: its two
    backslashes are one. *)
Definition extract (financial_texts : list string) : Financials :=
  {| revenue := flat_map (fun text => _extract_metric text "revenue") financial_texts;
     ebitda := flat_map (fun text => _extract_metric text "ebitda") financial_texts;
     net_income :=
       flat_map (fun text => _extract_metric text "net income|net\s+profit")
                financial_texts |}.

(** The keywords [extract] looks for. *)
Definition keywords : list string := ["revenue"; "ebitda"; "net income|net\s+profit"].

End ExtractFinancials.

(* ===================================================================== *)
(** * The summary of a classification report, read as counts *)
(* ===================================================================== *)

Module SummarySpec.
Import Py Classify.

(** The number of records with a label. *)
Definition labelled (l : string) (docs : list ClassificationRecord) : nat :=
  List.length (List.filter (fun d => String.eqb (label d) l) docs).

(** [counts.get(l, 0)] *)
Definition count_of (l : string) (counts : list (string * nat)) : nat :=
  match List.find (fun kv => String.eqb (fst kv) l) counts with
  | Some kv => snd kv
  | None => 0%nat
  end.

End SummarySpec.

(* ===================================================================== *)
(** * pipeline/run_pipeline.py, with intake/ and utils/pdf_utils.py *)
(* ===================================================================== *)

Module RunPipeline.
Import Py.

(** [Path(p).stem] *)
Definition path_stem (p : string) : string :=
  let n := chars (path_name p) in
  str (firstn (List.length n - String.length (path_suffix p)) n).

(** file_utils.py: the directory is created, its path returned. *)
Definition package_workdir (base_dir package_id : string) : string :=
  path_join base_dir package_id.

(** receive_zip.py: the archive is copied, the path of the copy returned. *)
Definition save_zip_locally (source_zip_path workdir : string) : string :=
  path_join workdir (path_name source_zip_path).

(** unzipper.py: the destinations of the members that are not
    directories. *)
Definition unzip_archive (w : Scorer.World) (zip_path target_dir : string) : list string :=
  map (path_join target_dir)
      (List.filter (fun member => negb (endswith member "/")) (w.(Scorer.namelist) zip_path)).

(** [d[k] = v] on a dictionary kept in insertion order. *)
Fixpoint dict_set (k v : string) (d : list (string * string)) : list (string * string) :=
  match d with
  | [] => [(k, v)]
  | (k', v') :: rest =>
      if String.eqb k' k then (k', v) :: rest else (k', v') :: dict_set k v rest
  end.

(** pdf_utils.py *)
Definition extract_texts (w : Scorer.World) (paths : list string) : list (string * string) :=
  fold_left (fun results path => dict_set path (w.(Scorer.extract_text) path) results)
            paths [].

Inductive PipelineStatus := REJECTED | REJECTED_VALIDATION | COMPLETED.

(** The status [run_pipeline] ends with. The file operations (copying
    the archive, unpacking it, writing the reports, the quarantine, the
    memo and the store) are taken to succeed; [label_map] is the content
    of label_map.json. The memo stage computes the content of the memo
    and has no part in the status. *)
Definition run_pipeline (w : Scorer.World) (label_map : gmap string Z)
           (zip_path base_workdir : string) : result PipelineStatus :=
  let package_id := path_stem zip_path in
  let workdir := package_workdir base_workdir package_id in
  let local_zip := save_zip_locally zip_path workdir in
  let score := fst (Scorer.score_zip w local_zip (Some workdir)) in
  let path := Scorer.route score in
  if String.eqb path "EXCEPTION_PATH" then Ok REJECTED
  else
    let extracted_dir := path_join workdir "extracted" in
    let extracted_paths := unzip_archive w local_zip extracted_dir in
    let pdf_paths :=
      List.filter (fun p => String.eqb (lower (path_suffix p)) ".pdf") extracted_paths in
    let pdf_texts := extract_texts w pdf_paths in
    bind (Pipeline.classify_then_validate pdf_texts label_map)
         (fun '(_, _, validation_report, _) =>
            if negb (SchemaValidator.passes (SchemaValidator.summary validation_report))
            then Ok REJECTED_VALIDATION
            else Ok COMPLETED).

(** The PDFs [run_pipeline] reads for an archive. *)
Definition pdf_paths (w : Scorer.World) (zip_path base_workdir : string) : list string :=
  let workdir := package_workdir base_workdir (path_stem zip_path) in
  List.filter (fun p => String.eqb (lower (path_suffix p)) ".pdf")
              (unzip_archive w (save_zip_locally zip_path workdir)
                             (path_join workdir "extracted")).

(** The result of the quality gate in [run_pipeline]. *)
Definition gate (w : Scorer.World) (zip_path base_workdir : string) : Scorer.ScoreResult :=
  let workdir := package_workdir base_workdir (path_stem zip_path) in
  fst (Scorer.score_zip w (save_zip_locally zip_path workdir) (Some workdir)).

(** An archive of three PDFs without text. *)
Definition blank_world : Scorer.World :=
  {| Scorer.is_zipfile := fun _ => true;
     Scorer.namelist := fun _ =>
       ["income_statement.pdf"; "balance_sheet.pdf"; "cash_flow.pdf"];
     Scorer.extract_text := fun _ => "   ";
     Scorer.PDF_EXTRACTION_AVAILABLE := false;
     Scorer.elapsed := 0 |}.

(** An archive that passes the gate without a PDF in it. *)
Definition spreadsheet_world : Scorer.World :=
  {| Scorer.is_zipfile := fun _ => true;
     Scorer.namelist := fun _ =>
       ["income_statement.xlsx"; "balance_sheet.xlsx"; "cash_flow.xlsx"];
     Scorer.extract_text := fun _ => "";
     Scorer.PDF_EXTRACTION_AVAILABLE := true;
     Scorer.elapsed := 0 |}.

End RunPipeline.

(* ===================================================================== *)
(** * Facts about the runtime fragments *)
(* ===================================================================== *)

Module PyFacts.
Import Py.

Lemma chars_str (l : list ascii) : chars (str l) = l.
Proof. apply list_ascii_of_string_of_list_ascii. Qed.

Lemma str_chars (s : string) : str (chars s) = s.
Proof. apply string_of_list_ascii_of_string. Qed.

Lemma chars_app (a b : string) : chars (a +:+ b) = chars a ++ chars b.
Proof.
  induction a as [|x a IH]; simpl; [reflexivity|].
  unfold chars in *. simpl. now rewrite IH.
Qed.

Lemma chars_length (s : string) : List.length (chars s) = String.length s.
Proof. induction s; simpl; auto. Qed.

Lemma Ok_inj {A} (a b : A) : Ok a = Ok b -> a = b.
Proof. intros H. now inversion H. Qed.

End PyFacts.

(* ===================================================================== *)
(** * Soundness of the matcher *)
(* ===================================================================== *)

Module ReFacts.
Import Py Re.

Section Sound.
Variable ic : bool.
Context {A : Type}.

Lemma rep_min_sound (mr : @matcher A) P n :
  sound mr P -> sound (rep_min mr n) (iter P n).
Proof.
  intros Hmr. induction n as [|n IH]; intros s c k x H; simpl in H.
  - exists [], s, c. simpl. auto.
  - apply Hmr in H. destruct H as (w1 & s1 & c1 & -> & HP & H).
    apply IH in H. destruct H as (w2 & s2 & c2 & -> & Hit & H).
    exists (w1 ++ w2), s2, c2. rewrite <- app_assoc.
    split; [reflexivity|]. split; [|exact H].
    simpl. exists w1, w2, c1. auto.
Qed.

Lemma rep_more_sound (mr : @matcher A) P greedy :
  sound mr P ->
  forall fuel budget s c k x,
    rep_more mr fuel budget greedy s c k = Some x ->
    exists n w s' c',
      s = w ++ s' /\ iter P n w c c'
      /\ (forall b, budget = Some b -> (n <= b)%nat)
      /\ k s' c' = Some x.
Proof.
  intros Hmr. induction fuel as [|f IH]; intros budget s c k x H; simpl in H.
  - exists 0%nat, [], s, c. simpl. repeat split; auto. intros; lia.
  - assert (Hstop : k s c = Some x ->
              exists n w s' c',
                s = w ++ s' /\ iter P n w c c'
                /\ (forall b, budget = Some b -> (n <= b)%nat)
                /\ k s' c' = Some x).
    { intros Hk. exists 0%nat, [], s, c. simpl. repeat split; auto. intros; lia. }
    assert (Hmore :
              (if budget_left budget then
                 mr s c (fun s' c' =>
                           if (List.length s' <? List.length s)%nat
                           then rep_more mr f (option_map Nat.pred budget) greedy s' c' k
                           else None)
               else None) = Some x ->
              exists n w s' c',
                s = w ++ s' /\ iter P n w c c'
                /\ (forall b, budget = Some b -> (n <= b)%nat)
                /\ k s' c' = Some x).
    { intros Hm. destruct (budget_left budget) eqn:Hb; [|discriminate].
      apply Hmr in Hm. destruct Hm as (w1 & s1 & c1 & -> & HP & Hm).
      destruct (List.length s1 <? List.length (w1 ++ s1))%nat; [|discriminate].
      apply IH in Hm. destruct Hm as (n & w2 & s2 & c2 & -> & Hit & Hbud & Hk).
      exists (S n), (w1 ++ w2), s2, c2. rewrite <- app_assoc.
      split; [reflexivity|]. split; [simpl; exists w1, w2, c1; auto|].
      split; [|exact Hk].
      intros b ->. destruct b as [|b]; [discriminate|].
      specialize (Hbud b eq_refl). lia. }
    destruct greedy.
    + destruct (if budget_left budget then _ else None) eqn:E.
      * apply Hmore. congruence.
      * apply Hstop. exact H.
    + destruct (k s c) eqn:E.
      * inversion H; subst. apply Hstop. reflexivity.
      * apply Hmore. exact H.
Qed.

Lemma iter_app P n1 n2 w1 w2 c c1 c2 :
  iter P n1 w1 c c1 -> iter P n2 w2 c1 c2 -> iter P (n1 + n2) (w1 ++ w2) c c2.
Proof.
  revert w1 c. induction n1 as [|n1 IH]; intros w1 c H1 H2; simpl in *.
  - destruct H1 as [-> ->]. exact H2.
  - destruct H1 as (u & v & c' & -> & HP & Hit).
    exists u, (v ++ w2), c'. rewrite <- app_assoc. auto.
Qed.

Lemma firstn_app_sub (w s' : list ascii) :
  firstn (List.length (w ++ s') - List.length s') (w ++ s') = w.
Proof.
  rewrite length_app. replace (List.length w + List.length s' - List.length s')%nat
    with (List.length w + 0)%nat by lia.
  rewrite firstn_app_2. simpl. apply app_nil_r.
Qed.

Theorem exec_sound (r : regex) : sound (@exec ic A r) (matches ic r).
Proof.
  induction r as [| neg items | | r1 IH1 r2 IH2 | r1 IH1 r2 IH2
                 | lo hi greedy r IH | n r IH];
    intros s c k x H; simpl in H.
  - exists [], s, c. simpl. auto.
  - destruct s as [|a s]; [discriminate|].
    destruct (char_ok ic neg items a) eqn:E; [|discriminate].
    exists [a], s, c. simpl. split; [reflexivity|]. split; [|exact H]. eauto.
  - destruct s as [|a s]; [discriminate|].
    destruct (Ascii.eqb a newline) eqn:E; [discriminate|].
    exists [a], s, c. simpl. split; [reflexivity|]. split; [|exact H]. eauto.
  - apply IH1 in H. destruct H as (w1 & s1 & c1 & -> & H1 & H).
    apply IH2 in H. destruct H as (w2 & s2 & c2 & -> & H2 & H).
    exists (w1 ++ w2), s2, c2. rewrite <- app_assoc.
    split; [reflexivity|]. split; [|exact H]. simpl. exists w1, w2, c1. auto.
  - destruct (exec ic r1 s c k) eqn:E.
    + inversion H; subst. apply IH1 in E.
      destruct E as (w & s' & c' & -> & H1 & Hk).
      exists w, s', c'. simpl. auto.
    + apply IH2 in H. destruct H as (w & s' & c' & -> & H2 & Hk).
      exists w, s', c'. simpl. auto.
  - apply (rep_min_sound _ _ lo IH) in H.
    destruct H as (w1 & s1 & c1 & -> & Hit1 & H).
    apply (rep_more_sound _ _ greedy IH) in H.
    destruct H as (n & w2 & s2 & c2 & -> & Hit2 & Hbud & Hk).
    exists (w1 ++ w2), s2, c2. rewrite <- app_assoc.
    split; [reflexivity|]. split; [|exact Hk].
    simpl. exists n. split.
    + intros h ->. apply Hbud. reflexivity.
    + eapply iter_app; eauto.
  - apply IH in H. destruct H as (w & s' & c' & -> & Hm & Hk).
    rewrite firstn_app_sub in Hk.
    exists w, s', ((n, w) :: c'). split; [reflexivity|]. split; [|exact Hk].
    simpl. eauto.
Qed.
End Sound.

Lemma match_here_sound ic r s i mo :
  match_here ic r s i = Some mo ->
  matches ic r (m_whole mo) [] (m_caps mo)
  /\ s = m_whole mo ++ m_rest mo /\ m_start mo = i.
Proof.
  unfold match_here. intros H. apply exec_sound in H.
  destruct H as (w & s' & c' & -> & Hm & Hk).
  rewrite firstn_app_sub in Hk. inversion Hk; subst; simpl. auto.
Qed.

Lemma search_from_sound ic r s i mo :
  search_from ic r s i = Some mo ->
  matches ic r (m_whole mo) [] (m_caps mo)
  /\ exists before, s = before ++ m_whole mo ++ m_rest mo.
Proof.
  revert i. induction s as [|a s IH]; intros i H; simpl in H.
  - destruct (match_here ic r [] i) eqn:E; [|discriminate].
    inversion H; subst. apply match_here_sound in E.
    destruct E as (Hm & Hs & _). split; [exact Hm|]. exists []. exact Hs.
  - destruct (match_here ic r (a :: s) i) eqn:E.
    + inversion H; subst. apply match_here_sound in E.
      destruct E as (Hm & Hs & _). split; [exact Hm|]. exists []. exact Hs.
    + apply IH in H. destruct H as (Hm & before & Hs).
      split; [exact Hm|]. exists (a :: before). simpl. now rewrite Hs.
Qed.

Lemma findall_from_sound ic r fuel s mo :
  In mo (findall_from fuel ic r s) -> matches ic r (m_whole mo) [] (m_caps mo).
Proof.
  revert s. induction fuel as [|f IH]; intros s H; simpl in H; [contradiction|].
  destruct (search_from ic r s 0) as [m0|] eqn:E; [|contradiction].
  destruct H as [<- | H].
  - apply search_from_sound in E. tauto.
  - destruct (m_whole m0); [destruct (m_rest m0); [contradiction|]|]; eapply IH; eauto.
Qed.

Lemma findall_sound pattern ic s mo :
  In mo (findall pattern ic s) ->
  matches ic (compile pattern) (m_whole mo) [] (m_caps mo).
Proof. apply findall_from_sound. Qed.

(** Every pattern of the pipeline is in the syntax the parser covers. *)
Lemma all_patterns_parse :
  forallb (fun pattern => is_Some_b (parse pattern)) Patterns.all_patterns = true.
Proof. vm_compute. reflexivity. Qed.

(** Two of them, read as [re] reads them: in a raw string written with
    two backslashes, the class holds a backslash and a letter. *)
Lemma parse_doubled_backslash :
  parse "[^\\d]+" = Some (Repeat 1 None true (CharSet true [CRange "\" "\"; CRange "d" "d"]))
  /\ parse "[_\\s]?" = Some (Repeat 0 (Some 1%nat) true
                               (CharSet false [CRange "_" "_"; CRange "\" "\"; CRange "s" "s"]))
  /\ parse "\d+" = Some (Repeat 1 None true (CharSet false [CDigit])).
Proof. repeat split. Qed.

(** Unfolding [matches] one constructor at a time. *)
Lemma m_cat ic r1 r2 w c c' :
  matches ic (Cat r1 r2) w c c' ->
  exists w1 w2 c1, w = w1 ++ w2 /\ matches ic r1 w1 c c1 /\ matches ic r2 w2 c1 c'.
Proof. exact (fun H => H). Qed.

Lemma m_alt ic r1 r2 w c c' :
  matches ic (Alt r1 r2) w c c' -> matches ic r1 w c c' \/ matches ic r2 w c c'.
Proof. exact (fun H => H). Qed.

Lemma m_set ic neg items w c c' :
  matches ic (CharSet neg items) w c c' ->
  exists a, w = [a] /\ char_ok ic neg items a = true /\ c' = c.
Proof. exact (fun H => H). Qed.

Lemma m_any ic w c c' :
  matches ic AnyChar w c c' -> exists a, w = [a] /\ c' = c.
Proof. intros (a & -> & _ & ->). eauto. Qed.

Lemma m_empty ic w c c' : matches ic Empty w c c' -> w = [] /\ c' = c.
Proof. exact (fun H => H). Qed.

Lemma m_group ic n r w c c' :
  matches ic (Group n r) w c c' -> exists c1, matches ic r w c c1 /\ c' = (n, w) :: c1.
Proof. exact (fun H => H). Qed.

Lemma m_rep ic lo hi g r w c c' :
  matches ic (Repeat lo hi g r) w c c' ->
  exists extra,
    (forall h, hi = Some h -> (extra <= h - lo)%nat)
    /\ iter (matches ic r) (lo + extra) w c c'.
Proof. exact (fun H => H). Qed.

(** Iterating a one-character class. *)
Lemma iter_class ic neg items n w c c' :
  iter (matches ic (CharSet neg items)) n w c c' ->
  List.length w = n /\ Forall (fun a => char_ok ic neg items a = true) w /\ c' = c.
Proof.
  revert w c. induction n as [|n IH]; intros w c H.
  - destruct H as [-> ->]. auto.
  - destruct H as (w1 & w2 & c1 & -> & Hm & Hit).
    apply m_set in Hm. destruct Hm as (a & -> & Ha & ->).
    apply IH in Hit. destruct Hit as (Hl & Hf & ->).
    simpl. repeat split; auto.
Qed.

(** A repeated one-character class. *)
Lemma m_rep_class ic lo hi g neg items w c c' :
  matches ic (Repeat lo hi g (CharSet neg items)) w c c' ->
  (lo <= List.length w)%nat
  /\ (forall h, hi = Some h -> (List.length w <= Nat.max lo h)%nat)
  /\ Forall (fun a => char_ok ic neg items a = true) w /\ c' = c.
Proof.
  intros H. apply m_rep in H. destruct H as (extra & Hex & Hit).
  apply iter_class in Hit. destruct Hit as (Hl & Hf & ->).
  repeat split; auto; [lia|]. intros h Hh. specialize (Hex h Hh). lia.
Qed.

End ReFacts.

(* ===================================================================== *)
(** * Period tokens *)
(* ===================================================================== *)

Module PeriodFacts.
Import Py Re ReFacts PyFacts PeriodDetector PeriodTokens.

Lemma is_digit_In a : is_digit a = true -> In a digit_chars.
Proof.
  destruct a as [[] [] [] [] [] [] [] []]; vm_compute; intros H;
    try discriminate; repeat (first [left; reflexivity | right]).
Qed.

Ltac each_digit H :=
  apply is_digit_In in H; simpl in H;
  repeat (destruct H as [H | H]); [subst .. | contradiction].

Lemma digit_class_ok ic a : char_ok ic false [CDigit] a = true -> is_digit a = true.
Proof.
  destruct a as [[] [] [] [] [] [] [] []]; destruct ic; vm_compute; auto.
Qed.

Lemma lit_ok c a : char_ok false false [CRange c c] a = true -> a = c.
Proof.
  unfold char_ok, set_has, item_has, in_range, code. simpl.
  rewrite !orb_false_r. intros H. apply andb_true_iff in H. destruct H as [H1 H2].
  apply Nat.leb_le in H1, H2.
  rewrite <- (ascii_nat_embedding a), <- (ascii_nat_embedding c). f_equal. lia.
Qed.

Lemma space_class_ok ic a : char_ok ic false [CSpace] a = true -> is_space a = true.
Proof.
  destruct a as [[] [] [] [] [] [] [] []]; destruct ic; vm_compute; auto.
Qed.

Lemma compile_year :
  compile "(20\d{2})"
  = Group 1 (Cat (Lit "2") (Cat (Lit "0") (Repeat 2 (Some 2%nat) true (CharSet false [CDigit])))).
Proof. reflexivity. Qed.

Lemma compile_ym_sep :
  compile "(20\d{2})[-_/](0[1-9]|1[0-2])"
  = Cat (Group 1 (Cat (Lit "2") (Cat (Lit "0")
                   (Repeat 2 (Some 2%nat) true (CharSet false [CDigit])))))
        (Cat (CharSet false [CRange "-" "-"; CRange "_" "_"; CRange "/" "/"])
             (Group 2 (Alt (Cat (Lit "0") (CharSet false [CRange "1" "9"]))
                           (Cat (Lit "1") (CharSet false [CRange "0" "2"]))))).
Proof. reflexivity. Qed.

Lemma compile_ym :
  compile ym_pattern
  = Cat (Group 1 (Cat (Lit "2") (Cat (Lit "0")
                   (Repeat 2 (Some 2%nat) true (CharSet false [CDigit])))))
        (Cat (Lit "-")
             (Group 2 (Alt (Cat (Lit "0") (CharSet false [CRange "1" "9"]))
                           (Cat (Lit "1") (CharSet false [CRange "0" "2"]))))).
Proof. reflexivity. Qed.

Lemma lit_ok_ic c a : char_ok true false [CRange c c] a = true ->
  a = c \/ lower_char a = c \/ upper_char a = c.
Proof.
  unfold char_ok, set_has. simpl. rewrite orb_false_r.
  intros H. apply orb_true_iff in H. destruct H as [H | H].
  - left. apply lit_ok. unfold char_ok, set_has. simpl. now rewrite H.
  - apply orb_true_iff in H. destruct H as [H | H]; [right; left | right; right];
      apply lit_ok; unfold char_ok, set_has; simpl; now rewrite H.
Qed.

(** Case folding, character by character. *)
Ltac by_cases_on a :=
  destruct a as [[] [] [] [] [] [] [] []]; vm_compute; intros; try discriminate; auto.

Lemma lower_of_lower c : is_lower c = true -> lower_char c = c.
Proof. by_cases_on c. Qed.

Lemma upper_not_lower a : is_lower (upper_char a) = false.
Proof. by_cases_on a. Qed.

Lemma lower_is_alpha a : lower_char a = a \/ is_alpha (lower_char a) = true.
Proof. by_cases_on a. Qed.

Lemma upper_is_alpha a : upper_char a = a \/ is_alpha (upper_char a) = true.
Proof. by_cases_on a. Qed.

Lemma lower_space a : is_space a = true -> lower_char a = a.
Proof. by_cases_on a. Qed.

Lemma lower_digit a : is_digit a = true -> lower_char a = a.
Proof. by_cases_on a. Qed.

Lemma digit_not_space a : is_digit a = true -> is_space a = false.
Proof. by_cases_on a. Qed.

(** Under IGNORECASE a lowercase letter of the pattern matches its two
    cases, and a character that is not a letter matches itself only. *)
Lemma lit_ic_lower c a :
  is_lower c = true -> char_ok true false [CRange c c] a = true -> lower_char a = c.
Proof.
  intros Hc H. apply lit_ok_ic in H. destruct H as [-> | [H | H]].
  - now apply lower_of_lower.
  - exact H.
  - rewrite <- H in Hc. now rewrite upper_not_lower in Hc.
Qed.

Lemma lit_any_case ic c a :
  is_alpha c = false -> char_ok ic false [CRange c c] a = true -> a = c.
Proof.
  intros Hc H. destruct ic; [|now apply lit_ok].
  apply lit_ok_ic in H. destruct H as [-> | [H | H]]; [reflexivity| |].
  - destruct (lower_is_alpha a) as [E | E]; congruence.
  - destruct (upper_is_alpha a) as [E | E]; congruence.
Qed.

Lemma year_body_shape ic w c c' :
  matches ic year_body w c c' -> is_year_chars w = true /\ c' = c.
Proof.
  intros H.
  apply m_cat in H. destruct H as (w1 & w2 & c1 & -> & Ha & H).
  apply m_set in Ha. destruct Ha as (a & -> & Ha & ->).
  apply lit_any_case in Ha; [subst a | reflexivity].
  apply m_cat in H. destruct H as (w3 & w4 & c2 & -> & Hb & H).
  apply m_set in Hb. destruct Hb as (b & -> & Hb & ->).
  apply lit_any_case in Hb; [subst b | reflexivity].
  apply m_rep_class in H. destruct H as (Hlo & Hhi & Hf & ->).
  specialize (Hhi 2%nat eq_refl).
  destruct w4 as [|d1 [|d2 [|? ?]]]; simpl in Hlo, Hhi; try lia.
  inversion Hf as [|? ? Hd1 Hf']; subst. inversion Hf' as [|? ? Hd2 _]; subst.
  apply digit_class_ok in Hd1, Hd2.
  simpl. rewrite Hd1, Hd2. auto.
Qed.

Lemma group_or_empty_head mo n w rest :
  m_caps mo = (n, w) :: rest -> group_or_empty mo n = str w.
Proof.
  intros H. unfold group_or_empty, group. rewrite H. simpl.
  now rewrite Nat.eqb_refl.
Qed.

Lemma group_or_empty_second mo n1 n2 w1 w2 rest :
  n1 <> n2 -> m_caps mo = (n1, w1) :: (n2, w2) :: rest -> group_or_empty mo n2 = str w2.
Proof.
  intros Hne H. unfold group_or_empty, group. rewrite H. simpl.
  destruct (Nat.eqb_spec n1 n2); [contradiction|]. now rewrite Nat.eqb_refl.
Qed.

(** The bare years found by [detect_periods]. *)
Lemma year_match_shape mo :
  matches false (compile "(20\d{2})") (m_whole mo) [] (m_caps mo) ->
  is_year_chars (chars (group_or_empty mo 1)) = true.
Proof.
  rewrite compile_year. intros H.
  apply m_group in H. destruct H as (c1 & H & Hc).
  apply year_body_shape in H. destruct H as (Hy & ->).
  rewrite (group_or_empty_head _ _ _ _ Hc), chars_str. exact Hy.
Qed.

(** The zero-padded months 01..12. *)
Lemma month_digits_shape w c c' :
  matches false (Alt (Cat (Lit "0") (CharSet false [CRange "1" "9"]))
                     (Cat (Lit "1") (CharSet false [CRange "0" "2"]))) w c c' ->
  c' = c /\ exists m1 m2,
    w = [m1; m2] /\ is_digit m1 = true /\ is_digit m2 = true
    /\ (1 <=? 10 * digit_val m1 + digit_val m2)%Z = true
    /\ (10 * digit_val m1 + digit_val m2 <=? 12)%Z = true.
Proof.
  intros H. apply m_alt in H.
  destruct H as [H | H];
    apply m_cat in H; destruct H as (w1 & w2 & c1 & -> & Ha & Hb);
    apply m_set in Ha; destruct Ha as (a & -> & Ha & ->);
    apply m_set in Hb; destruct Hb as (b & -> & Hb & ->);
    apply lit_ok in Ha; subst a;
    (split; [reflexivity|]).
  - exists "0"%char, b. split; [reflexivity|]. revert Hb. by_cases_on b; repeat split.
  - exists "1"%char, b. split; [reflexivity|]. revert Hb. by_cases_on b; repeat split.
Qed.

Lemma is_year_chars_inv w :
  is_year_chars w = true ->
  exists d1 d2, w = ["2"; "0"; d1; d2]%char /\ is_digit d1 = true /\ is_digit d2 = true.
Proof.
  destruct w as [|a [|b [|d1 [|d2 [|? ?]]]]]; simpl; try discriminate.
  all: destruct a as [[] [] [] [] [] [] [] []]; try discriminate.
  all: destruct b as [[] [] [] [] [] [] [] []]; try discriminate.
  intros H. apply andb_true_iff in H. destruct H. eauto.
Qed.

Lemma ym_token_intro d1 d2 m1 m2 :
  is_digit d1 = true -> is_digit d2 = true ->
  is_digit m1 = true -> is_digit m2 = true ->
  (1 <=? 10 * digit_val m1 + digit_val m2)%Z = true ->
  (10 * digit_val m1 + digit_val m2 <=? 12)%Z = true ->
  token_year_month (str ["2"%char; "0"%char; d1; d2] +:+ "-" +:+ str [m1; m2])
  = Some ((2000 + 10 * digit_val d1 + digit_val d2)%Z,
          (10 * digit_val m1 + digit_val m2)%Z).
Proof.
  intros H1 H2 H3 H4 H5 H6. unfold token_year_month.
  rewrite !chars_app, !chars_str. simpl.
  now rewrite H1, H2, H3, H4, H5, H6.
Qed.

(** The year-month pairs found by [detect_periods]. *)
Lemma ym_match_shape mo :
  matches false (compile "(20\d{2})[-_/](0[1-9]|1[0-2])") (m_whole mo) [] (m_caps mo) ->
  is_Some_b (token_year_month (group_or_empty mo 1 +:+ "-" +:+ group_or_empty mo 2)) = true.
Proof.
  rewrite compile_ym_sep. intros H.
  apply m_cat in H. destruct H as (w1 & w2 & c1 & _ & Hy & H).
  apply m_group in Hy. destruct Hy as (c0 & Hy & ->).
  apply year_body_shape in Hy. destruct Hy as (Hy & ->).
  apply m_cat in H. destruct H as (w3 & w4 & c2 & _ & Hsep & H).
  apply m_set in Hsep. destruct Hsep as (sep & _ & _ & ->).
  apply m_group in H. destruct H as (c3 & H & Hc).
  apply month_digits_shape in H. destruct H as (-> & m1 & m2 & -> & Hm1 & Hm2 & Hlo & Hhi).
  rewrite (group_or_empty_head _ _ _ _ Hc).
  rewrite (group_or_empty_second _ 2%nat 1%nat _ _ _ ltac:(lia) Hc).
  apply is_year_chars_inv in Hy. destruct Hy as (d1 & d2 & -> & Hd1 & Hd2).
  now rewrite ym_token_intro.
Qed.

Lemma compile_months :
  Forall (fun month =>
            compile (month +:+ "\s+20\d{2}") = month_regex month
            /\ exists c1 c2 c3,
                chars month = [c1; c2; c3]
                /\ is_lower c1 = true /\ is_lower c2 = true /\ is_lower c3 = true
                /\ c1 <> "2"%char)
         MONTHS.
Proof.
  unfold MONTHS.
  repeat (apply List.Forall_cons;
          [split; [reflexivity | do 3 eexists; repeat split; discriminate] |]).
  apply List.Forall_nil.
Qed.

Lemma map_lower_spaces ws :
  Forall (fun a => is_space a = true) ws -> map lower_char ws = ws.
Proof.
  induction 1 as [|a ws Ha _ IH]; simpl; [reflexivity|].
  now rewrite IH, lower_space.
Qed.

Lemma drop_while_app p ws a r :
  Forall (fun x => p x = true) ws -> p a = false ->
  drop_while p (ws ++ a :: r) = a :: r.
Proof.
  intros Hws Ha. induction Hws as [|x ws Hx _ IH]; simpl.
  - now rewrite Ha.
  - now rewrite Hx.
Qed.

Lemma month_match_token month mo :
  In month MONTHS ->
  matches true (compile (month +:+ "\s+20\d{2}")) (m_whole mo) [] (m_caps mo) ->
  is_month_token (lower (whole mo)) = true.
Proof.
  intros Hin H.
  pose proof (proj1 (List.Forall_forall _ _) compile_months month Hin) as (Hc & c1 & c2 & c3 & Hm & L1 & L2 & L3 & _).
  rewrite Hc in H. unfold month_regex in H. rewrite Hm in H.
  apply m_cat in H. destruct H as (w1 & r1 & k1 & E1 & Ha & H).
  apply m_set in Ha. destruct Ha as (a1 & -> & Ha1 & ->). apply (lit_ic_lower _ _ L1) in Ha1.
  apply m_cat in H. destruct H as (w2 & r2 & k2 & -> & Ha & H).
  apply m_set in Ha. destruct Ha as (a2 & -> & Ha2 & ->). apply (lit_ic_lower _ _ L2) in Ha2.
  apply m_cat in H. destruct H as (w3 & r3 & k3 & -> & Ha & H).
  apply m_set in Ha. destruct Ha as (a3 & -> & Ha3 & ->). apply (lit_ic_lower _ _ L3) in Ha3.
  apply m_cat in H. destruct H as (ws & yr & k4 & -> & Hws & Hy).
  apply m_rep_class in Hws. destruct Hws as (Hlen & _ & Hws & ->).
  apply year_body_shape in Hy. destruct Hy as (Hy & _).
  assert (Hsp : Forall (fun a => is_space a = true) ws).
  { eapply List.Forall_impl; [|exact Hws]. intros a. apply space_class_ok. }
  pose proof Hy as Hy'. apply is_year_chars_inv in Hy'.
  destruct Hy' as (d1 & d2 & -> & Hd1 & Hd2).
  unfold is_month_token. apply existsb_exists. exists month. split; [exact Hin|].
  unfold lower, whole. rewrite !chars_str, Hm, E1. simpl.
  rewrite Ha1, Ha2, Ha3, !Ascii.eqb_refl. simpl.
  rewrite map_app, (map_lower_spaces _ Hsp). simpl.
  rewrite (lower_digit _ Hd1), (lower_digit _ Hd2).
  change (lower_char "2") with "2"%char. change (lower_char "0") with "0"%char.
  rewrite skipn_O.
  rewrite drop_while_app; [|exact Hsp|reflexivity].
  rewrite length_app. simpl. rewrite Hd1, Hd2.
  destruct ws; simpl in *; [lia|].
  rewrite andb_true_r. apply Nat.ltb_lt. lia.
Qed.

(** ** [sorted(set(l))] keeps the elements *)

Section SortedSetFacts.
Context {A : Type} (cmp : A -> A -> comparison).
Hypothesis cmp_eq : forall x y, cmp x y = Eq -> x = y.

Lemma In_insert_uniq x y l : In x (insert_uniq cmp y l) <-> x = y \/ In x l.
Proof.
  induction l as [|z l IH]; simpl.
  - intuition.
  - destruct (cmp y z) eqn:E; simpl.
    + apply cmp_eq in E. subst. intuition.
    + intuition.
    + rewrite IH. intuition.
Qed.

Lemma In_sorted_set x l : In x (sorted_set cmp l) <-> In x l.
Proof.
  induction l as [|y l IH]; simpl; [reflexivity|].
  rewrite In_insert_uniq, IH. intuition.
Qed.
End SortedSetFacts.

Lemma string_compare_eq x y : String.compare x y = Eq -> x = y.
Proof. apply String.compare_eq_iff. Qed.

(** Every token [detect_periods] returns is one of the three kinds of
    section 4.1. *)
Lemma detect_periods_tokens text p :
  In p (detect_periods text) -> is_period_token p = true.
Proof.
  unfold detect_periods, sorted_strings. rewrite (In_sorted_set _ string_compare_eq).
  intros H. unfold is_period_token.
  apply in_app_or in H. destruct H as [H | H].
  - apply in_map_iff in H. destruct H as (mo & <- & Hmo).
    apply findall_sound in Hmo. now rewrite (year_match_shape _ Hmo).
  - apply in_app_or in H. destruct H as [H | H].
    + apply in_map_iff in H. destruct H as (mo & <- & Hmo).
      apply findall_sound in Hmo. rewrite (ym_match_shape _ Hmo).
      now rewrite orb_true_r.
    + apply in_flat_map in H. destruct H as (month & Hmonth & H).
      apply in_map_iff in H. destruct H as (mo & <- & Hmo).
      apply findall_sound in Hmo. rewrite (month_match_token _ _ Hmonth Hmo).
      now rewrite orb_true_r.
Qed.

(** ** How [detect_missing_months] reads each kind of token

    The digits are enumerated: there are 100 year tokens and 1200
    year-month tokens, and the code is run on each of them. *)

Lemma all_year_tokens_ok : forallb year_token_ok all_year_tokens = true.
Proof. vm_compute. reflexivity. Qed.

Lemma all_ym_tokens_ok : forallb ym_token_ok all_ym_tokens = true.
Proof. vm_compute. reflexivity. Qed.

Lemma year_token_In p : is_year_chars (chars p) = true -> In p all_year_tokens.
Proof.
  intros H. apply is_year_chars_inv in H. destruct H as (d1 & d2 & E & H1 & H2).
  rewrite <- (str_chars p), E.
  apply in_flat_map. exists d1. split; [now apply is_digit_In|].
  apply in_map_iff. exists d2. split; [reflexivity | now apply is_digit_In].
Qed.

Lemma month_pair_In m1 m2 :
  is_digit m1 = true -> is_digit m2 = true ->
  (1 <=? 10 * digit_val m1 + digit_val m2)%Z = true ->
  (10 * digit_val m1 + digit_val m2 <=? 12)%Z = true ->
  In (m1, m2) month_pairs.
Proof.
  intros H1 H2. each_digit H1; each_digit H2; vm_compute; intros; try discriminate;
    repeat (first [left; reflexivity | right]).
Qed.

Lemma token_year_month_inv p y m :
  token_year_month p = Some (y, m) ->
  exists d1 d2 m1 m2,
    chars p = ["2"; "0"; d1; d2; "-"; m1; m2]%char
    /\ is_digit d1 = true /\ is_digit d2 = true
    /\ is_digit m1 = true /\ is_digit m2 = true
    /\ (1 <=? 10 * digit_val m1 + digit_val m2)%Z = true
    /\ (10 * digit_val m1 + digit_val m2 <=? 12)%Z = true.
Proof.
  unfold token_year_month.
  destruct (chars p) as [|a0 [|a1 [|d1 [|d2 [|a4 [|m1 [|m2 [|? ?]]]]]]]];
    try discriminate.
  all: destruct a0 as [[] [] [] [] [] [] [] []]; try discriminate.
  all: destruct a1 as [[] [] [] [] [] [] [] []]; try discriminate.
  all: destruct a4 as [[] [] [] [] [] [] [] []]; try discriminate.
  destruct (is_digit d1) eqn:H1; [|discriminate].
  destruct (is_digit d2) eqn:H2; [|discriminate].
  destruct (is_digit m1) eqn:H3; [|discriminate].
  destruct (is_digit m2) eqn:H4; [|discriminate].
  simpl.
  destruct (1 <=? 10 * digit_val m1 + digit_val m2)%Z eqn:H5; [|discriminate].
  destruct (10 * digit_val m1 + digit_val m2 <=? 12)%Z eqn:H6; [|discriminate].
  intros _. exists d1, d2, m1, m2. repeat split; auto.
Qed.

Lemma ym_token_In p y m : token_year_month p = Some (y, m) -> In p all_ym_tokens.
Proof.
  intros H. apply token_year_month_inv in H.
  destruct H as (d1 & d2 & m1 & m2 & E & H1 & H2 & H3 & H4 & H5 & H6).
  rewrite <- (str_chars p), E.
  apply in_flat_map. exists d1. split; [now apply is_digit_In|].
  apply in_flat_map. exists d2. split; [now apply is_digit_In|].
  apply in_map_iff. exists (m1, m2). split; [reflexivity | now apply month_pair_In].
Qed.

Lemma prefixb_cons a p l :
  prefixb (a :: p) l = true -> exists l', l = a :: l' /\ prefixb p l' = true.
Proof.
  destruct l as [|b l]; simpl; [discriminate|].
  intros H. apply andb_true_iff in H. destruct H as [H1 H2].
  apply Ascii.eqb_eq in H1. subst. eauto.
Qed.

(** A token that does not start with [2] is not taken for a year-month. *)
Lemma not_ym_first a rest :
  a <> "2"%char -> match_here false (compile ym_pattern) (a :: rest) 0 = None.
Proof.
  intros Ha. rewrite compile_ym. unfold match_here. cbn [exec Lit].
  destruct (char_ok false false [CRange "2" "2"] a) eqn:E; [|reflexivity].
  apply lit_ok in E. contradiction.
Qed.

Lemma month_token_not_ym p :
  is_month_token p = true -> is_ym p = false /\ token_year_month p = None.
Proof.
  unfold is_month_token. intros H. apply existsb_exists in H.
  destruct H as (month & Hin & H).
  pose proof (proj1 (List.Forall_forall _ _) compile_months month Hin)
    as (_ & c1 & c2 & c3 & Hm & L1 & _ & _ & Hne).
  rewrite Hm in H.
  apply andb_true_iff in H. destruct H as [H _].
  apply andb_true_iff in H. destruct H as [H _].
  apply prefixb_cons in H. destruct H as (l' & E & _).
  split.
  - unfold is_ym, re_match. rewrite E. now rewrite not_ym_first.
  - unfold token_year_month. rewrite E.
    revert L1 Hne. clear. destruct c1 as [[] [] [] [] [] [] [] []]; intros L1 Hne;
      try reflexivity; discriminate.
Qed.

(** The filter of [detect_missing_months] keeps exactly the [YYYY-MM]
    tokens, and the two [int] conversions give their year and month. *)
Lemma token_reading p :
  is_period_token p = true ->
  is_ym p = is_Some_b (token_year_month p)
  /\ forall y m, token_year_month p = Some (y, m) ->
                 int (split_dash p 0) = Ok y /\ int (split_dash p 1) = Ok m.
Proof.
  intros H. destruct (token_year_month p) as [[y m]|] eqn:E.
  - pose proof (ym_token_In _ _ _ E) as Hin.
    pose proof (proj1 (forallb_forall _ _) all_ym_tokens_ok p Hin) as Hok.
    unfold ym_token_ok in Hok. rewrite E in Hok.
    apply andb_true_iff in Hok. destruct Hok as [Hym Hok].
    split; [exact Hym|]. intros y' m' [= <- <-].
    destruct (int (split_dash p 0)) as [y0|]; [|discriminate].
    destruct (int (split_dash p 1)) as [m0|]; [|discriminate].
    apply andb_true_iff in Hok. destruct Hok as [Hy Hm].
    apply Z.eqb_eq in Hy, Hm. now subst.
  - split; [|discriminate]. simpl.
    unfold is_period_token in H. rewrite E in H. simpl in H. rewrite orb_false_r in H.
    apply orb_true_iff in H. destruct H as [H | H].
    + apply year_token_In in H.
      pose proof (proj1 (forallb_forall _ _) all_year_tokens_ok p H) as Hok.
      unfold year_token_ok in Hok. apply andb_true_iff in Hok.
      destruct Hok as [Hok _]. now apply negb_true_iff in Hok.
    + now apply month_token_not_ym in H.
Qed.

Lemma filter_is_ym periods :
  Forall (fun p => is_period_token p = true) periods ->
  List.filter is_ym periods = List.filter (fun p => is_Some_b (token_year_month p)) periods
  /\ mapM (fun p => int (split_dash p 0)) (List.filter is_ym periods)
     = Ok (map fst (omap token_year_month periods))
  /\ mapM (fun p => int (split_dash p 1)) (List.filter is_ym periods)
     = Ok (map snd (omap token_year_month periods)).
Proof.
  induction 1 as [|p periods Hp _ IH]; simpl; [auto|].
  destruct IH as (IH0 & IH1 & IH2).
  apply token_reading in Hp. destruct Hp as [Hym Hint]. rewrite Hym.
  destruct (token_year_month p) as [[y m]|] eqn:E; simpl.
  - destruct (Hint y m eq_refl) as [Hy Hm].
    rewrite Hy, Hm. simpl. rewrite IH1, IH2. simpl. rewrite IH0. auto.
  - auto.
Qed.

(** On detected period tokens the code computes what the spec says. *)
Lemma detect_missing_months_spec periods :
  Forall (fun p => is_period_token p = true) periods ->
  detect_missing_months periods = Ok (spec_missing_months periods).
Proof.
  intros H. apply filter_is_ym in H. destruct H as (H0 & H1 & H2).
  unfold detect_missing_months, spec_missing_months.
  rewrite H1, H2. simpl.
  destruct (List.filter is_ym periods) eqn:E; [|reflexivity].
  simpl in H1. injection H1 as H1. now rewrite <- H1.
Qed.

Lemma detect_missing_months_total text :
  detect_missing_months (detect_periods text)
  = Ok (spec_missing_months (detect_periods text)).
Proof.
  apply detect_missing_months_spec. apply List.Forall_forall.
  intros p. apply detect_periods_tokens.
Qed.

End PeriodFacts.

(* ===================================================================== *)
(** * The quality gate *)
(* ===================================================================== *)

Module ScorerFacts.
Import Py Scorer.

(** The keyword check reports at most one issue. *)
Lemma missing_terms_at_most_one w paths :
  (List.length (_detect_missing_financial_terms w paths) <= 1)%nat.
Proof.
  unfold _detect_missing_financial_terms.
  destruct (negb (PDF_EXTRACTION_AVAILABLE w)); simpl; [lia|].
  match goal with |- context [if ?b then _ else _] => destruct b end; simpl; lia.
Qed.

Lemma nonempty_length {A} (l : list A) :
  SchemaValidator.nonempty l = false <-> l = [].
Proof. destruct l; simpl; split; congruence. Qed.

(** The fields of the full result, in terms of each other. *)
Lemma valid_fields w zip_path workdir :
  is_zipfile w zip_path = true ->
  let r := fst (score_zip w zip_path workdir) in
  exists paths,
    sparse_pdfs r = Some (_scan_for_sparse_content w paths)
    /\ missing_terms r = Some (_detect_missing_financial_terms w paths)
    /\ total_score r
       = Z.max 0 (100 - (Z.of_nat (List.length (missing_required r)) * 20
                         + Z.of_nat (List.length (folder_issues r)) * 10
                         + Z.of_nat (List.length (inconsistent_naming r)) * 5
                         + Z.of_nat (List.length (corrupt_pdfs r)) * 25
                         + Z.of_nat (List.length (_scan_for_sparse_content w paths)) * 10
                         + Z.of_nat (List.length (_detect_missing_financial_terms w paths)) * 10))%Z
    /\ status r
       = if (70 <=? total_score r)%Z
            && negb (SchemaValidator.nonempty (missing_required r))
            && negb (SchemaValidator.nonempty (corrupt_pdfs r))
         then GOOD else BAD.
Proof.
  intros Hzip. unfold score_zip. rewrite Hzip. simpl negb. cbv iota.
  destruct (given workdir); simpl; eexists; repeat split; reflexivity.
Qed.

End ScorerFacts.

(** C1. For a well-formed archive, [score_zip] returns
    total_score = max(0, 100 - (20*|missing_required| + 10*|folder_issues|
    + 5*|naming_issues| + 25*|corrupt_pdfs| + 10*|sparse_pdfs| + 10 when a
    missing-terms issue is present)), whatever the order of the summands;
    the score lies in [0, 100]; and the status is GOOD exactly when the
    score is at least 70 and both missing_required and corrupt_pdfs are
    empty, BAD otherwise. *)
Theorem C1_score_formula (w : Scorer.World) (zip_path : string) (workdir : option string) :
  Scorer.is_zipfile w zip_path = true ->
  let r := fst (Scorer.score_zip w zip_path workdir) in
  exists sparse terms_issue,
    Scorer.sparse_pdfs r = Some sparse
    /\ Scorer.missing_terms r = Some terms_issue
    /\ Scorer.total_score r
       = Z.max 0 (100 - (20 * Z.of_nat (List.length (Scorer.missing_required r))
                         + 10 * Z.of_nat (List.length (Scorer.folder_issues r))
                         + 5 * Z.of_nat (List.length (Scorer.inconsistent_naming r))
                         + 25 * Z.of_nat (List.length (Scorer.corrupt_pdfs r))
                         + 10 * Z.of_nat (List.length sparse)
                         + (if SchemaValidator.nonempty terms_issue then 10 else 0)))%Z
    /\ Scorer.total_score r
       = Z.max 0 (100 - ((if SchemaValidator.nonempty terms_issue then 10 else 0)
                         + 10 * Z.of_nat (List.length sparse)
                         + 25 * Z.of_nat (List.length (Scorer.corrupt_pdfs r))
                         + 5 * Z.of_nat (List.length (Scorer.inconsistent_naming r))
                         + 10 * Z.of_nat (List.length (Scorer.folder_issues r))
                         + 20 * Z.of_nat (List.length (Scorer.missing_required r))))%Z
    /\ (0 <= Scorer.total_score r <= 100)%Z
    /\ (Scorer.status r = Scorer.GOOD
        <-> (70 <= Scorer.total_score r)%Z
            /\ Scorer.missing_required r = []
            /\ Scorer.corrupt_pdfs r = [])
    /\ (Scorer.status r <> Scorer.GOOD -> Scorer.status r = Scorer.BAD).
Proof.
  intros Hzip r.
  destruct (ScorerFacts.valid_fields w zip_path workdir Hzip)
    as (paths & Hsparse & Hterms & Hscore & Hstatus).
  fold r in Hsparse, Hterms, Hscore, Hstatus.
  pose proof (ScorerFacts.missing_terms_at_most_one w paths) as Hone.
  exists (Scorer._scan_for_sparse_content w paths),
         (Scorer._detect_missing_financial_terms w paths).
  assert (Hissue :
            (Z.of_nat (List.length (Scorer._detect_missing_financial_terms w paths)) * 10
             = if SchemaValidator.nonempty (Scorer._detect_missing_financial_terms w paths)
               then 10 else 0)%Z).
  { destruct (Scorer._detect_missing_financial_terms w paths) as [|t [|? ?]];
      simpl in *; try reflexivity; lia. }
  rewrite Hissue in Hscore.
  split; [exact Hsparse|]. split; [exact Hterms|].
  split; [rewrite Hscore; f_equal; lia|].
  split; [rewrite Hscore; f_equal; lia|].
  split; [rewrite Hscore; destruct (SchemaValidator.nonempty _); lia|].
  rewrite Hstatus. split.
  - destruct (70 <=? Scorer.total_score r)%Z eqn:E1; simpl.
    + destruct (Scorer.missing_required r); simpl.
      * destruct (Scorer.corrupt_pdfs r); simpl.
        -- split; [intros _; apply Z.leb_le in E1; auto | reflexivity].
        -- split; [discriminate | intros (_ & _ & H); discriminate].
      * split; [discriminate | intros (_ & H & _); discriminate].
    + split; [discriminate|]. intros (H & _). apply Z.leb_le in H. congruence.
  - destruct (_ && _ && _); congruence.
Qed.

(** C1 at a package with the three required documents and enough
    content. *)
Lemma C1_score_formula_witness :
  Scorer.is_zipfile Scorer.good_world "pkg.zip" = true
  /\ Scorer.status (fst (Scorer.score_zip Scorer.good_world "pkg.zip" None)) = Scorer.GOOD.
Proof.
  split; [reflexivity|].
  destruct (C1_score_formula Scorer.good_world "pkg.zip" None eq_refl)
    as (sparse & terms_issue & _ & _ & _ & _ & _ & Hstatus & _).
  apply Hstatus. vm_compute. repeat split; discriminate.
Defined.

Module ArchiveFacts.
Import Py Archive.

Lemma extract_members_readable d zip_path scan_dir members :
  (forall member, In member members -> member_error d zip_path member = None) ->
  extract_members d zip_path scan_dir members
  = Returns (map (path_join scan_dir)
                 (List.filter (fun member => negb (endswith member "/")) members)).
Proof.
  induction members as [|member rest IH]; intros Hok; cbn [extract_members List.filter map].
  - reflexivity.
  - destruct (endswith member "/"); cbn [negb].
    + apply IH. intros m Hm. apply Hok. now right.
    + rewrite (Hok member (or_introl eq_refl)), IH; [reflexivity|].
      intros m Hm. apply Hok. now right.
Qed.

(** On a path [is_zipfile] rejects and on an archive that can be read,
    the scorer returns what [Scorer.score_zip] computes. *)
Lemma score_zip_returns d zip_path workdir :
  Scorer.is_zipfile (world d) zip_path = false \/ readable d zip_path ->
  score_zip d zip_path workdir
  = Returns (Scorer.score_zip (world d) zip_path workdir).
Proof.
  intros H. unfold score_zip, Scorer.score_zip.
  destruct (Scorer.is_zipfile (world d) zip_path) eqn:Hzip; cbn [negb].
  - destruct H as [H | [Hdir Hmem]]; [discriminate H|].
    unfold _extract_for_scan, ZipFile. rewrite Hdir. cbn [bind].
    rewrite (extract_members_readable _ _ _ _ Hmem). cbn [bind].
    unfold Scorer._extract_for_scan.
    destruct (Scorer.given workdir); reflexivity.
  - reflexivity.
Qed.

(** An archive whose central directory cannot be read. *)
Lemma score_zip_raises d zip_path workdir e :
  Scorer.is_zipfile (world d) zip_path = true ->
  directory_error d zip_path = Some e ->
  score_zip d zip_path workdir = Raises e.
Proof.
  intros Hzip Hdir. unfold score_zip, ZipFile. rewrite Hzip, Hdir. reflexivity.
Qed.

End ArchiveFacts.




(* ===================================================================== *)
(** * The companion of the period detector *)
(* ===================================================================== *)

Module MissingMonthsFacts.
Import Py PeriodDetector.

Lemma In_omap {A B} (f : A -> option B) (l : list A) (y : B) :
  In y (omap f l) <-> exists x, In x l /\ f x = Some y.
Proof.
  induction l as [|a l IH]; simpl.
  - split; [contradiction | intros (x & [] & _)].
  - destruct (f a) as [b|] eqn:E; simpl; rewrite IH; split.
    + intros [<- | (x & Hx & Hf)]; eauto.
    + intros (x & [<- | Hx] & Hf); [left; congruence | eauto].
    + intros (x & Hx & Hf); eauto.
    + intros (x & [<- | Hx] & Hf); [congruence | eauto].
Qed.

Lemma In_months_1_12 m : In m months_1_12 <-> (1 <= m <= 12)%Z.
Proof. unfold months_1_12. simpl. lia. Qed.

(** The months reported for a year are those that no [YYYY-MM] token of
    any year shows. *)
Lemma spec_missing_months_In periods s :
  In s (spec_missing_months periods) <->
  exists y m,
    s = str_of_Z y +:+ "-" +:+ fmt_02d m
    /\ (exists p m0, In p periods /\ token_year_month p = Some (y, m0))
    /\ (1 <= m <= 12)%Z
    /\ (forall p y0, In p periods -> token_year_month p <> Some (y0, m)).
Proof.
  unfold spec_missing_months. rewrite in_flat_map. split.
  - intros (y & Hy & H).
    rewrite (PeriodFacts.In_sorted_set Z.compare) in Hy
      by (intros a b; apply Z.compare_eq_iff).
    apply in_map_iff in Hy. destruct Hy as ([y' m0] & <- & Hy).
    apply In_omap in Hy. destruct Hy as (p & Hp & Htok).
    apply in_flat_map in H. destruct H as (m & Hm & H).
    apply In_months_1_12 in Hm.
    destruct (existsb (Z.eqb m) _) eqn:E; [contradiction|].
    destruct H as [<- | []].
    exists y', m. split; [reflexivity|]. split; [eauto|]. split; [exact Hm|].
    intros q y0 Hq Hq'.
    assert (existsb (Z.eqb m) (map snd (omap token_year_month periods)) = true);
      [|congruence].
    apply existsb_exists. exists m. split; [|apply Z.eqb_refl].
    apply in_map_iff. exists (y0, m). split; [reflexivity|].
    apply In_omap. eauto.
  - intros (y & m & -> & (p & m0 & Hp & Htok) & Hm & Hnone).
    exists y. split.
    + rewrite (PeriodFacts.In_sorted_set Z.compare)
        by (intros a b; apply Z.compare_eq_iff).
      apply in_map_iff. exists (y, m0). split; [reflexivity|].
      apply In_omap. eauto.
    + apply in_flat_map. exists m. split; [now apply In_months_1_12|].
      destruct (existsb (Z.eqb m) _) eqn:E; [|now left].
      apply existsb_exists in E. destruct E as (m' & Hm' & E).
      apply Z.eqb_eq in E. subst m'.
      apply in_map_iff in Hm'. destruct Hm' as ([y0 m1] & E & Hin). simpl in E. subst m1.
      apply In_omap in Hin. destruct Hin as (q & Hq & Hq').
      exfalso. exact (Hnone q y0 Hq Hq').
Qed.

End MissingMonthsFacts.

(** C8. On a list of detected period tokens, [detect_missing_months]
    keeps the YYYY-MM tokens, takes the distinct years they cover, and
    returns every YYYY-MM combination of those years whose month is in
    none of the tokens, whatever their year: a month seen in one year is
    never reported missing for another. For 2023-01 and 2023-03 (with or
    without the bare year) it reports the ten other months of 2023. *)
Theorem C8_detect_missing_months (periods : list string) :
  Forall (fun p => PeriodDetector.is_period_token p = true) periods ->
  PeriodDetector.detect_missing_months periods
  = Py.Ok (PeriodDetector.spec_missing_months periods)
  /\ (forall s,
        In s (PeriodDetector.spec_missing_months periods) <->
        exists y m,
          s = Py.str_of_Z y +:+ "-" +:+ Py.fmt_02d m
          /\ (exists p m0, In p periods
                           /\ PeriodDetector.token_year_month p = Some (y, m0))
          /\ (1 <= m <= 12)%Z
          /\ (forall p y0, In p periods
                           -> PeriodDetector.token_year_month p <> Some (y0, m)))
  /\ PeriodDetector.detect_missing_months ["2023-01"; "2023-03"]
     = Py.Ok ["2023-02"; "2023-04"; "2023-05"; "2023-06"; "2023-07";
              "2023-08"; "2023-09"; "2023-10"; "2023-11"; "2023-12"]
  /\ PeriodDetector.detect_missing_months
       (PeriodDetector.sorted_strings
          (PeriodDetector.detect_periods "Q1 2023-01 report"
           ++ PeriodDetector.detect_periods "2023-03"))
     = Py.Ok ["2023-02"; "2023-04"; "2023-05"; "2023-06"; "2023-07";
              "2023-08"; "2023-09"; "2023-10"; "2023-11"; "2023-12"].
Proof.
  intros H. split; [now apply PeriodFacts.detect_missing_months_spec|].
  split; [apply MissingMonthsFacts.spec_missing_months_In|].
  split; vm_compute; reflexivity.
Qed.

(** C8 at tokens of two years: March is seen in 2024 only, and is not
    reported missing for 2023. *)
Lemma C8_detect_missing_months_witness :
  Forall (fun p => PeriodDetector.is_period_token p = true)
         ["2023"; "2023-01"; "2024-03"; "mar 2024"]
  /\ PeriodDetector.detect_missing_months ["2023"; "2023-01"; "2024-03"; "mar 2024"]
     = Py.Ok (PeriodDetector.spec_missing_months
                ["2023"; "2023-01"; "2024-03"; "mar 2024"])
  /\ ~ In "2023-03" (PeriodDetector.spec_missing_months
                       ["2023"; "2023-01"; "2024-03"; "mar 2024"]).
Proof.
  assert (Htok : Forall (fun p => PeriodDetector.is_period_token p = true)
                        ["2023"; "2023-01"; "2024-03"; "mar 2024"]).
  { repeat (apply List.Forall_cons; [vm_compute; reflexivity|]). apply List.Forall_nil. }
  split; [exact Htok|].
  split; [exact (proj1 (C8_detect_missing_months _ Htok))|].
  vm_compute. intuition discriminate.
Defined.

(* ===================================================================== *)
(** * The cross-document validator *)
(* ===================================================================== *)

Module ValidatorFacts.
Import Py PeriodDetector SchemaValidator.

(** ** [int] on digit strings *)

Lemma digits_us_digits l b :
  forallb is_digit l = true -> l <> [] \/ b = true -> digits_us l b = Some l.
Proof.
  revert b. induction l as [|a l IH]; intros b Hd Hne; simpl in *.
  - destruct Hne as [Hne | ->]; [congruence | reflexivity].
  - apply andb_true_iff in Hd. destruct Hd as [Ha Hl].
    rewrite Ha. rewrite IH; auto.
Qed.

Lemma digit_not_sign a l :
  is_digit a = true -> split_sign (a :: l) = (false, a :: l).
Proof. destruct a as [[] [] [] [] [] [] [] []]; vm_compute; intros; try discriminate; reflexivity. Qed.

Lemma strip_digits l :
  forallb is_digit l = true -> strip_with is_space l = l.
Proof.
  intros H. unfold strip_with.
  assert (Hd : forall l', forallb is_digit l' = true -> drop_while is_space l' = l').
  { intros [|a l'] Hl; simpl in *; [reflexivity|].
    apply andb_true_iff in Hl. destruct Hl as [Ha _].
    now rewrite (PeriodFacts.digit_not_space _ Ha). }
  rewrite (Hd l H). rewrite Hd; [apply rev_involutive|].
  rewrite forallb_forall in *. intros a Ha. apply H. now apply in_rev.
Qed.

Lemma int_digits s : isdigit s = true -> exists z, int s = Ok z.
Proof.
  unfold isdigit, int. destruct (chars s) as [|a l] eqn:E; [discriminate|].
  intros H. rewrite (strip_digits _ H).
  pose proof H as H'. simpl in H'. apply andb_true_iff in H'. destruct H' as [Ha _].
  rewrite (digit_not_sign _ _ Ha).
  rewrite (digits_us_digits _ false H) by (left; discriminate). eauto.
Qed.

Lemma period_years_ok all_periods :
  exists ys,
    period_years all_periods = Ok ys
    /\ forall y, In y ys <-> exists p, In p all_periods /\ year_of_period p = Some y.
Proof.
  unfold period_years. induction all_periods as [|p l IH]; cbn [List.filter].
  - exists []. split; [reflexivity|]. intros y. split; [contradiction | intros (p & [] & _)].
  - destruct IH as (ys & Hys & Hin).
    destruct ((4 <=? String.length p)%nat && isdigit (take 4 p)) eqn:E.
    + apply andb_true_iff in E. destruct E as [E1 E2].
      destruct (int_digits _ E2) as (z & Hz). cbn [mapM]. rewrite Hz. cbn [bind].
      rewrite Hys. cbn [bind].
      exists (z :: ys). split; [reflexivity|]. intros y. simpl. rewrite Hin. split.
      * intros [<- | (q & Hq & Hy)].
        -- exists p. split; [now left|]. unfold year_of_period. now rewrite E1, E2, Hz.
        -- exists q. split; [now right | exact Hy].
      * intros (q & [<- | Hq] & Hy).
        -- left. unfold year_of_period in Hy. rewrite E1, E2, Hz in Hy. simpl in Hy. congruence.
        -- right. eauto.
    + exists ys. split; [exact Hys|]. intros y. rewrite Hin. split.
      * intros (q & Hq & Hy). exists q. split; [now right | exact Hy].
      * intros (q & [<- | Hq] & Hy); [|eauto].
        unfold year_of_period in Hy. rewrite E in Hy. discriminate.
Qed.

(** ** [sorted(set(...))] on integers *)

Lemma Z_compare_eq x y : Z.compare x y = Eq -> x = y.
Proof. apply Z.compare_eq_iff. Qed.

Lemma insert_uniq_sorted x l :
  StronglySorted Z.lt l -> StronglySorted Z.lt (insert_uniq Z.compare x l).
Proof.
  induction 1 as [|y l Hs IH Hy]; simpl.
  - repeat constructor.
  - destruct (Z.compare_spec x y) as [-> | Hlt | Hgt].
    + now constructor.
    + constructor; [now constructor|]. constructor; [exact Hlt|].
      eapply List.Forall_impl; [|exact Hy]. intros z Hz. lia.
    + constructor; [exact IH|]. apply List.Forall_forall. intros z Hz.
      apply (PeriodFacts.In_insert_uniq _ Z_compare_eq) in Hz.
      destruct Hz as [-> | Hz]; [exact Hgt|].
      now apply (proj1 (List.Forall_forall _ _) Hy).
Qed.

Lemma sorted_set_sorted l : StronglySorted Z.lt (sorted_set Z.compare l).
Proof.
  induction l as [|x l IH]; simpl; [constructor | now apply insert_uniq_sorted].
Qed.

(** In a strictly increasing list the adjacent pairs are the consecutive
    elements. *)
Lemma adjacent_consecutive l y1 y2 :
  StronglySorted Z.lt l -> (In (y1, y2) (adjacent l) <-> consecutive l y1 y2).
Proof.
  induction 1 as [|x l Hs IH Hx].
  - unfold consecutive. simpl. tauto.
  - pose proof (proj1 (List.Forall_forall _ _) Hx) as Hx'.
    destruct l as [|y l'].
    + unfold consecutive. simpl. split; [contradiction|].
      intros ([<- | []] & [<- | []] & Hlt & _). lia.
    + change (adjacent (x :: y :: l')) with ((x, y) :: adjacent (y :: l')).
      inversion Hs as [|? ? Hs' Hy]; subst.
      pose proof (proj1 (List.Forall_forall _ _) Hy) as Hy'.
      split.
      * intros [E | H].
        -- injection E as <- <-. unfold consecutive.
           split; [now left|]. split; [right; now left|].
           split; [apply Hx'; now left|].
           intros z [<- | [<- | Hz]]; [lia | lia |]. specialize (Hy' z Hz). lia.
        -- apply IH in H. destruct H as (H1 & H2 & Hlt & Hno).
           unfold consecutive. split; [now right|]. split; [now right|].
           split; [exact Hlt|]. intros z [<- | Hz]; [|now apply Hno].
           specialize (Hx' y1 H1). lia.
      * intros (H1 & H2 & Hlt & Hno). destruct H1 as [<- | H1].
        -- left. destruct H2 as [<- | [<- | H2]]; [lia | reflexivity |].
           exfalso. apply (Hno y); [right; now left|].
           split; [apply Hx'; now left | now apply Hy'].
        -- right. apply IH. unfold consecutive. split; [exact H1|].
           destruct H2 as [<- | H2]; [specialize (Hx' y1 H1); lia|].
           split; [exact H2|]. split; [exact Hlt|].
           intros z Hz. apply Hno. now right.
Qed.

Lemma find_breaks_nil years :
  find_breaks years = []
  <-> forall y1 y2, In (y1, y2) (adjacent years) -> (y2 - y1 <= 1)%Z.
Proof.
  unfold find_breaks. induction (adjacent years) as [|[a b] l IH]; simpl.
  - split; [intros _ ? ? [] | reflexivity].
  - destruct (1 <? b - a)%Z eqn:E; simpl.
    + split; [discriminate|]. intros H. specialize (H a b (or_introl eq_refl)).
      apply Z.ltb_lt in E. lia.
    + rewrite IH. apply Z.ltb_ge in E. split.
      * intros H y1 y2 [[= <- <-] | Hin]; [exact E | now apply H].
      * intros H y1 y2 Hin. apply H. now right.
Qed.

(** ** The loop over the documents *)

Lemma validate_one_ok cm st item :
  loop_inv st ->
  exists st', validate_one cm st item = Ok st' /\ loop_inv st'.
Proof.
  intros [Hnum Hper]. destruct item as [path text]. unfold validate_one.
  rewrite PeriodFacts.detect_missing_months_total. cbn [bind].
  destruct (flag_list _ r_missing_fields _) as [l1 h1].
  destruct (flag_list _ r_suspicious_values _) as [l2 h2].
  destruct (flag_list _ r_format_errors _) as [l3 h3].
  eexists. split; [reflexivity|]. split; simpl.
  - apply Forall_app. split; [exact Hnum|]. constructor; [reflexivity | constructor].
  - rewrite Hper, flat_map_app. simpl. now rewrite app_nil_r.
Qed.

Lemma validate_loop_ok cm items st :
  loop_inv st ->
  exists st', validate_loop cm items st = Ok st' /\ loop_inv st'.
Proof.
  revert st. induction items as [|item items IH]; intros st Hinv; simpl.
  - eauto.
  - destruct (validate_one_ok cm st item Hinv) as (st1 & H1 & Hinv1).
    rewrite H1. simpl. now apply IH.
Qed.

Lemma validate_loop_details cm items st st' :
  validate_loop cm items st = Ok st' ->
  exists ds, st'.(st_details) = st.(st_details) ++ ds /\ Forall2 detail_of ds items.
Proof.
  revert st. induction items as [|item items IH]; intros st H; simpl in H.
  - injection H as <-. exists []. rewrite app_nil_r. split; [reflexivity | constructor].
  - destruct (validate_one cm st item) as [st1|] eqn:E; [|discriminate]. simpl in H.
    apply IH in H. destruct H as (ds & Hds & Hrel).
    destruct item as [path text]. unfold validate_one in E.
    rewrite PeriodFacts.detect_missing_months_total in E. cbn [bind] in E.
    destruct (flag_list _ r_missing_fields _) as [l1 h1].
    destruct (flag_list _ r_suspicious_values _) as [l2 h2].
    destruct (flag_list _ r_format_errors _) as [l3 h3].
    injection E as <-. simpl in Hds. rewrite <- app_assoc in Hds. simpl in Hds.
    eexists. split; [exact Hds|]. constructor; [|exact Hrel].
    repeat split.
Qed.

Lemma filter_length_0 {A} (f : A -> bool) (l : list A) :
  List.length (List.filter f l) = 0%nat <-> forall x, In x l -> f x = false.
Proof.
  induction l as [|a l IH]; simpl.
  - split; [intros _ ? [] | reflexivity].
  - destruct (f a) eqn:E; simpl.
    + split; [discriminate|]. intros H. specialize (H a (or_introl eq_refl)). congruence.
    + rewrite IH. split.
      * intros H x [<- | Hx]; auto.
      * intros H x Hx. apply H. now right.
Qed.

Lemma spec_fails_false h d :
  spec_fails_completeness h d = false
  <-> deref h d.(d_missing_fields) = []
      /\ deref h d.(d_format_errors) = []
      /\ (5 < d.(d_numeric_values_found))%nat.
Proof.
  unfold spec_fails_completeness.
  rewrite !orb_false_iff, !ScorerFacts.nonempty_length, Nat.leb_gt. tauto.
Qed.

Lemma filter_length_pos {A} (f : A -> bool) (l : list A) :
  List.length (List.filter f l) <> 0%nat <-> exists x, In x l /\ f x = true.
Proof.
  induction l as [|a l IH]; simpl.
  - split; [congruence | intros (x & [] & _)].
  - destruct (f a) eqn:E; simpl.
    + split; [eauto | discriminate].
    + rewrite IH. split.
      * intros (x & Hx & Hf). eauto.
      * intros (x & [<- | Hx] & Hf); [congruence | eauto].
Qed.

Lemma spec_fails_true h d :
  spec_fails_completeness h d = true
  <-> deref h d.(d_missing_fields) <> []
      \/ deref h d.(d_format_errors) <> []
      \/ (d.(d_numeric_values_found) <= 5)%nat.
Proof.
  unfold spec_fails_completeness. rewrite !orb_true_iff, Nat.leb_le.
  assert (Hne : forall l : list string, nonempty l = true <-> l <> []).
  { intros [|? ?]; simpl; split; congruence. }
  rewrite !Hne. tauto.
Qed.

Lemma find_breaks_not_nil years :
  find_breaks years <> []
  <-> exists y1 y2, In (y1, y2) (adjacent years) /\ (1 < y2 - y1)%Z.
Proof.
  unfold find_breaks. induction (adjacent years) as [|[a b] l IH]; simpl.
  - split; [congruence | intros (? & ? & [] & _)].
  - destruct (1 <? b - a)%Z eqn:E; simpl.
    + split; [|discriminate]. intros _. exists a, b. apply Z.ltb_lt in E. auto.
    + rewrite IH. apply Z.ltb_ge in E. split.
      * intros (y1 & y2 & Hin & Hgap). eauto.
      * intros (y1 & y2 & [[= <- <-] | Hin] & Hgap); [lia | eauto].
Qed.

End ValidatorFacts.

(** C2. [validate_documents] returns a report for every mapping of texts
    and every classification report. Its details are those of the
    documents, in order; a detail is a completeness failure when, in the
    report, it has a missing field, a format error, or at most 5 numeric
    values; the detected years are those the period tokens start with; a
    continuity break is reported exactly when two consecutive distinct
    detected years differ by more than 1; and passes is true exactly when
    there is no completeness failure and no continuity break, false
    otherwise. *)
Theorem C2_validation_passes
        (pdf_texts : list (string * string))
        (classification : option (list SchemaValidator.DocRef))
        (h : SchemaValidator.heap) :
  exists report h',
    SchemaValidator.validate_documents pdf_texts classification h = Py.Ok (report, h')
    /\ let s := SchemaValidator.summary report in
       let ds := SchemaValidator.details report in
       Forall2 SchemaValidator.detail_of ds pdf_texts
       /\ SchemaValidator.completeness_failures s
          = List.length (List.filter (SchemaValidator.spec_fails_completeness h') ds)
       /\ (forall y,
             In y (SchemaValidator.years_detected s)
             <-> exists d p, In d ds /\ In p (SchemaValidator.d_periods d)
                             /\ SchemaValidator.year_of_period p = Some y)
       /\ (SchemaValidator.continuity_breaks s = []
           <-> forall y1 y2,
                 SchemaValidator.consecutive (SchemaValidator.years_detected s) y1 y2
                 -> (y2 - y1 <= 1)%Z)
       /\ (SchemaValidator.passes s = true
           <-> SchemaValidator.completeness_failures s = 0%nat
               /\ SchemaValidator.continuity_breaks s = [])
       /\ (SchemaValidator.passes s = true
           <-> (forall d, In d ds ->
                   SchemaValidator.deref h' (SchemaValidator.d_missing_fields d) = []
                   /\ SchemaValidator.deref h' (SchemaValidator.d_format_errors d) = []
                   /\ (5 < SchemaValidator.d_numeric_values_found d)%nat)
               /\ (forall y1 y2,
                     SchemaValidator.consecutive (SchemaValidator.years_detected s) y1 y2
                     -> (y2 - y1 <= 1)%Z))
       /\ (SchemaValidator.passes s = false
           <-> (exists d, In d ds
                   /\ (SchemaValidator.deref h' (SchemaValidator.d_missing_fields d) <> []
                       \/ SchemaValidator.deref h' (SchemaValidator.d_format_errors d) <> []
                       \/ (SchemaValidator.d_numeric_values_found d <= 5)%nat))
               \/ (exists y1 y2,
                     SchemaValidator.consecutive (SchemaValidator.years_detected s) y1 y2
                     /\ (1 < y2 - y1)%Z)).
Proof.
  set (st0 := {| SchemaValidator.st_details := [];
                 SchemaValidator.st_all_periods := [];
                 SchemaValidator.st_missing_months_global := [];
                 SchemaValidator.st_heap := h |}).
  destruct (ValidatorFacts.validate_loop_ok
              (SchemaValidator.build_classification_map classification) pdf_texts st0)
    as (st & Hloop & Hnum & Hper).
  { split; [constructor | reflexivity]. }
  destruct (ValidatorFacts.validate_loop_details _ _ _ _ Hloop) as (ds & Hds & Hrel).
  simpl in Hds. subst ds.
  destruct (ValidatorFacts.period_years_ok (SchemaValidator.st_all_periods st))
    as (ys & Hys & Hyin).
  eexists _, _. split.
  { unfold SchemaValidator.validate_documents. fold st0. rewrite Hloop. cbn [Py.bind].
    rewrite Hys. cbn [Py.bind]. reflexivity. }
  cbn [SchemaValidator.summary SchemaValidator.details
       SchemaValidator.completeness_failures SchemaValidator.years_detected
       SchemaValidator.continuity_breaks SchemaValidator.passes].
  set (years := Py.sorted_set Z.compare ys).
  set (details := SchemaValidator.st_details st) in *.
  set (h' := SchemaValidator.st_heap st).
  assert (Hfilter :
            List.filter (SchemaValidator.fails_completeness h') details
            = List.filter (SchemaValidator.spec_fails_completeness h') details).
  { apply filter_ext_in. intros d Hd.
    pose proof (proj1 (List.Forall_forall _ _) Hnum d Hd) as Hp.
    unfold SchemaValidator.fails_completeness, SchemaValidator.spec_fails_completeness.
    rewrite Hp. f_equal.
    destruct (Nat.ltb_spec 5 (SchemaValidator.d_numeric_values_found d));
      destruct (Nat.leb_spec (SchemaValidator.d_numeric_values_found d) 5);
      simpl; try reflexivity; lia. }
  assert (Hsorted : StronglySorted Z.lt years) by apply ValidatorFacts.sorted_set_sorted.
  assert (Hgaps :
            SchemaValidator.find_breaks years = []
            <-> forall y1 y2, SchemaValidator.consecutive years y1 y2 -> (y2 - y1 <= 1)%Z).
  { rewrite ValidatorFacts.find_breaks_nil. split; intros H y1 y2 Hc; apply H;
      now apply (ValidatorFacts.adjacent_consecutive _ _ _ Hsorted). }
  assert (Hpass :
            negb (SchemaValidator.nonempty (SchemaValidator.find_breaks years))
            && (List.length (List.filter (SchemaValidator.fails_completeness h') details) =? 0)%nat
            = true
            <-> List.length (List.filter (SchemaValidator.fails_completeness h') details) = 0%nat
                /\ SchemaValidator.find_breaks years = []).
  { rewrite andb_true_iff, negb_true_iff, ScorerFacts.nonempty_length, Nat.eqb_eq. tauto. }
  split; [exact Hrel|].
  split; [now rewrite Hfilter|].
  split.
  { intros y. unfold years.
    rewrite (PeriodFacts.In_sorted_set _ ValidatorFacts.Z_compare_eq), Hyin, Hper.
    split.
    - intros (p & Hp & Hy). apply in_flat_map in Hp. destruct Hp as (d & Hd & Hp). eauto.
    - intros (d & p & Hd & Hp & Hy). exists p. split; [|exact Hy].
      apply in_flat_map. eauto. }
  split; [exact Hgaps|].
  split; [exact Hpass|].
  split.
  { rewrite Hpass, Hgaps, Hfilter, ValidatorFacts.filter_length_0.
    split; intros [H1 H2]; (split; [|exact H2]); intros d Hd;
      apply ValidatorFacts.spec_fails_false; auto. }
  rewrite <- not_true_iff_false, Hpass, Hfilter.
  split.
  - intros Hno.
    destruct (Nat.eq_dec
                (List.length (List.filter (SchemaValidator.spec_fails_completeness h') details)) 0)
      as [E | E].
    + right.
      destruct (SchemaValidator.find_breaks years) eqn:Eb; [tauto|].
      assert (Hb : SchemaValidator.find_breaks years <> []) by (rewrite Eb; discriminate).
      apply ValidatorFacts.find_breaks_not_nil in Hb.
      destruct Hb as (y1 & y2 & Hin & Hgap). exists y1, y2. split; [|exact Hgap].
      now apply (ValidatorFacts.adjacent_consecutive _ _ _ Hsorted).
    + left. apply ValidatorFacts.filter_length_pos in E.
      destruct E as (d & Hd & Hf). exists d. split; [exact Hd|].
      now apply ValidatorFacts.spec_fails_true.
  - intros [(d & Hd & Hf) | (y1 & y2 & Hc & Hgap)] [H1 H2].
    + apply ValidatorFacts.spec_fails_true in Hf.
      rewrite ValidatorFacts.filter_length_0 in H1. specialize (H1 d Hd). congruence.
    + pose proof (proj1 Hgaps H2 y1 y2 Hc). lia.
Qed.

(* ===================================================================== *)
(** * The classifier *)
(* ===================================================================== *)

Module ClassifyFacts.
Import Py Classify.

Lemma Qltb_lt a b : Qltb a b = true <-> (a < b)%Q.
Proof.
  unfold Qltb. rewrite negb_true_iff, <- not_true_iff_false, Qle_bool_iff.
  split; [apply Qnot_le_lt | apply Qlt_not_le].
Qed.

Lemma Qltb_ge a b : Qltb a b = false <-> (b <= a)%Q.
Proof.
  unfold Qltb. rewrite negb_false_iff. apply Qle_bool_iff.
Qed.

Lemma score_hits_count patterns text filename :
  fst (score_hits patterns text filename) = hit_count patterns text filename.
Proof.
  unfold hit_count. induction patterns as [|p ps IH]; simpl; [reflexivity|].
  destruct (score_hits ps text filename) as [hits reasons]. simpl in *.
  destruct (Re.found (Re.search p true filename)),
           (Re.found (Re.search p true text)); simpl; lia.
Qed.

(** [_score_label] gives 0.25 per independent hit, capped at 1.0. *)
Lemma score_label_spec patterns text filename :
  fst (_score_label patterns text filename)
  = spec_score (hit_count patterns text filename).
Proof.
  unfold _score_label. rewrite <- score_hits_count.
  now destruct (score_hits patterns text filename).
Qed.

(** The five values a score can take. *)
Lemma spec_score_cases hits :
  (hits = 0%nat /\ spec_score hits = (0 # 4)%Q)
  \/ (hits = 1%nat /\ spec_score hits = (1 # 4)%Q)
  \/ (hits = 2%nat /\ spec_score hits = (2 # 4)%Q)
  \/ (hits = 3%nat /\ spec_score hits = (3 # 4)%Q)
  \/ ((4 <= hits)%nat /\ spec_score hits = 1%Q).
Proof.
  destruct hits as [|[|[|[|k]]]]; [auto | auto | auto 6 | auto 6 |].
  do 4 right. split; [lia|].
  unfold spec_score, Qmin, GenericMinMax.gmin.
  destruct (Qcompare 1 _) eqn:E; try reflexivity.
  apply Qgt_alt in E. exfalso. revert E. unfold Qlt. simpl. lia.
Qed.

Lemma spec_score_bounds hits : (0 <= spec_score hits <= 1)%Q.
Proof.
  destruct (spec_score_cases hits) as [[_ ->] | [[_ ->] | [[_ ->] | [[_ ->] | [_ ->]]]]];
    split; unfold Qle; simpl; lia.
Qed.

Lemma spec_score_mono h1 h2 : (h1 <= h2)%nat -> (spec_score h1 <= spec_score h2)%Q.
Proof.
  intros H.
  destruct (spec_score_cases h1) as [[E1 ->] | [[E1 ->] | [[E1 ->] | [[E1 ->] | [E1 ->]]]]];
    destruct (spec_score_cases h2) as [[E2 ->] | [[E2 ->] | [[E2 ->] | [[E2 ->] | [E2 ->]]]]];
    try lia; unfold Qle; simpl; lia.
Qed.

(** On a score, multiplying by 100 and rounding to one decimal is exact. *)
Lemma round1_score hits :
  (round1 (spec_score hits * 100) == spec_score hits * 100)%Q.
Proof.
  destruct (spec_score_cases hits) as [[_ ->] | [[_ ->] | [[_ ->] | [[_ ->] | [_ ->]]]]];
    reflexivity.
Qed.

(** ** The selection loop *)

Lemma best_step_cases text filename st entry :
  (Qltb (conf_of st) (entry_score text filename entry) = true
   /\ label_of (best_step text filename st entry) = fst entry
   /\ conf_of (best_step text filename st entry) = entry_score text filename entry)
  \/ (Qltb (conf_of st) (entry_score text filename entry) = false
      /\ best_step text filename st entry = st).
Proof.
  destruct st as [[l c] rs], entry as [label patterns].
  unfold best_step, entry_score, conf_of, label_of. simpl.
  pose proof (score_label_spec patterns text filename) as Hs.
  destruct (_score_label patterns text filename) as [conf expl]. simpl in Hs. subst conf.
  destruct (Qltb c _) eqn:E; auto.
Qed.

Lemma fold_best_spec text filename entries st :
  let st' := fold_left (best_step text filename) entries st in
  (st' = st /\ forall e, In e entries -> (entry_score text filename e <= conf_of st)%Q)
  \/ (exists before e after,
        entries = before ++ e :: after
        /\ label_of st' = fst e
        /\ conf_of st' = entry_score text filename e
        /\ (conf_of st < conf_of st')%Q
        /\ (forall x, In x before -> (entry_score text filename x < conf_of st')%Q)
        /\ (forall x, In x after -> (entry_score text filename x <= conf_of st')%Q)).
Proof.
  revert st. induction entries as [|e entries IH]; intros st; simpl.
  - left. split; [reflexivity | contradiction].
  - destruct (best_step_cases text filename st e) as [(Hlt & Hl & Hc) | (Hge & Hst)].
    + apply Qltb_lt in Hlt. right.
      destruct (IH (best_step text filename st e))
        as [(Heq & Hall) | (before & e' & after & -> & Hl' & Hc' & Hlt' & Hb & Ha)].
      * exists [], e, entries. rewrite Heq. rewrite Hc in *.
        repeat split; auto. contradiction.
      * exists (e :: before), e', after. rewrite Hc in Hlt'.
        split; [reflexivity|]. split; [exact Hl'|]. split; [exact Hc'|].
        split; [eapply Qlt_trans; eauto|].
        split; [|exact Ha]. intros x [<- | Hx]; auto.
    + apply Qltb_ge in Hge. rewrite Hst.
      destruct (IH st)
        as [(Heq & Hall) | (before & e' & after & -> & Hl' & Hc' & Hlt' & Hb & Ha)].
      * left. split; [exact Heq|]. intros x [<- | Hx]; auto.
      * right. exists (e :: before), e', after.
        repeat split; auto. intros x [<- | Hx]; auto.
        eapply Qle_lt_trans; eauto.
Qed.

(** The loop of [classify_document] selects as the spec says. *)
Lemma best_match_selected path text :
  selected (archetype_scores path text)
           (label_of (best_match path text)) (conf_of (best_match path text)).
Proof.
  unfold best_match, archetype_scores.
  set (filename := path_name path).
  destruct (fold_best_spec text filename LABEL_PATTERNS ("unknown", 0%Q, ["No patterns matched"]))
    as [(Heq & Hall) | (before & e & after & Htab & Hl & Hc & Hlt & Hb & Ha)].
  - left. rewrite Heq. split; [reflexivity|]. split; [reflexivity|].
    intros x Hx. apply in_map_iff in Hx. destruct Hx as (entry & <- & Hin).
    apply (Hall entry Hin).
  - right. exists (map (fun entry => (fst entry, entry_score text filename entry)) before),
                  (map (fun entry => (fst entry, entry_score text filename entry)) after).
    rewrite Hl, Hc, Htab, map_app. simpl.
    split; [reflexivity|]. split; [rewrite <- Hc; exact Hlt|].
    split; intros x Hx; apply in_map_iff in Hx; destruct Hx as (entry & <- & Hin);
      simpl; rewrite <- Hc; auto.
Qed.

(** The confidence the loop ends with is 0 or the score of some number
    of hits, so the reported percentage is exact and at most 100. *)
Lemma best_match_conf path text :
  conf_of (best_match path text) = 0%Q
  \/ exists hits, conf_of (best_match path text) = spec_score hits.
Proof.
  destruct (best_match_selected path text)
    as [(_ & -> & _) | (before & after & Htab & _)].
  - now left.
  - right. unfold archetype_scores in Htab.
    assert (Hin : In (label_of (best_match path text), conf_of (best_match path text))
                     (map (fun entry => (fst entry,
                                         spec_score (hit_count (snd entry) text (path_name path))))
                          LABEL_PATTERNS)).
    { rewrite Htab. apply in_or_app. right. now left. }
    apply in_map_iff in Hin. destruct Hin as (entry & E & _).
    injection E as _ E. eauto.
Qed.

Lemma best_match_percentage path text :
  (round1 (conf_of (best_match path text) * 100) == conf_of (best_match path text) * 100)%Q
  /\ (0 <= conf_of (best_match path text) <= 1)%Q.
Proof.
  destruct (best_match_conf path text) as [-> | (hits & ->)].
  - split; [reflexivity | split; unfold Qle; simpl; lia].
  - split; [apply round1_score | apply spec_score_bounds].
Qed.

(** What [classify_document] returns, and when. *)
Lemma classify_document_spec path text :
  classify_document path text
  = bind (_build_structured (label_of (best_match path text)) text)
         (fun structured =>
            Ok {| path := path;
                  label := label_of (best_match path text);
                  confidence := round1 (conf_of (best_match path text) * 100)%Q;
                  reasons := snd (best_match path text);
                  structured := structured;
                  label_id := None |}).
Proof.
  unfold classify_document, label_of, conf_of.
  now destruct (best_match path text) as [[l c] rs].
Qed.

Lemma selected_upper scores l c :
  selected scores l c -> (0 <= c)%Q /\ forall e, In e scores -> (snd e <= c)%Q.
Proof.
  intros [(_ & -> & Hall) | (before & after & -> & Hpos & Hb & Ha)].
  - split; [apply Qle_refl | exact Hall].
  - split; [now apply Qlt_le_weak|]. intros e He. apply in_app_or in He.
    destruct He as [He | [<- | He]]; [apply Qlt_le_weak; auto | apply Qle_refl | auto].
Qed.

(** The winner of one run is not ahead of the winner of another run in
    which its own patterns hit at least as often. *)
Lemma best_match_mono path text path' text' :
  (forall patterns,
      In (label_of (best_match path text), patterns) LABEL_PATTERNS ->
      (hit_count patterns text (path_name path)
       <= hit_count patterns text' (path_name path'))%nat) ->
  (conf_of (best_match path text) <= conf_of (best_match path' text'))%Q.
Proof.
  intros Hhits.
  destruct (selected_upper _ _ _ (best_match_selected path' text')) as [Hpos' Hup'].
  destruct (best_match_selected path text)
    as [(_ & -> & _) | (before & after & Htab & _)]; [exact Hpos'|].
  unfold archetype_scores in Htab.
  assert (Hin : In (label_of (best_match path text), conf_of (best_match path text))
                   (map (fun entry => (fst entry,
                                       spec_score (hit_count (snd entry) text (path_name path))))
                        LABEL_PATTERNS)).
  { rewrite Htab. apply in_or_app. right. now left. }
  apply in_map_iff in Hin. destruct Hin as ([l patterns] & E & Hentry).
  simpl in E. injection E as El Ec. subst l.
  specialize (Hhits patterns Hentry).
  rewrite <- Ec. eapply Qle_trans; [apply spec_score_mono; exact Hhits|].
  apply (Hup' (label_of (best_match path text),
               spec_score (hit_count patterns text' (path_name path')))).
  unfold archetype_scores. apply in_map_iff.
  exists (label_of (best_match path text), patterns). auto.
Qed.

(** The label and confidence of a returned record. *)
Lemma classify_document_fields path text r :
  classify_document path text = Ok r ->
  label r = label_of (best_match path text)
  /\ confidence r = round1 (conf_of (best_match path text) * 100)%Q.
Proof.
  rewrite classify_document_spec.
  destruct (_build_structured _ text) as [st|]; [|discriminate].
  intros H. apply PyFacts.Ok_inj in H. subst r. split; reflexivity.
Qed.

End ClassifyFacts.

(** C10. The reported confidence is monotonic in the hit count of the
    winning archetype: when its patterns hit at least as often against a
    second filename and text as against the first, the confidence
    reported for the second is not below the one reported for the first;
    and a reported confidence never exceeds 100.0. *)
Theorem C10_confidence_monotone
        (path text path' text' : string) (r r' : Classify.ClassificationRecord) :
  Classify.classify_document path text = Py.Ok r ->
  Classify.classify_document path' text' = Py.Ok r' ->
  (forall patterns,
      In (Classify.label r, patterns) Classify.LABEL_PATTERNS ->
      (Classify.hit_count patterns text (Py.path_name path)
       <= Classify.hit_count patterns text' (Py.path_name path'))%nat) ->
  (Classify.confidence r <= Classify.confidence r')%Q
  /\ (Classify.confidence r' <= 100)%Q.
Proof.
  intros H H' Hhits.
  apply ClassifyFacts.classify_document_fields in H, H'.
  destruct H as [Hl Hc]. destruct H' as [_ Hc'].
  rewrite Hl in Hhits. rewrite Hc, Hc'.
  destruct (ClassifyFacts.best_match_percentage path text) as [E _].
  destruct (ClassifyFacts.best_match_percentage path' text') as [E' [_ Hcap]].
  rewrite E, E'. split.
  - apply Qmult_le_compat_r; [|discriminate].
    now apply ClassifyFacts.best_match_mono.
  - apply (Qmult_le_compat_r _ _ 100) in Hcap; [exact Hcap | discriminate].
Qed.

(** C10 at a contract: a second pattern of the archetype found in the
    text raises the confidence from 25.0 to 50.0. *)
Lemma C10_confidence_monotone_witness :
  exists r r',
    Classify.classify_document "deal.pdf" "the contract" = Py.Ok r
    /\ Classify.classify_document "deal.pdf" "the contract, an agreement" = Py.Ok r'
    /\ Classify.label r = "contract"
    /\ (Classify.confidence r == 25)%Q
    /\ (Classify.confidence r' == 50)%Q
    /\ (Classify.confidence r <= Classify.confidence r')%Q
    /\ (Classify.confidence r' <= 100)%Q.
Proof.
  assert (H : exists r,
             Classify.classify_document "deal.pdf" "the contract" = Py.Ok r
             /\ Classify.label r = "contract"
             /\ (Classify.confidence r == 25)%Q).
  { vm_compute. eexists. split; [reflexivity|]. split; [reflexivity | vm_compute; reflexivity]. }
  assert (H' : exists r',
             Classify.classify_document "deal.pdf" "the contract, an agreement" = Py.Ok r'
             /\ (Classify.confidence r' == 50)%Q).
  { vm_compute. eexists. split; [reflexivity | vm_compute; reflexivity]. }
  destruct H as (r & E & Hl & Hc). destruct H' as (r' & E' & Hc').
  exists r, r'. split; [exact E|]. split; [exact E'|].
  split; [exact Hl|]. split; [exact Hc|]. split; [exact Hc'|].
  apply (C10_confidence_monotone "deal.pdf" "the contract"
                                 "deal.pdf" "the contract, an agreement" r r' E E').
  intros patterns Hin. rewrite Hl in Hin. vm_compute in Hin.
  destruct Hin as [Hin | [Hin | [Hin | [Hin | [Hin | [Hin | [Hin | []]]]]]]];
    try discriminate Hin.
  apply (f_equal snd) in Hin. simpl in Hin. subst patterns. vm_compute. lia.
Defined.

(* ===================================================================== *)
(** * What the number patterns of classify.py can capture *)
(* ===================================================================== *)

Module NumberFacts.
Import Py Re ReFacts ReAlphabet Classify.

Lemma In_all_ascii a : In a all_ascii.
Proof.
  unfold all_ascii. rewrite <- (ascii_nat_embedding a).
  apply in_map. apply in_seq. pose proof (nat_ascii_bounded a). lia.
Qed.

Lemma within_iter ic P r :
  (forall w c c', matches ic r w c c' -> forallb P w = true) ->
  forall n w c c', iter (matches ic r) n w c c' -> forallb P w = true.
Proof.
  intros Hr. induction n as [|n IH]; intros w c c' H.
  - destruct H as [-> _]. reflexivity.
  - destruct H as (w1 & w2 & c1 & -> & H1 & H2).
    rewrite forallb_app, (Hr _ _ _ H1), (IH _ _ _ H2). reflexivity.
Qed.

Lemma within_sound ic P r :
  within ic P r = true ->
  forall w c c', matches ic r w c c' -> forallb P w = true.
Proof.
  induction r as [| neg items | | r1 IH1 r2 IH2 | r1 IH1 r2 IH2
                 | lo hi greedy r IH | n r IH]; intros Hw w c c' H.
  - apply m_empty in H. destruct H as [-> _]. reflexivity.
  - apply m_set in H. destruct H as (a & -> & Ha & _).
    cbn [within] in Hw. rewrite forallb_forall in Hw.
    specialize (Hw a (In_all_ascii a)). rewrite Ha in Hw. simpl in *. now rewrite Hw.
  - destruct H as (a & -> & Ha & _).
    cbn [within] in Hw. rewrite forallb_forall in Hw.
    specialize (Hw a (In_all_ascii a)). rewrite Ha in Hw. simpl in *. now rewrite Hw.
  - cbn [within] in Hw. apply andb_true_iff in Hw. destruct Hw as [Hw1 Hw2].
    apply m_cat in H. destruct H as (w1 & w2 & c1 & -> & H1 & H2).
    rewrite forallb_app, (IH1 Hw1 _ _ _ H1), (IH2 Hw2 _ _ _ H2). reflexivity.
  - cbn [within] in Hw. apply andb_true_iff in Hw. destruct Hw as [Hw1 Hw2].
    apply m_alt in H. destruct H as [H | H]; eauto.
  - cbn [within] in Hw. apply m_rep in H. destruct H as (extra & _ & H).
    eapply within_iter; eauto.
  - cbn [within] in Hw. apply m_group in H. destruct H as (c1 & H & _). eauto.
Qed.

Lemma starts_with_sound ic a r :
  starts_with ic a r = true ->
  forall w c c', matches ic r w c c' -> exists w', w = a :: w'.
Proof.
  induction r as [| neg items | | r1 IH1 r2 IH2 | r1 IH1 r2 IH2
                 | lo hi greedy r IH | n r IH]; intros Hs w c c' H;
    cbn [starts_with] in Hs; try discriminate Hs.
  - apply m_set in H. destruct H as (x & -> & Hx & _).
    rewrite forallb_forall in Hs. specialize (Hs x (In_all_ascii x)).
    rewrite Hx in Hs. simpl in Hs. apply Ascii.eqb_eq in Hs. subst. eauto.
  - apply m_cat in H. destruct H as (w1 & w2 & c1 & -> & H1 & _).
    destruct (IH1 Hs _ _ _ H1) as (w' & ->). simpl. eauto.
  - apply andb_true_iff in Hs. destruct Hs as [Hs1 Hs2].
    apply m_alt in H. destruct H as [H | H]; eauto.
  - apply andb_true_iff in Hs. destruct Hs as [Hlo Hs]. apply Nat.ltb_lt in Hlo.
    apply m_rep in H. destruct H as (extra & _ & H).
    destruct lo as [|lo]; [lia|]. cbn [Nat.add iter] in H.
    destruct H as (w1 & w2 & c1 & -> & H1 & _).
    destruct (IH Hs _ _ _ H1) as (w' & ->). simpl. eauto.
  - apply m_group in H. destruct H as (c1 & H & _). eauto.
Qed.

Section GroupAll.
Variables (ic : bool) (n : nat) (chk : regex -> bool) (Pw : list ascii -> Prop).
Hypothesis chk_sound :
  forall r w c c', chk r = true -> matches ic r w c c' -> Pw w.

Lemma group_all_iter r :
  (forall w c c', matches ic r w c c' -> caps_all n Pw c -> caps_all n Pw c') ->
  forall k w c c', iter (matches ic r) k w c c' -> caps_all n Pw c -> caps_all n Pw c'.
Proof.
  intros Hr. induction k as [|k IH]; intros w c c' H Hc.
  - destruct H as [_ ->]. exact Hc.
  - destruct H as (w1 & w2 & c1 & _ & H1 & H2). eauto.
Qed.

Lemma group_all_sound r :
  group_all n chk r = true ->
  forall w c c', matches ic r w c c' -> caps_all n Pw c -> caps_all n Pw c'.
Proof.
  induction r as [| neg items | | r1 IH1 r2 IH2 | r1 IH1 r2 IH2
                 | lo hi greedy r IH | k r IH]; intros Hg w c c' H Hc.
  - apply m_empty in H. destruct H as [_ ->]. exact Hc.
  - apply m_set in H. destruct H as (a & _ & _ & ->). exact Hc.
  - destruct H as (a & _ & _ & ->). exact Hc.
  - cbn [group_all] in Hg. apply andb_true_iff in Hg. destruct Hg as [Hg1 Hg2].
    apply m_cat in H. destruct H as (w1 & w2 & c1 & _ & H1 & H2). eauto.
  - cbn [group_all] in Hg. apply andb_true_iff in Hg. destruct Hg as [Hg1 Hg2].
    apply m_alt in H. destruct H as [H | H]; eauto.
  - cbn [group_all] in Hg. apply m_rep in H. destruct H as (extra & _ & H).
    eapply group_all_iter; eauto.
  - cbn [group_all] in Hg. apply andb_true_iff in Hg. destruct Hg as [Hk Hg].
    apply m_group in H. destruct H as (c1 & H & ->).
    pose proof (IH Hg _ _ _ H Hc) as Hc1.
    intros g Hlook. cbn [lookup_cap] in Hlook.
    destruct (k =? n)%nat; [|now apply Hc1].
    injection Hlook as <-. eapply chk_sound; eauto.
Qed.
End GroupAll.

(** The capture of group [n] in a match of a whole pattern. *)
Lemma capture_all ic n chk Pw r w c' :
  (forall r' w' c1 c2, chk r' = true -> matches ic r' w' c1 c2 -> Pw w') ->
  group_all n chk r = true ->
  matches ic r w [] c' ->
  caps_all n Pw c'.
Proof.
  intros Hchk Hg Hm. eapply group_all_sound; eauto.
  intros g Hlook. discriminate Hlook.
Qed.

(** ** [float] on such captures *)

Lemma bare_cases a :
  bare_chars a = true ->
  a = "\"%char \/ a = "d"%char \/ a = "D"%char \/ a = "."%char \/ a = "-"%char.
Proof.
  unfold bare_chars. intros H. apply existsb_exists in H.
  destruct H as (x & Hx & E). apply Ascii.eqb_eq in E. subst x.
  simpl in Hx. intuition.
Qed.

Lemma bare_not_space a : bare_chars a = true -> is_space a = false.
Proof. intros H. apply bare_cases in H. intuition; subst; reflexivity. Qed.

Lemma drop_while_head p a l : p a = false -> drop_while p (a :: l) = a :: l.
Proof. intros H. simpl. now rewrite H. Qed.

Lemma drop_while_last p x a :
  p a = false -> exists y, drop_while p (x ++ [a]) = y ++ [a].
Proof.
  intros Ha. induction x as [|b x IH]; simpl.
  - rewrite Ha. now exists [].
  - destruct (p b); [exact IH|]. now exists (b :: x).
Qed.

(** Stripping keeps a first character that is not stripped. *)
Lemma strip_with_first p a l :
  p a = false -> exists l', strip_with p (a :: l) = a :: l'.
Proof.
  intros Ha. unfold strip_with. rewrite (drop_while_head _ _ _ Ha).
  cbn [rev]. destruct (drop_while_last p (rev l) a Ha) as (y & ->).
  rewrite rev_app_distr. simpl. eauto.
Qed.

Lemma strip_bare l :
  forallb bare_chars l = true -> strip_with is_space l = l.
Proof.
  intros H. unfold strip_with.
  assert (Hd : forall x, forallb bare_chars x = true -> drop_while is_space x = x).
  { intros [|a x] Hx; [reflexivity|]. simpl in Hx.
    apply andb_true_iff in Hx. destruct Hx as [Ha _].
    apply drop_while_head. now apply bare_not_space. }
  rewrite (Hd l H). rewrite Hd; [apply rev_involutive|].
  rewrite forallb_forall in *. intros a Ha. apply H. now apply in_rev.
Qed.

(** The body of a float literal cannot be made of such characters. *)
Lemma body_not_float l :
  forallb bare_chars l = true ->
  parse_decimal l = None
  /\ String.eqb (str (map lower_char l)) "inf" = false
  /\ String.eqb (str (map lower_char l)) "infinity" = false
  /\ String.eqb (str (map lower_char l)) "nan" = false.
Proof.
  destruct l as [|a l]; [intros _; repeat split|].
  intros H. simpl in H. apply andb_true_iff in H. destruct H as [Ha Hl].
  apply bare_cases in Ha.
  destruct Ha as [-> | [-> | [-> | [-> | ->]]]]; (split; [|repeat split]).
  4: { unfold parse_decimal. cbn [span_digits is_digit Ascii.eqb].
       change (span_digits ("."%char :: l) false) with (Some (@nil ascii, "."%char :: l)).
       cbv iota beta.
       destruct l as [|b l]; [reflexivity|].
       simpl in Hl. apply andb_true_iff in Hl. destruct Hl as [Hb _].
       apply bare_cases in Hb.
       destruct Hb as [-> | [-> | [-> | [-> | ->]]]]; reflexivity. }
  all: reflexivity.
Qed.

Lemma float_bare l :
  forallb bare_chars l = true -> float (str l) = Raise ValueError.
Proof.
  intros H. unfold float. rewrite PyFacts.chars_str, (strip_bare _ H).
  destruct l as [|a l].
  - reflexivity.
  - pose proof H as H'. simpl in H'. apply andb_true_iff in H'. destruct H' as [Ha Hl].
    assert (Hsign : (a = "-"%char /\ split_sign (a :: l) = (true, l))
                    \/ split_sign (a :: l) = (false, a :: l)).
    { apply bare_cases in Ha.
      destruct Ha as [-> | [-> | [-> | [-> | ->]]]]; auto. }
    destruct Hsign as [[_ ->] | ->].
    + destruct (body_not_float l Hl) as (-> & -> & -> & ->). reflexivity.
    + destruct (body_not_float (a :: l) H) as (-> & -> & -> & ->). reflexivity.
Qed.

Lemma float_number_chars w :
  forallb number_chars w = true ->
  float (remove_char "," (str w)) = Raise ValueError.
Proof.
  intros H. unfold remove_char. rewrite PyFacts.chars_str. apply float_bare.
  apply forallb_forall. intros a Ha. apply filter_In in Ha. destruct Ha as [Ha Hne].
  rewrite forallb_forall in H. specialize (H a Ha).
  apply negb_true_iff in Hne.
  unfold number_chars, bare_chars in *. simpl in *. rewrite Hne in H.
  rewrite !orb_false_r in *. rewrite !orb_assoc in *. simpl in H.
  destruct (Ascii.eqb a "\"), (Ascii.eqb a "d"), (Ascii.eqb a "D"),
           (Ascii.eqb a "."), (Ascii.eqb a "-"); simpl in *; congruence.
Qed.

(** A number pattern whose first group can only capture such characters
    never yields a number. *)
Lemma extract_number_none text patterns :
  forallb number_pattern_ok patterns = true -> _extract_number text patterns = None.
Proof.
  unfold _extract_number. induction patterns as [|pattern rest IH]; intros H.
  - reflexivity.
  - simpl in H. apply andb_true_iff in H. destruct H as [Hp Hrest].
    destruct (search pattern true text) as [mo|] eqn:E; [|now apply IH].
    apply search_from_sound in E. destruct E as [Hm _].
    pose proof (capture_all true 1 (within true number_chars)
                            (fun w => forallb number_chars w = true) _ _ _
                            (fun r' w' c1 c2 Hr' => within_sound _ _ r' Hr' w' c1 c2)
                            Hp Hm) as Hcaps.
    assert (Hg : float (remove_char "," (group_or_empty mo 1)) = Raise ValueError).
    { unfold group_or_empty, group.
      destruct (lookup_cap 1 (m_caps mo)) as [w|] eqn:Ew; simpl.
      - apply float_number_chars. now apply Hcaps.
      - reflexivity. }
    rewrite Hg. now apply IH.
Qed.

(** Every number pattern of classify.py is of that kind: the numeric
    fields of every structured document are always null. *)
Lemma number_patterns_capture_no_digit :
  forallb number_pattern_ok number_patterns = true.
Proof. vm_compute. reflexivity. Qed.

(** No text gives the balance-sheet extractor a total: it never reports
    a non_balancing error. *)
Lemma balance_sheet_never_non_balancing text :
  _extract_number text ["total assets[^\\d]+(-?[\\d,\\.]+)"] = None
  /\ _extract_number text
       ["total liabilities[^\\d]+equity[^\\d]+(-?[\\d,\\.]+)";
        "total liabilities[^\\d]+(-?[\\d,\\.]+).*equity[^\\d]+(-?[\\d,\\.]+)"] = None
  /\ ~ In "non_balancing: assets != liabilities + equity"
          (snd (_extract_balance_sheet text)).
Proof.
  assert (H1 : _extract_number text ["total assets[^\\d]+(-?[\\d,\\.]+)"] = None)
    by (apply extract_number_none; vm_compute; reflexivity).
  split; [exact H1|].
  split; [apply extract_number_none; vm_compute; reflexivity|].
  unfold _extract_balance_sheet. cbn [snd]. rewrite H1.
  destruct (_has_placeholder text); simpl; intuition discriminate.
Qed.

(** ** Rows of a cap table *)

Lemma float_first_not_number a l :
  is_space a = false ->
  Ascii.eqb a "-" = false -> Ascii.eqb a "+" = false ->
  is_digit a = false -> Ascii.eqb a "_" = false -> Ascii.eqb a "." = false ->
  Ascii.eqb (lower_char a) "i" = false -> Ascii.eqb (lower_char a) "n" = false ->
  float (str (a :: l)) = Raise ValueError.
Proof.
  intros Hsp Hminus Hplus Hd Hu Hdot Hi Hn. unfold float. rewrite PyFacts.chars_str.
  destruct (strip_with_first is_space a l Hsp) as (l' & ->).
  assert (Hsign : split_sign (a :: l') = (false, a :: l')).
  { revert Hminus Hplus. unfold split_sign.
    destruct a as [[] [] [] [] [] [] [] []]; intros H1 H2;
      try discriminate H1; try discriminate H2; reflexivity. }
  rewrite Hsign. cbn [map str string_of_list_ascii String.eqb].
  rewrite Hi, Hn. cbn [orb].
  unfold parse_decimal. cbn [span_digits]. rewrite Hd, Hu.
  destruct a as [[] [] [] [] [] [] [] []]; try discriminate Hdot; reflexivity.
Qed.

Lemma float_percent_backslash w :
  float (strip_char "%" (str ("\"%char :: w))) = Raise ValueError.
Proof.
  unfold strip_char. rewrite PyFacts.chars_str.
  destruct (strip_with_first (Ascii.eqb "%") "\"%char w eq_refl) as (l' & ->).
  now apply float_first_not_number.
Qed.

Lemma flat_map_nil {A B} (f : A -> list B) (l : list A) :
  (forall x, In x l -> f x = []) -> flat_map f l = [].
Proof.
  induction l as [|a l IH]; intros H; simpl; [reflexivity|].
  rewrite (H a (or_introl eq_refl)), IH; [reflexivity|].
  intros x Hx. apply H. now right.
Qed.

(** The percentage captured by the row pattern starts with a backslash,
    so no row is ever parsed and the ownership total is never checked. *)
Lemma cap_table_never_parses text :
  _extract_cap_table text
  = ([("rows", VRecords []); ("ownership_total", VNone)],
     ["shareholder"; "ownership_percent"; "shares"], [], []).
Proof.
  unfold _extract_cap_table. fold cap_row_pattern.
  rewrite flat_map_nil; [reflexivity|].
  intros mo Hmo. apply in_flat_map in Hmo. destruct Hmo as (line & _ & Hmo).
  apply findall_sound in Hmo.
  assert (Hg : group_all 2 (starts_with false "\"%char) (compile cap_row_pattern) = true)
    by (vm_compute; reflexivity).
  pose proof (capture_all false 2 (starts_with false "\"%char)
                          (fun w => exists w', w = "\"%char :: w') _ _ _
                          (fun r' w' c1 c2 Hr' => starts_with_sound _ _ r' Hr' w' c1 c2)
                          Hg Hmo) as Hcaps.
  assert (Hf : float (strip_char "%" (group_or_empty mo 2)) = Raise ValueError).
  { unfold group_or_empty, group.
    destruct (lookup_cap 2 (m_caps mo)) as [w|] eqn:Ew; simpl.
    - destruct (Hcaps w Ew) as (w' & ->). apply float_percent_backslash.
    - reflexivity. }
  now rewrite Hf.
Qed.

End NumberFacts.

(** C4 at a bank statement. The archetype is selected with score 0.25 as
    the claim describes, but the transaction pattern finds a match whose
    amount is not a number, the conversion is not guarded, and
    [classify_document] raises instead of reporting a record. (On every
    input on which it returns, the label and the confidence are those of
    [ClassifyFacts.classify_document_fields] and
    [ClassifyFacts.best_match_selected].) *)
Theorem C4_classify_document_raises :
  Classify.archetype_scores "bank_statement.pdf" "\d/\d/\ddd"
  = [("income_statement", (0 # 4)%Q); ("balance_sheet", (0 # 4)%Q);
     ("cash_flow", (0 # 4)%Q); ("bank_statement", (1 # 4)%Q);
     ("ar_aging", (0 # 4)%Q); ("cap_table", (0 # 4)%Q); ("contract", (0 # 4)%Q)]
  /\ Classify.label_of (Classify.best_match "bank_statement.pdf" "\d/\d/\ddd")
     = "bank_statement"
  /\ map (fun m => (Re.group_or_empty m 1, Re.group_or_empty m 2))
         (Re.findall "(\\d{1,2}/\\d{1,2}/\\d{2,4}).{0,40}?(-?[\\d,\\.]+)" false "\d/\d/\ddd")
     = [("\d/\d/\dd", "d")]
  /\ Py.float "d" = Py.Raise Py.ValueError
  /\ Classify.classify_document "bank_statement.pdf" "\d/\d/\ddd"
     = Py.Raise Py.ValueError.
Proof.
  split; [vm_compute; reflexivity|].
  split; [vm_compute; reflexivity|].
  split; [vm_compute; reflexivity|].
  split; vm_compute; reflexivity.
Qed.

(** C5 at the example of the claim: total assets 500, total liabilities
    300 and equity 300. Neither total is found, because the patterns ask
    for a backslash or the letter d where digits were meant, and no
    non_balancing error is emitted, on one line or on three. No text at
    all gives the extractor a total, so the error is never emitted. *)
Theorem C5_no_non_balancing_error :
  Classify._extract_number "total assets 500 total liabilities 300 equity 300"
                           ["total assets[^\\d]+(-?[\\d,\\.]+)"] = None
  /\ Classify._extract_number
       "total assets 500 total liabilities 300 equity 300"
       ["total liabilities[^\\d]+equity[^\\d]+(-?[\\d,\\.]+)";
        "total liabilities[^\\d]+(-?[\\d,\\.]+).*equity[^\\d]+(-?[\\d,\\.]+)"] = None
  /\ snd (Classify._extract_balance_sheet
            "total assets 500 total liabilities 300 equity 300") = []
  /\ snd (Classify._extract_balance_sheet
            (Py.join (String Re.newline "")
                     ["total assets 500"; "total liabilities 300"; "equity 300"])) = []
  /\ (forall text,
        Classify._extract_number text ["total assets[^\\d]+(-?[\\d,\\.]+)"] = None
        /\ Classify._extract_number text
             ["total liabilities[^\\d]+equity[^\\d]+(-?[\\d,\\.]+)";
              "total liabilities[^\\d]+(-?[\\d,\\.]+).*equity[^\\d]+(-?[\\d,\\.]+)"] = None
        /\ ~ In "non_balancing: assets != liabilities + equity"
                (snd (Classify._extract_balance_sheet text))).
Proof.
  split; [vm_compute; reflexivity|].
  split; [vm_compute; reflexivity|].
  split; [vm_compute; reflexivity|].
  split; [vm_compute; reflexivity|].
  apply NumberFacts.balance_sheet_never_non_balancing.
Qed.

(** C6 at rows summing to 95%. No row is parsed, because the row pattern
    asks for backslashes and the letters s and d where whitespace and
    digits were meant, and no ownership-total error is emitted. No text
    at all gives the extractor a row. *)
Theorem C6_no_ownership_total_error :
  Classify._extract_cap_table
    (Py.join (String Re.newline "") ["Alice 60% 600"; "Bob 35% 350"])
  = ([("rows", Classify.VRecords []); ("ownership_total", Classify.VNone)],
     ["shareholder"; "ownership_percent"; "shares"], [], [])
  /\ (forall text,
        Classify._extract_cap_table text
        = ([("rows", Classify.VRecords []); ("ownership_total", Classify.VNone)],
           ["shareholder"; "ownership_percent"; "shares"], [], [])).
Proof.
  split; [vm_compute; reflexivity|].
  apply NumberFacts.cap_table_never_parses.
Qed.
(* ===================================================================== *)
(** * Placeholders *)
(* ===================================================================== *)

Module PlaceholderFacts.
Import Py Re ReFacts Classify.

(** A pattern that starts with a literal backslash finds nothing in a
    text without one. *)
Lemma search_needs_first ic c r s i :
  is_alpha c = false ->
  ~ In c s ->
  search_from ic (Cat (Lit c) r) s i = None.
Proof.
  intros Hc. revert i. induction s as [|a s IH]; intros i Hs.
  - reflexivity.
  - cbn [search_from]. unfold match_here at 1. cbn [exec Lit].
    destruct (char_ok ic false [CRange c c] a) eqn:E.
    + apply (PeriodFacts.lit_any_case _ _ _ Hc) in E. subst a.
      exfalso. apply Hs. now left.
    + apply IH. intros H. apply Hs. now right.
Qed.

Lemma compile_placeholder :
  exists r, compile "\\b(tbd|n/?a|--+|\\?\\?\\?)\\b" = Cat (Lit backslash) r.
Proof. eexists. vm_compute. reflexivity. Qed.

Lemma has_placeholder_needs_backslash value :
  ~ In backslash (chars value) -> _has_placeholder value = false.
Proof.
  intros H. unfold _has_placeholder, search.
  destruct compile_placeholder as (r & ->).
  now rewrite search_needs_first.
Qed.

Lemma compile_letters :
  compile "[A-Za-z]+"
  = Repeat 1 None true (CharSet false [CRange "A" "Z"; CRange "a" "z"]).
Proof. reflexivity. Qed.

Lemma letter_not_backslash a :
  char_ok false false [CRange "A" "Z"; CRange "a" "z"] a = true -> a <> backslash.
Proof. destruct a as [[] [] [] [] [] [] [] []]; vm_compute; congruence. Qed.

(** The tokens of the income-statement check are runs of letters, so the
    placeholder pattern never matches one: the extractor never reports a
    placeholder. *)
Lemma income_statement_no_format_error text :
  snd (_extract_income_statement text) = [].
Proof.
  unfold _extract_income_statement. cbn [snd].
  destruct (existsb _has_placeholder _) eqn:E; [|reflexivity].
  apply existsb_exists in E. destruct E as (token & Hin & Hp).
  apply in_map_iff in Hin. destruct Hin as (mo & <- & Hmo).
  apply findall_sound in Hmo. rewrite compile_letters in Hmo.
  apply m_rep_class in Hmo. destruct Hmo as (_ & _ & Hf & _).
  rewrite has_placeholder_needs_backslash in Hp; [discriminate Hp|].
  unfold whole. rewrite PyFacts.chars_str. intros Hb.
  apply (proj1 (List.Forall_forall _ _) Hf) in Hb.
  now apply letter_not_backslash in Hb.
Qed.

End PlaceholderFacts.

(** C7 at placeholder tokens. [_has_placeholder] asks for a literal
    backslash and b on both sides of the token, so none of tbd, n/a, --
    and ??? is detected; the income-statement check moreover looks at
    runs of letters only. Neither extractor reports a format error, and
    the income-statement extractor never does. *)
Theorem C7_placeholder_not_detected :
  map Classify._has_placeholder ["tbd"; "n/a"; "--"; "???"] = [false; false; false; false]
  /\ snd (Classify._extract_income_statement "revenue -- cogs tbd net income n/a ???") = []
  /\ snd (Classify._extract_balance_sheet "cash -- equity tbd inventory n/a ???") = []
  /\ (forall text, snd (Classify._extract_income_statement text) = []).
Proof.
  split; [vm_compute; reflexivity|].
  split; [vm_compute; reflexivity|].
  split; [vm_compute; reflexivity|].
  apply PlaceholderFacts.income_statement_no_format_error.
Qed.

(** C3 at an income statement without dates. After the classification
    the record's format_errors list is empty; after the validation the
    same list holds "missing dates": the validator has appended to the
    classifier's list in place. *)
Theorem C3_validator_appends_in_place :
  exists docs h0 report h1,
    Pipeline.classify_then_validate
      [("income_statement.pdf", "Income Statement Revenue 100")] ∅
    = Py.Ok (docs, h0, report, h1)
    /\ Pipeline.classifier_format_errors docs h0 = [[]]
    /\ Pipeline.classifier_format_errors docs h1 = [["missing dates"]].
Proof.
  vm_compute. do 4 eexists. split; [reflexivity|]. split; reflexivity.
Qed.

(* ===================================================================== *)
(** * Matching in a longer text *)
(* ===================================================================== *)

Module ReAppend.
Import Py Re ReFacts ReExtend.

Section Append.
Variable ic : bool.
Variable t : list ascii.
Context {A B : Type}.

Lemma rep_min_app (mr : @matcher A) (mr' : @matcher B) n :
  app_ok t mr mr' -> app_ok t (rep_min mr n) (rep_min mr' n).
Proof.
  intros Hmr. induction n as [|n IH]; intros s c c2 k k' Hk H; simpl in *.
  - exact (Hk s c H c2).
  - eapply Hmr; [|exact H]. intros s' c' H' c2'. exact (IH s' c' c2' k k' Hk H').
Qed.

Lemma rep_more_app (mr : @matcher A) (mr' : @matcher B) P greedy :
  sound mr P -> app_ok t mr mr' ->
  forall fuel fuel' budget s c c2 k k',
    (List.length s <= fuel)%nat -> (List.length (s ++ t) <= fuel')%nat ->
    ext t k k' ->
    rep_more mr fuel budget greedy s c k <> None ->
    rep_more mr' fuel' budget greedy (s ++ t) c2 k' <> None.
Proof.
  intros Hsound Hmr. induction fuel as [|f IH];
    intros fuel' budget s c c2 k k' Hf Hf' Hk H.
  - simpl in H. pose proof (Hk s c H c2) as Hk'.
    destruct fuel' as [|f']; simpl; [exact Hk'|].
    destruct greedy.
    + destruct (if budget_left budget then _ else None); [discriminate | exact Hk'].
    + destruct (k' (s ++ t) c2); [discriminate | contradiction].
  - cbn [rep_more] in H.
    set (more := if budget_left budget then
                   mr s c (fun s' c' =>
                             if (List.length s' <? List.length s)%nat
                             then rep_more mr f (option_map Nat.pred budget) greedy s' c' k
                             else None)
                 else None) in H.
    assert (Hcases : more <> None \/ k s c <> None).
    { destruct greedy.
      - destruct more; [left; discriminate | right; exact H].
      - destruct (k s c); [right; discriminate | left; exact H]. }
    destruct Hcases as [Hmore | Hstop].
    + subst more. destruct (budget_left budget) eqn:Hb; [|congruence].
      destruct fuel' as [|f'].
      * exfalso. destruct (mr s c _) as [x|] eqn:E; [|congruence].
        apply Hsound in E. destruct E as (w & s' & c' & -> & _ & E).
        rewrite !length_app in Hf'.
        destruct (List.length s' <? List.length (w ++ s'))%nat eqn:L; [|discriminate].
        apply Nat.ltb_lt in L. rewrite length_app in L. lia.
      * assert (Hmore' :
                  mr' (s ++ t) c2
                      (fun s' c' =>
                         if (List.length s' <? List.length (s ++ t))%nat
                         then rep_more mr' f' (option_map Nat.pred budget) greedy s' c' k'
                         else None) <> None).
        { eapply Hmr; [|exact Hmore]. intros s' c' H' c2'.
          destruct (List.length s' <? List.length s)%nat eqn:L; [|congruence].
          apply Nat.ltb_lt in L.
          assert (L' : (List.length (s' ++ t) <? List.length (s ++ t))%nat = true).
          { apply Nat.ltb_lt. rewrite !length_app. lia. }
          rewrite L'. apply Nat.ltb_lt in L'.
          apply (IH f' _ s' c' c2' k k'); [lia | lia | exact Hk | exact H']. }
        cbn [rep_more]. rewrite Hb. destruct greedy.
        -- destruct (mr' (s ++ t) c2 _); [intro X; discriminate X | congruence].
        -- destruct (k' (s ++ t) c2); [intro X; discriminate X | exact Hmore'].
    + pose proof (Hk s c Hstop c2) as Hk'. clear H more.
      destruct fuel' as [|f']; simpl; [exact Hk'|].
      destruct greedy.
      * destruct (if budget_left budget then _ else None); [discriminate | exact Hk'].
      * destruct (k' (s ++ t) c2); [discriminate | contradiction].
Qed.
End Append.

(** A pattern that matches at the start of a text matches at the start
    of every extension of the text. *)
Lemma exec_app ic t {A B} (r : regex) : app_ok t (@exec ic A r) (@exec ic B r).
Proof.
  induction r as [| neg items | | r1 IH1 r2 IH2 | r1 IH1 r2 IH2
                 | lo hi greedy r IH | n r IH];
    intros s c c2 k k' Hk H; cbn [exec] in *.
  - exact (Hk s c H c2).
  - destruct s as [|a s]; [congruence|]. cbn [app].
    destruct (char_ok ic neg items a); [exact (Hk s c H c2) | congruence].
  - destruct s as [|a s]; [congruence|]. cbn [app].
    destruct (Ascii.eqb a newline); [congruence | exact (Hk s c H c2)].
  - eapply IH1; [|exact H]. intros s' c' H' c2'. exact (IH2 s' c' c2' k k' Hk H').
  - destruct (exec ic r1 s c k) eqn:E.
    + assert (E' : exec ic r1 (s ++ t) c2 k' <> None)
        by (apply (IH1 s c c2 k k' Hk); rewrite E; intro X; discriminate X).
      destruct (exec ic r1 (s ++ t) c2 k'); [discriminate | congruence].
    + destruct (exec ic r1 (s ++ t) c2 k'); [intro X; discriminate X|].
      exact (IH2 s c c2 k k' Hk H).
  - eapply (rep_min_app t _ _ lo IH); [|exact H].
    intros s' c' H' c2'.
    eapply (rep_more_app t _ _ _ greedy (exec_sound ic r) IH);
      [apply Nat.le_refl | apply Nat.le_refl | exact Hk | exact H'].
  - eapply IH; [|exact H]. intros s' c' H' c2'.
    exact (Hk s' _ H' _).
Qed.

Lemma search_from_here ic r s i :
  match_here ic r s i <> None -> found (search_from ic r s i) = true.
Proof.
  intros H. destruct s; cbn [search_from];
    destruct (match_here ic r _ i); try reflexivity; contradiction.
Qed.

Lemma match_here_app ic r s t i j :
  match_here ic r s i <> None -> match_here ic r (s ++ t) j <> None.
Proof.
  intros H. unfold match_here in *.
  eapply (exec_app ic t r); [|exact H]. intros s' c' _ c2 X. discriminate X.
Qed.

Lemma search_from_app ic r s t i j :
  found (search_from ic r s i) = true ->
  found (search_from ic r (s ++ t) j) = true.
Proof.
  revert i j. induction s as [|a s IH]; intros i j H.
  - apply search_from_here. apply (match_here_app ic r [] t i j).
    cbn [search_from] in H.
    destruct (match_here ic r [] i); [intro X; discriminate X | discriminate H].
  - cbn [search_from] in H.
    destruct (match_here ic r (a :: s) i) eqn:E.
    + apply search_from_here. apply (match_here_app ic r (a :: s) t i j).
      rewrite E. intro X; discriminate X.
    + change ((a :: s) ++ t) with (a :: (s ++ t)). cbn [search_from].
      destruct (match_here ic r (a :: s ++ t) j); [reflexivity|].
      apply (IH (S i) (S j)). exact H.
Qed.

Lemma search_from_prepend ic r s t i j :
  found (search_from ic r s i) = true ->
  found (search_from ic r (t ++ s) j) = true.
Proof.
  revert j. induction t as [|a t IH]; intros j H.
  - cbn [app]. rewrite <- (app_nil_r s). now apply (search_from_app ic r s [] i j).
  - change ((a :: t) ++ s) with (a :: (t ++ s)). cbn [search_from].
    destruct (match_here ic r (a :: t ++ s) j); [reflexivity|].
    now apply IH.
Qed.

(** [re.search] keeps finding a pattern when text is put before and
    after the text. *)
Lemma search_surrounded pattern ic before s after :
  found (search pattern ic s) = true ->
  found (search pattern ic (before +:+ s +:+ after)) = true.
Proof.
  unfold search. rewrite !PyFacts.chars_app. intros H.
  apply (search_from_prepend ic _ _ (chars before) 0 0).
  now apply (search_from_app ic _ (chars s) (chars after) 0 0).
Qed.

End ReAppend.

(* ===================================================================== *)
(** * What the extractors of classify.py can return *)
(* ===================================================================== *)

Module ExtractorFacts.
Import Py Re ReFacts ReAlphabet Classify ClassifyRows NumberFacts.

Lemma income_statement_constant text :
  _extract_income_statement text
  = ([("revenue", VNone); ("cogs", VNone); ("operating_expenses", VNone);
      ("ebitda", VNone); ("net_income", VNone)],
     ["revenue"; "cogs"; "operating_expenses"; "net_income"], [], []).
Proof.
  pose proof (PlaceholderFacts.income_statement_no_format_error text) as Hfe.
  unfold _extract_income_statement in *. cbn [snd] in Hfe. rewrite Hfe.
  rewrite !extract_number_none by (vm_compute; reflexivity).
  reflexivity.
Qed.

Lemma balance_sheet_fields text :
  _extract_balance_sheet text
  = ([("cash", VNone); ("accounts_receivable", VNone); ("inventory", VNone);
      ("pp&e", VNone); ("accounts_payable", VNone); ("short_term_debt", VNone);
      ("long_term_debt", VNone); ("equity", VNone)],
     ["cash"; "accounts_receivable"; "accounts_payable"; "equity"], [],
     if _has_placeholder text then ["placeholder detected"] else []).
Proof.
  unfold _extract_balance_sheet.
  rewrite !extract_number_none by (vm_compute; reflexivity).
  reflexivity.
Qed.

Lemma contract_fields text :
  exists customer_name payment_terms,
    _extract_contract text
    = ([("customer_name", customer_name); ("contract_value", VNone);
        ("term_length", VNone); ("payment_terms", payment_terms)],
       (if is_none customer_name then ["customer_name"] else [])
         ++ ["contract_value"; "term_length"], [], [])
    /\ (customer_name = VNone \/ exists s, customer_name = VStr s)
    /\ (payment_terms = VNone \/ exists s, payment_terms = VStr s).
Proof.
  unfold _extract_contract.
  rewrite !extract_number_none by (vm_compute; reflexivity).
  destruct (search "between\\s+([A-Za-z0-9 &]+)" true text) as [m1|];
    destruct (search "payment terms[^\\n]+" true text) as [m2|].
  - exists (VStr (strip (group_or_empty m1 1))), (VStr (strip (whole m2))).
    split; [reflexivity|]. split; right; eexists; reflexivity.
  - exists (VStr (strip (group_or_empty m1 1))), VNone.
    split; [reflexivity|]. split; [right; eexists; reflexivity | now left].
  - exists VNone, (VStr (strip (whole m2))).
    split; [reflexivity|]. split; [now left | right; eexists; reflexivity].
  - exists VNone, VNone. split; [reflexivity|]. split; now left.
Qed.

(** ** Transactions of a bank statement *)

Lemma mapM_raise {A B} (f : A -> result B) (l : list A) :
  l <> [] -> (forall a, In a l -> f a = Raise ValueError) -> mapM f l = Raise ValueError.
Proof.
  destruct l as [|a l]; [congruence|]. intros _ H.
  simpl. rewrite (H a (or_introl eq_refl)). reflexivity.
Qed.

(** The amount a transaction match captures is never a number. *)
Lemma transaction_amount text mo :
  In mo (findall transaction_pattern false text) ->
  float (remove_char "," (group_or_empty mo 2)) = Raise ValueError.
Proof.
  intros Hmo. apply findall_sound in Hmo.
  assert (Hg : group_all 2 (within false number_chars) (compile transaction_pattern) = true)
    by (vm_compute; reflexivity).
  pose proof (capture_all false 2 (within false number_chars)
                          (fun w => forallb number_chars w = true) _ _ _
                          (fun r' w' c1 c2 Hr' => within_sound _ _ r' Hr' w' c1 c2)
                          Hg Hmo) as Hcaps.
  unfold group_or_empty, group.
  destruct (lookup_cap 2 (m_caps mo)) as [w|] eqn:Ew; simpl.
  - apply float_number_chars. now apply Hcaps.
  - reflexivity.
Qed.

Lemma bank_statement_cases text :
  (findall transaction_pattern false text = []
   /\ _extract_bank_statement text = Ok bank_statement_empty)
  \/ (findall transaction_pattern false text <> []
      /\ _extract_bank_statement text = Raise ValueError).
Proof.
  unfold _extract_bank_statement. fold transaction_pattern.
  rewrite !extract_number_none by (vm_compute; reflexivity).
  destruct (findall transaction_pattern false text) as [|mo rest] eqn:E.
  - left. split; reflexivity.
  - right. split; [intro X; discriminate X|].
    rewrite mapM_raise; [reflexivity | intro X; discriminate X |].
    intros m Hm. rewrite <- E in Hm. rewrite (transaction_amount text m Hm). reflexivity.
Qed.

(** ** Rows of an aging report *)

Lemma float_comma_backslash w :
  float (remove_char "," (str ("\"%char :: w))) = Raise ValueError.
Proof.
  unfold remove_char. rewrite PyFacts.chars_str. cbn [List.filter Ascii.eqb negb].
  change (negb (Ascii.eqb "\"%char ","%char)) with true. cbv iota.
  now apply float_first_not_number.
Qed.

(** The first amount of a row match starts with a backslash. *)
Lemma aging_row_amount text mo :
  In mo (aging_rows text) ->
  float (remove_char "," (group_or_empty mo 2)) = Raise ValueError.
Proof.
  intros Hmo. apply in_flat_map in Hmo. destruct Hmo as (line & _ & Hmo).
  apply findall_sound in Hmo.
  assert (Hg : group_all 2 (starts_with false "\"%char) (compile aging_row_pattern) = true)
    by (vm_compute; reflexivity).
  pose proof (capture_all false 2 (starts_with false "\"%char)
                          (fun w => exists w', w = "\"%char :: w') _ _ _
                          (fun r' w' c1 c2 Hr' => starts_with_sound _ _ r' Hr' w' c1 c2)
                          Hg Hmo) as Hcaps.
  unfold group_or_empty, group.
  destruct (lookup_cap 2 (m_caps mo)) as [w|] eqn:Ew; simpl.
  - destruct (Hcaps w Ew) as (w' & ->). apply float_comma_backslash.
  - reflexivity.
Qed.

Lemma ar_aging_cases text :
  (aging_rows text = [] /\ _extract_ar_aging text = Ok ar_aging_empty)
  \/ (aging_rows text <> [] /\ _extract_ar_aging text = Raise ValueError).
Proof.
  unfold _extract_ar_aging. fold aging_row_pattern. fold (aging_rows text).
  destruct (aging_rows text) as [|mo rest] eqn:E.
  - left. split; reflexivity.
  - right. split; [intro X; discriminate X|].
    rewrite mapM_raise; [reflexivity | intro X; discriminate X |].
    intros m Hm. rewrite <- E in Hm. rewrite (aging_row_amount text m Hm). reflexivity.
Qed.

End ExtractorFacts.

(* ===================================================================== *)
(** * What a classification record holds *)
(* ===================================================================== *)

Module RecordFacts.
Import Py Re ReFacts Classify ClassifyRows ClassifyFacts ExtractorFacts.

Lemma build_structured_ok label text st :
  _build_structured label text = Ok st ->
  forallb (fun kv => negb (holds_number (snd kv))) (fields st) = true
  /\ flagged st = true.
Proof.
  unfold _build_structured, extractors.
  destruct (String.eqb label "income_statement").
  { rewrite income_statement_constant. intros H. apply PyFacts.Ok_inj in H. subst st.
    split; reflexivity. }
  destruct (String.eqb label "balance_sheet").
  { rewrite balance_sheet_fields. intros H. apply PyFacts.Ok_inj in H. subst st.
    split; reflexivity. }
  destruct (String.eqb label "bank_statement").
  { destruct (bank_statement_cases text) as [[_ ->] | [_ ->]]; intros H;
      [|discriminate H].
    apply PyFacts.Ok_inj in H. subst st. split; reflexivity. }
  destruct (String.eqb label "ar_aging").
  { destruct (ar_aging_cases text) as [[_ ->] | [_ ->]]; intros H;
      [|discriminate H].
    apply PyFacts.Ok_inj in H. subst st. split; reflexivity. }
  destruct (String.eqb label "cap_table").
  { rewrite NumberFacts.cap_table_never_parses. intros H.
    apply PyFacts.Ok_inj in H. subst st. split; reflexivity. }
  destruct (String.eqb label "contract").
  { destruct (contract_fields text) as (cn & pt & -> & Hcn & Hpt). intros H.
    apply PyFacts.Ok_inj in H. subst st.
    split.
    - destruct Hcn as [-> | (s1 & ->)]; destruct Hpt as [-> | (s2 & ->)]; reflexivity.
    - destruct Hcn as [-> | (s1 & ->)]; reflexivity. }
  intros H. apply PyFacts.Ok_inj in H. subst st. split; reflexivity.
Qed.

Lemma classify_document_structured path text r :
  classify_document path text = Ok r ->
  _build_structured (label r) text = Ok (structured r).
Proof.
  rewrite classify_document_spec.
  destruct (_build_structured _ text) as [st|] eqn:E; [|intros X; discriminate X].
  intros H. apply PyFacts.Ok_inj in H. subst r. exact E.
Qed.

Lemma build_structured_raises label text :
  _build_structured label text = Raise ValueError <->
  (label = "bank_statement" /\ findall transaction_pattern false text <> [])
  \/ (label = "ar_aging" /\ aging_rows text <> []).
Proof.
  unfold _build_structured, extractors.
  destruct (String.eqb_spec label "income_statement") as [->|_].
  { split; [intros X; discriminate X|]. intros [[X _] | [X _]]; discriminate X. }
  destruct (String.eqb_spec label "balance_sheet") as [->|_].
  { split; [intros X; discriminate X|]. intros [[X _] | [X _]]; discriminate X. }
  destruct (String.eqb_spec label "bank_statement") as [->|Hb].
  { destruct (bank_statement_cases text) as [[E ->] | [E ->]].
    - split; [intros X; discriminate X|]. rewrite E.
      intros [[_ X] | [X _]]; [congruence | discriminate X].
    - split; [|reflexivity]. intros _. left. split; [reflexivity | exact E]. }
  destruct (String.eqb_spec label "ar_aging") as [->|Ha].
  { destruct (ar_aging_cases text) as [[E ->] | [E ->]].
    - split; [intros X; discriminate X|]. rewrite E.
      intros [[X _] | [_ X]]; [discriminate X | congruence].
    - split; [|reflexivity]. intros _. right. split; [reflexivity | exact E]. }
  assert (Hno : ~ ((label = "bank_statement" /\ findall transaction_pattern false text <> [])
                   \/ (label = "ar_aging" /\ aging_rows text <> [])))
    by (intros [[X _] | [X _]]; contradiction).
  destruct (String.eqb label "cap_table");
    [split; [intros X; discriminate X | intros X; contradiction]|].
  destruct (String.eqb label "contract").
  { destruct (_extract_contract text) as [[[f m] s] e]. cbn [bind].
    split; [intros X; discriminate X | intros X; contradiction]. }
  split; [intros X; discriminate X | intros X; contradiction].
Qed.

Lemma table_label_known l c path text :
  In (l, c) (archetype_scores path text) -> l <> "unknown".
Proof.
  unfold archetype_scores. intros H. apply in_map_iff in H.
  destruct H as (entry & E & Hin). apply (f_equal fst) in E. cbn [fst] in E. subst l.
  unfold LABEL_PATTERNS in Hin. cbn [In] in Hin.
  destruct Hin as [<- | [<- | [<- | [<- | [<- | [<- | [<- | []]]]]]]];
    intros X; discriminate X.
Qed.

End RecordFacts.

(** X1. No number is ever extracted: in every record [classify_document]
    returns, no field of the structured document holds a float or a
    non-empty list of rows. *)
Theorem X1_no_number_extracted (path text : string) (r : Classify.ClassificationRecord) :
  Classify.classify_document path text = Py.Ok r ->
  forallb (fun kv => negb (ClassifyRows.holds_number (snd kv)))
          (Classify.fields (Classify.structured r)) = true.
Proof.
  intros H. apply RecordFacts.classify_document_structured in H.
  now apply RecordFacts.build_structured_ok in H.
Qed.

Lemma X1_no_number_extracted_witness :
  exists r,
    Classify.classify_document "balance_sheet.pdf" "Cash 100 Equity 50" = Py.Ok r
    /\ Classify.label r = "balance_sheet"
    /\ forallb (fun kv => negb (ClassifyRows.holds_number (snd kv)))
               (Classify.fields (Classify.structured r)) = true.
Proof.
  assert (H : exists r,
             Classify.classify_document "balance_sheet.pdf" "Cash 100 Equity 50" = Py.Ok r
             /\ Classify.label r = "balance_sheet").
  { vm_compute. eexists. split; reflexivity. }
  destruct H as (r & E & Hl). exists r. split; [exact E|]. split; [exact Hl|].
  exact (X1_no_number_extracted "balance_sheet.pdf" "Cash 100 Equity 50" r E).
Defined.

(** X2. Every record [classify_document] returns carries a missing field
    or a format error in the flags of its structured document. *)
Theorem X2_record_always_flagged (path text : string) (r : Classify.ClassificationRecord) :
  Classify.classify_document path text = Py.Ok r ->
  ClassifyRows.flagged (Classify.structured r) = true.
Proof.
  intros H. apply RecordFacts.classify_document_structured in H.
  now apply RecordFacts.build_structured_ok in H.
Qed.

Lemma X2_record_always_flagged_witness :
  exists r,
    Classify.classify_document "deal.pdf" "the contract between Acme and Bolt" = Py.Ok r
    /\ ClassifyRows.flagged (Classify.structured r) = true.
Proof.
  assert (H : exists r,
             Classify.classify_document "deal.pdf" "the contract between Acme and Bolt"
             = Py.Ok r).
  { vm_compute. eexists. reflexivity. }
  destruct H as (r & E). exists r. split; [exact E|].
  exact (X2_record_always_flagged "deal.pdf" "the contract between Acme and Bolt" r E).
Defined.

(** X3. [classify_document] raises exactly when the selected label is
    bank_statement and the text has a match of the transaction pattern,
    or the selected label is ar_aging and a line of the text has a match
    of the row pattern; on every other input it returns a record. *)
Theorem X3_classify_document_raises_iff (path text : string) :
  Classify.classify_document path text = Py.Raise Py.ValueError <->
  (Classify.label_of (Classify.best_match path text) = "bank_statement"
   /\ Re.findall ClassifyRows.transaction_pattern false text <> [])
  \/ (Classify.label_of (Classify.best_match path text) = "ar_aging"
      /\ ClassifyRows.aging_rows text <> []).
Proof.
  rewrite <- RecordFacts.build_structured_raises.
  rewrite ClassifyFacts.classify_document_spec.
  destruct (Classify._build_structured _ text) as [st|[]]; cbn [Py.bind].
  - split; intros X; discriminate X.
  - split; reflexivity.
Qed.

(** X3 at a bank statement whose text has a match of the transaction
    pattern. *)
Lemma X3_classify_document_raises_iff_witness :
  Classify.classify_document "bank_statement.pdf" "\d/\d/\ddd" = Py.Raise Py.ValueError.
Proof.
  apply (X3_classify_document_raises_iff "bank_statement.pdf" "\d/\d/\ddd").
  left. split; [vm_compute; reflexivity|]. vm_compute. intros X. discriminate X.
Defined.

(** X4. The label and the confidence of a returned record: the label is
    the first archetype with the highest score (unknown when no pattern
    hits), the confidence is that score as a percentage, it is one of 0,
    25, 50, 75 and 100, and it is 0 exactly for the label unknown. *)
Theorem X4_returned_label_and_confidence
        (path text : string) (r : Classify.ClassificationRecord) :
  Classify.classify_document path text = Py.Ok r ->
  exists score,
    Classify.selected (Classify.archetype_scores path text) (Classify.label r) score
    /\ (Classify.confidence r == score * 100)%Q
    /\ (Classify.label r = "unknown" <-> (Classify.confidence r == 0)%Q)
    /\ ((Classify.confidence r == 0)%Q \/ (Classify.confidence r == 25)%Q
        \/ (Classify.confidence r == 50)%Q \/ (Classify.confidence r == 75)%Q
        \/ (Classify.confidence r == 100)%Q).
Proof.
  intros H. apply ClassifyFacts.classify_document_fields in H. destruct H as [Hl Hc].
  exists (Classify.conf_of (Classify.best_match path text)).
  pose proof (ClassifyFacts.best_match_selected path text) as Hsel.
  destruct (ClassifyFacts.best_match_percentage path text) as [Hr _].
  rewrite Hl, Hc. split; [exact Hsel|]. split; [exact Hr|]. rewrite Hr.
  split.
  - destruct Hsel as [(Hu & Hz & _) | (before & after & Htab & Hpos & _)].
    + rewrite Hu, Hz. split; reflexivity.
    + split.
      * intros Hu. exfalso.
        apply (RecordFacts.table_label_known
                 (Classify.label_of (Classify.best_match path text))
                 (Classify.conf_of (Classify.best_match path text)) path text);
          [|exact Hu].
        rewrite Htab. apply in_or_app. right. now left.
      * intros Hz. exfalso.
        assert (Hp : (0 < Classify.conf_of (Classify.best_match path text) * 100)%Q).
        { apply Qmult_lt_0_compat; [exact Hpos | reflexivity]. }
        rewrite Hz in Hp. discriminate Hp.
  - destruct (ClassifyFacts.best_match_conf path text) as [-> | (hits & ->)];
      [left; reflexivity|].
    destruct (ClassifyFacts.spec_score_cases hits)
      as [[_ ->] | [[_ ->] | [[_ ->] | [[_ ->] | [_ ->]]]]];
      [left | right; left | do 2 right; left | do 3 right; left | do 4 right];
      reflexivity.
Qed.

Lemma X4_returned_label_and_confidence_witness :
  exists r,
    Classify.classify_document "notes.pdf" "minutes of the meeting" = Py.Ok r
    /\ Classify.label r = "unknown"
    /\ (Classify.confidence r == 0)%Q.
Proof.
  assert (H : exists r,
             Classify.classify_document "notes.pdf" "minutes of the meeting" = Py.Ok r
             /\ Classify.label r = "unknown").
  { vm_compute. eexists. split; reflexivity. }
  destruct H as (r & E & Hl). exists r. split; [exact E|]. split; [exact Hl|].
  destruct (X4_returned_label_and_confidence "notes.pdf" "minutes of the meeting" r E)
    as (score & _ & _ & Hiff & _).
  apply Hiff. exact Hl.
Defined.

(* ===================================================================== *)
(** * More text, more hits *)
(* ===================================================================== *)

Module GrowthFacts.
Import Py Re Classify.

Lemma filter_length_le {A} (f g : A -> bool) (l : list A) :
  (forall x, f x = true -> g x = true) ->
  (List.length (List.filter f l) <= List.length (List.filter g l))%nat.
Proof.
  intros H. induction l as [|a l IH]; simpl; [lia|].
  destruct (f a) eqn:E.
  - rewrite (H a E). simpl. lia.
  - destruct (g a); simpl; lia.
Qed.

(** No pattern loses its hit when text is put around the text. *)
Lemma hit_count_surrounded patterns before text after filename :
  (hit_count patterns text filename
   <= hit_count patterns (before +:+ text +:+ after) filename)%nat.
Proof.
  unfold hit_count. apply Nat.add_le_mono_l. apply filter_length_le.
  intros pattern. apply ReAppend.search_surrounded.
Qed.

End GrowthFacts.

(** X5. Putting more text before or after the text of a document never
    lowers the confidence [classify_document] reports for it. *)
Theorem X5_confidence_grows_with_text
        (path before text after : string) (r r' : Classify.ClassificationRecord) :
  Classify.classify_document path text = Py.Ok r ->
  Classify.classify_document path (before +:+ text +:+ after) = Py.Ok r' ->
  (Classify.confidence r <= Classify.confidence r')%Q.
Proof.
  intros H H'.
  apply ClassifyFacts.classify_document_fields in H, H'.
  destruct H as [_ Hc]. destruct H' as [_ Hc']. rewrite Hc, Hc'.
  destruct (ClassifyFacts.best_match_percentage path text) as [E _].
  destruct (ClassifyFacts.best_match_percentage path (before +:+ text +:+ after)) as [E' _].
  rewrite E, E'. apply Qmult_le_compat_r; [|discriminate].
  apply ClassifyFacts.best_match_mono. intros patterns _.
  apply GrowthFacts.hit_count_surrounded.
Qed.

Lemma X5_confidence_grows_with_text_witness :
  exists r r',
    Classify.classify_document "deal.pdf" "the contract" = Py.Ok r
    /\ Classify.classify_document "deal.pdf" ("An agreement: " +:+ "the contract" +:+ " of sale")
       = Py.Ok r'
    /\ (Classify.confidence r == 25)%Q
    /\ (Classify.confidence r' == 50)%Q
    /\ (Classify.confidence r <= Classify.confidence r')%Q.
Proof.
  assert (H : exists r,
             Classify.classify_document "deal.pdf" "the contract" = Py.Ok r
             /\ (Classify.confidence r == 25)%Q).
  { vm_compute. eexists. split; [reflexivity | vm_compute; reflexivity]. }
  assert (H' : exists r',
             Classify.classify_document "deal.pdf"
               ("An agreement: " +:+ "the contract" +:+ " of sale") = Py.Ok r'
             /\ (Classify.confidence r' == 50)%Q).
  { vm_compute. eexists. split; [reflexivity | vm_compute; reflexivity]. }
  destruct H as (r & E & Hc). destruct H' as (r' & E' & Hc').
  exists r, r'. split; [exact E|]. split; [exact E'|].
  split; [exact Hc|]. split; [exact Hc'|].
  exact (X5_confidence_grows_with_text "deal.pdf" "An agreement: " "the contract" " of sale"
                                       r r' E E').
Defined.

(* ===================================================================== *)
(** * The validator and the lists it shares with the classifier *)
(* ===================================================================== *)

Module HeapFacts.
Import Py SchemaValidator ValidatorHeap.

Lemma grows_refl h : grows h h.
Proof. intros l v H. exists []. rewrite app_nil_r. auto. Qed.

Lemma grows_trans h1 h2 h3 : grows h1 h2 -> grows h2 h3 -> grows h1 h3.
Proof.
  intros H12 H23 l v H. destruct (H12 l v H) as (e1 & H2 & N1).
  destruct (H23 l _ H2) as (e2 & H3 & N2).
  exists (e1 ++ e2). rewrite app_assoc. split; [exact H3|].
  rewrite forallb_app, N1, N2. reflexivity.
Qed.

Lemma grows_alloc h v : grows h (snd (alloc h v)).
Proof.
  intros l x H. exists []. rewrite app_nil_r. split; [|reflexivity].
  simpl. now apply lookup_app_l_Some.
Qed.

Lemma grows_append h l x : note x = true -> grows h (append h l x).
Proof.
  intros Hx l' v H. unfold append, heap, loc in *.
  destruct (h !! l) as [w|] eqn:E; [|apply grows_refl; exact H].
  destruct (Nat.eq_dec l l') as [<- | Hne].
  - exists [x]. rewrite list_lookup_insert_eq by (eapply lookup_lt_Some; eauto).
    split; [congruence|]. simpl. now rewrite Hx.
  - exists []. rewrite app_nil_r, list_lookup_insert_ne by exact Hne. auto.
Qed.

Lemma grows_flag_list flags key h : grows h (snd (flag_list flags key h)).
Proof.
  unfold flag_list. destruct flags as [f|]; [destruct (key f)|];
    try apply grows_alloc. apply grows_refl.
Qed.

(** The location [flag_list] returns is one the classification names
    under the key, or a new one. *)
Lemma flag_list_loc flags key h :
  (exists f, flags = Some f /\ key f = Some (fst (flag_list flags key h))
             /\ snd (flag_list flags key h) = h)
  \/ (fst (flag_list flags key h) = List.length h
      /\ snd (flag_list flags key h) = h ++ [[]]).
Proof.
  unfold flag_list. destruct flags as [f|]; [destruct (key f) eqn:E|]; simpl; eauto.
Qed.

Lemma append_other h l x l' : l <> l' -> append h l x !! l' = h !! l'.
Proof.
  intros Hne. unfold append, heap, loc in *. destruct (h !! l); [|reflexivity].
  now apply list_lookup_insert_ne.
Qed.

Lemma append_at h l x v : h !! l = Some v -> append h l x !! l = Some (v ++ [x]).
Proof.
  intros H. unfold append, heap, loc in *. rewrite H.
  apply list_lookup_insert_eq. eapply lookup_lt_Some; eauto.
Qed.

(** ** One document *)

(** The two conditional appends of the loop body. *)
Lemma notes_at (h : heap) (l : loc) text v :
  h !! l = Some v ->
  let h4 := if _detect_dates text then h else append h l "missing dates" in
  let h5 := if (List.length (Re.findall "[A-Za-z]" false text) <? 20)%nat
               && (List.length (_extract_numbers text) <? 5)%nat
            then append h4 l "sparse content" else h4 in
  h5 !! l = Some (v ++ notes_of text).
Proof.
  intros H. unfold notes_of. cbv zeta.
  destruct (_detect_dates text);
    destruct ((List.length (Re.findall "[A-Za-z]" false text) <? 20)%nat
              && (List.length (_extract_numbers text) <? 5)%nat); cbn [app].
  - now apply append_at.
  - now rewrite app_nil_r.
  - rewrite (append_at _ _ _ (v ++ ["missing dates"])); [now rewrite <- app_assoc|].
    now apply append_at.
  - now apply append_at.
Qed.

Lemma notes_other (h : heap) (l l' : loc) text :
  l <> l' ->
  let h4 := if _detect_dates text then h else append h l "missing dates" in
  let h5 := if (List.length (Re.findall "[A-Za-z]" false text) <? 20)%nat
               && (List.length (_extract_numbers text) <? 5)%nat
            then append h4 l "sparse content" else h4 in
  h5 !! l' = h !! l'.
Proof.
  intros Hne. cbv zeta.
  destruct (_detect_dates text);
    destruct ((List.length (Re.findall "[A-Za-z]" false text) <? 20)%nat
              && (List.length (_extract_numbers text) <? 5)%nat);
    rewrite ?append_other by exact Hne; reflexivity.
Qed.

Lemma notes_grows (h : heap) (l : loc) text :
  let h4 := if _detect_dates text then h else append h l "missing dates" in
  let h5 := if (List.length (Re.findall "[A-Za-z]" false text) <? 20)%nat
               && (List.length (_extract_numbers text) <? 5)%nat
            then append h4 l "sparse content" else h4 in
  grows h h5.
Proof.
  cbv zeta.
  destruct (_detect_dates text);
    destruct ((List.length (Re.findall "[A-Za-z]" false text) <? 20)%nat
              && (List.length (_extract_numbers text) <? 5)%nat);
    repeat (first [apply grows_refl | eapply grows_trans; [|apply grows_append; reflexivity]]).
Qed.

(** The loop body, with the call of [detect_missing_months] resolved. *)
Lemma validate_one_eq cm st doc_path text st' :
  validate_one cm st (doc_path, text) = Ok st' ->
  let flags := match cm !! doc_path with
               | Some structured => r_flags structured
               | None => None
               end in
  let a1 := flag_list flags r_missing_fields (st_heap st) in
  let a2 := flag_list flags r_suspicious_values (snd a1) in
  let a3 := flag_list flags r_format_errors (snd a2) in
  let h4 := if _detect_dates text then snd a3
            else append (snd a3) (fst a3) "missing dates" in
  let h5 := if (List.length (Re.findall "[A-Za-z]" false text) <? 20)%nat
               && (List.length (_extract_numbers text) <? 5)%nat
            then append h4 (fst a3) "sparse content" else h4 in
  exists d,
    st_details st' = st_details st ++ [d]
    /\ st_heap st' = h5
    /\ d_path d = doc_path
    /\ d_has_dates d = _detect_dates text
    /\ d_numeric_values_found d = List.length (_extract_numbers text)
    /\ d_passes_numeric_presence d = (5 <? List.length (_extract_numbers text))%nat
    /\ d_missing_fields d = fst a1
    /\ d_format_errors d = fst a3.
Proof.
  unfold validate_one.
  rewrite PeriodFacts.detect_missing_months_total. cbn [bind]. cbv zeta.
  destruct (flag_list _ r_missing_fields _) as [l1 h1]. cbn [fst snd].
  destruct (flag_list _ r_suspicious_values _) as [l2 h2]. cbn [fst snd].
  destruct (flag_list _ r_format_errors _) as [l3 h3]. cbn [fst snd].
  intros H. apply PyFacts.Ok_inj in H. subst st'. cbn.
  eexists. split; [reflexivity|]. repeat split.
Qed.

(** One document leaves every list in place, with notes appended at
    most, and changes no list beyond the format_errors lists the
    classification names. *)
Lemma validate_one_frame cm st doc_path text st' :
  validate_one cm st (doc_path, text) = Ok st' ->
  grows (st_heap st) (st_heap st')
  /\ forall l x, st_heap st !! l = Some x -> ~ touched cm l -> st_heap st' !! l = Some x.
Proof.
  intros H. apply validate_one_eq in H. cbv zeta in H.
  destruct H as (d & _ & Hh & _).
  set (flags := match cm !! doc_path with
                | Some structured => r_flags structured
                | None => None
                end) in *.
  set (a1 := flag_list flags r_missing_fields (st_heap st)) in *.
  set (a2 := flag_list flags r_suspicious_values (snd a1)) in *.
  set (a3 := flag_list flags r_format_errors (snd a2)) in *.
  assert (G3 : grows (st_heap st) (snd a3)).
  { eapply grows_trans; [apply grows_flag_list|].
    eapply grows_trans; apply grows_flag_list. }
  split.
  - rewrite Hh. eapply grows_trans; [exact G3|]. apply notes_grows.
  - intros l x Hl Hnot. rewrite Hh.
    assert (Hkeep : snd a3 !! l = Some x).
    { assert (K : forall fl key (h : heap), h !! l = Some x ->
                                             snd (flag_list fl key h) !! l = Some x).
      { intros fl key h Hx. unfold flag_list.
        destruct fl as [f|]; [destruct (key f)|]; simpl; auto;
          now apply lookup_app_l_Some. }
      subst a3 a2 a1. auto. }
    rewrite notes_other; [exact Hkeep|].
    intros E. subst l.
    destruct (flag_list_loc flags r_format_errors (snd a2)) as [(f & Hf & Hk & _) | [Hfresh _]].
    + apply Hnot. subst flags.
      destruct (cm !! doc_path) as [s|] eqn:Ecm; [|discriminate Hf].
      exists doc_path, s, f. auto.
    + fold a3 in Hfresh.
      assert (Hlen : (fst a3 < List.length (st_heap st))%nat)
        by (eapply lookup_lt_Some; exact Hl).
      assert (Hmono : (List.length (st_heap st) <= List.length (snd a2))%nat).
      { assert (K : forall fl key (h : heap),
                   (List.length h <= List.length (snd (flag_list fl key h)))%nat).
        { intros fl key h. unfold flag_list.
          destruct fl as [f|]; [destruct (key f)|]; simpl; rewrite ?length_app; simpl; lia. }
        subst a2 a1. etransitivity; [apply K|apply K]. }
      lia.
Qed.

Lemma validate_loop_frame cm items st st' :
  validate_loop cm items st = Ok st' ->
  grows (st_heap st) (st_heap st')
  /\ forall l x, st_heap st !! l = Some x -> ~ touched cm l -> st_heap st' !! l = Some x.
Proof.
  revert st. induction items as [|[doc_path text] items IH]; intros st H; cbn [validate_loop] in H.
  - apply PyFacts.Ok_inj in H. subst st'. split; [apply grows_refl | auto].
  - destruct (validate_one cm st (doc_path, text)) as [st1|] eqn:E; [|discriminate H].
    cbn [bind] in H. apply validate_one_frame in E. apply IH in H.
    destruct E as [G1 F1]. destruct H as [G2 F2].
    split; [eapply grows_trans; eauto | auto].
Qed.

(** The entries of the classification map come from the documents. *)
Lemma classification_map_from docs (m : gmap string StructuredRef) doc_path s :
  fold_left (fun m doc =>
               <[doc.(r_path) := default {| r_flags := None |} doc.(r_structured)]> m)
            docs m !! doc_path = Some s ->
  m !! doc_path = Some s
  \/ exists doc, In doc docs /\ r_path doc = doc_path
                 /\ s = default {| r_flags := None |} (r_structured doc).
Proof.
  revert m. induction docs as [|doc docs IH]; intros m H; cbn [fold_left] in H.
  - now left.
  - apply IH in H. destruct H as [H | (d & Hd & Hp & Hs)].
    + apply lookup_insert_Some in H. destruct H as [[Hp Hs] | [_ H]].
      * right. exists doc. split; [now left | auto].
      * now left.
    + right. exists d. split; [now right | auto].
Qed.

Lemma touched_format_error_locs classification l :
  touched (build_classification_map classification) l ->
  In l (format_error_locs classification).
Proof.
  intros (doc_path & s & f & Hcm & Hf & Hl).
  destruct classification as [docs|]; cbn [build_classification_map] in Hcm.
  - apply classification_map_from in Hcm.
    destruct Hcm as [Hcm | (doc & Hd & _ & Hs)]; [rewrite lookup_empty in Hcm; discriminate Hcm|].
    cbn [format_error_locs]. apply in_flat_map. exists doc. split; [exact Hd|].
    destruct (r_structured doc) as [s'|]; cbn [default] in Hs; subst s;
      [|discriminate Hf].
    destruct s' as [[f'|]]; cbn [r_flags] in Hf; [|discriminate Hf].
    injection Hf as ->.
    destruct f as [a b [c|]]; cbn [r_format_errors] in Hl; [|discriminate Hl].
    injection Hl as ->. now left.
  - rewrite lookup_empty in Hcm. discriminate Hcm.
Qed.

End HeapFacts.

(** X6. The validator keeps every list object it is given and appends
    nothing to it but the notes missing dates and sparse content; a list
    that is not a format_errors list of the classification report is
    left as it was. *)
Theorem X6_validator_only_appends_notes
        (pdf_texts : list (string * string))
        (classification : option (list SchemaValidator.DocRef))
        (h h' : SchemaValidator.heap) (report : SchemaValidator.ValidationReport) :
  SchemaValidator.validate_documents pdf_texts classification h = Py.Ok (report, h') ->
  (forall l v, h !! l = Some v ->
     exists extra, h' !! l = Some (v ++ extra)
                   /\ forallb ValidatorHeap.note extra = true)
  /\ (forall l v, h !! l = Some v ->
        ~ In l (ValidatorHeap.format_error_locs classification) ->
        h' !! l = Some v).
Proof.
  unfold SchemaValidator.validate_documents.
  destruct (SchemaValidator.validate_loop _ pdf_texts _) as [st|] eqn:E;
    [|intros X; discriminate X].
  cbn [Py.bind].
  destruct (SchemaValidator.period_years _) as [ys|]; [|intros X; discriminate X].
  cbn [Py.bind]. intros H. apply PyFacts.Ok_inj in H.
  apply (f_equal snd) in H. cbn [snd] in H. subst h'.
  apply HeapFacts.validate_loop_frame in E. cbn [SchemaValidator.st_heap] in E.
  destruct E as [G F]. split; [exact G|].
  intros l v Hl Hnot. apply (F l v Hl). intros Ht. apply Hnot.
  now apply HeapFacts.touched_format_error_locs.
Qed.

(** X6 at a document without dates: the note goes to the format_errors
    list of the classification, the missing_fields list is as it was. *)
Lemma X6_validator_only_appends_notes_witness :
  exists report h',
    SchemaValidator.validate_documents
      [("a.pdf", "no period in sight")]
      (Some [ {| SchemaValidator.r_path := "a.pdf";
                 SchemaValidator.r_structured :=
                   Some {| SchemaValidator.r_flags :=
                             Some {| SchemaValidator.r_missing_fields := Some 0%nat;
                                     SchemaValidator.r_suspicious_values := Some 1%nat;
                                     SchemaValidator.r_format_errors := Some 2%nat |} |} |} ])
      [["revenue"]; []; []]
    = Py.Ok (report, h')
    /\ h' !! 0%nat = Some ["revenue"]
    /\ h' !! 2%nat = Some ["missing dates"; "sparse content"].
Proof.
  assert (H : exists report h',
             SchemaValidator.validate_documents
               [("a.pdf", "no period in sight")]
               (Some [ {| SchemaValidator.r_path := "a.pdf";
                          SchemaValidator.r_structured :=
                            Some {| SchemaValidator.r_flags :=
                                      Some {| SchemaValidator.r_missing_fields := Some 0%nat;
                                              SchemaValidator.r_suspicious_values := Some 1%nat;
                                              SchemaValidator.r_format_errors := Some 2%nat |} |} |} ])
               [["revenue"]; []; []]
             = Py.Ok (report, h')
             /\ h' !! 2%nat = Some ["missing dates"; "sparse content"]).
  { vm_compute. do 2 eexists. split; reflexivity. }
  destruct H as (report & h' & E & H2). exists report, h'.
  split; [exact E|]. split; [|exact H2].
  apply (proj2 (X6_validator_only_appends_notes _ _ _ _ _ E) 0%nat ["revenue"] eq_refl).
  cbn. intros [X | []]. discriminate X.
Defined.

(* ===================================================================== *)
(** * Classification followed by validation *)
(* ===================================================================== *)

Module PipelineFacts.
Import Py Classify SchemaValidator ValidatorHeap ClassifyRows HeapFacts.

Lemma mapM_Forall2 {A B} (f : A -> result B) (l : list A) (bs : list B) :
  mapM f l = Ok bs -> Forall2 (fun a b => f a = Ok b) l bs.
Proof.
  revert bs. induction l as [|a l IH]; intros bs H; cbn [mapM] in H.
  - apply PyFacts.Ok_inj in H. subst bs. constructor.
  - destruct (f a) as [b|] eqn:E; [|discriminate H]. cbn [bind] in H.
    destruct (mapM f l) as [bs'|]; [|discriminate H]. cbn [bind] in H.
    apply PyFacts.Ok_inj in H. subst bs. constructor; [exact E | now apply IH].
Qed.

(** The records of a report: one per document, in order, each flagged. *)
Lemma classify_documents_records pdf_texts label_map rep :
  classify_documents pdf_texts label_map = Ok rep ->
  Forall2 (fun item d => path d = fst item
                         /\ flagged (structured d) = true
                         /\ exists r, classify_document (fst item) (snd item) = Ok r
                                      /\ label d = label r
                                      /\ confidence d = confidence r
                                      /\ structured d = structured r)
          pdf_texts (documents rep).
Proof.
  unfold classify_documents.
  destruct (mapM _ pdf_texts) as [docs|] eqn:E; [|intros X; discriminate X].
  cbn [bind]. intros H. apply PyFacts.Ok_inj in H. subst rep. cbn [documents].
  apply mapM_Forall2 in E.
  eapply Forall2_impl; [exact E|].
  intros [doc_path text] d Hd. cbn [fst snd].
  destruct (classify_document doc_path text) as [r|] eqn:Er; [|discriminate Hd].
  cbn [bind] in Hd. apply PyFacts.Ok_inj in Hd.
  pose proof (RecordFacts.classify_document_structured _ _ _ Er) as Hst.
  apply RecordFacts.build_structured_ok in Hst. destruct Hst as [_ Hfl].
  assert (Hp : path r = doc_path).
  { rewrite ClassifyFacts.classify_document_spec in Er.
    destruct (_build_structured _ text); [|discriminate Er].
    apply PyFacts.Ok_inj in Er. now subst r. }
  destruct (decide (label_map = ∅)); subst d; cbn [path structured label confidence];
    (split; [exact Hp|]); (split; [exact Hfl|]); exists r; auto.
Qed.

Lemma store_doc_spec d (h : heap) :
  (forall l x, h !! l = Some x -> snd (store_doc d h) !! l = Some x)
  /\ stored (snd (store_doc d h)) d (fst (store_doc d h)).
Proof.
  unfold store_doc, alloc, heap, loc in *. cbn [fst snd].
  split.
  - intros l x H. now do 3 apply lookup_app_l_Some.
  - split; [reflexivity|]. do 3 eexists. split; [reflexivity|].
    rewrite <- !app_assoc. cbn [app].
    split; [|split].
    + apply list_lookup_middle. reflexivity.
    + change (h ++ [?a; ?b; ?c]) with (h ++ [a] ++ [b; c]).
      rewrite app_assoc. apply list_lookup_middle. reflexivity.
    + change (h ++ [?a; ?b; ?c]) with (h ++ [a; b] ++ [c]).
      rewrite app_assoc. apply list_lookup_middle. reflexivity.
Qed.

Lemma stored_keeps (h h' : heap) d doc :
  (forall l x, h !! l = Some x -> h' !! l = Some x) -> stored h d doc -> stored h' d doc.
Proof.
  intros K (Hp & l1 & l2 & l3 & Hs & H1 & H2 & H3).
  split; [exact Hp|]. exists l1, l2, l3. auto.
Qed.

Lemma store_report_spec ds (h : heap) :
  (forall l x, h !! l = Some x -> snd (store_report ds h) !! l = Some x)
  /\ Forall2 (stored (snd (store_report ds h))) ds (fst (store_report ds h)).
Proof.
  revert h. induction ds as [|d ds IH]; intros h; cbn [store_report].
  - split; [auto | constructor].
  - destruct (store_doc_spec d h) as [K1 S1].
    destruct (store_doc d h) as [r h1]. cbn [fst snd] in *.
    destruct (IH h1) as [K2 S2].
    destruct (store_report ds h1) as [rs h2]. cbn [fst snd] in *.
    split; [auto|]. constructor; [|exact S2].
    eapply stored_keeps; eauto.
Qed.

Lemma nonempty_app {A} (v e : list A) : nonempty v = true -> nonempty (v ++ e) = true.
Proof. destruct v; [discriminate | reflexivity]. Qed.

Lemma flagged_ref_grows h h' s : grows h h' -> flagged_ref h s -> flagged_ref h' s.
Proof.
  intros G (l1 & l2 & l3 & v1 & v3 & Hs & H1 & H3 & Hne).
  destruct (G _ _ H1) as (e1 & H1' & _). destruct (G _ _ H3) as (e3 & H3' & _).
  exists l1, l2, l3, (v1 ++ e1), (v3 ++ e3). split; [exact Hs|].
  split; [exact H1'|]. split; [exact H3'|].
  apply orb_true_iff in Hne. apply orb_true_iff.
  destruct Hne as [Hne | Hne]; [left | right]; now apply nonempty_app.
Qed.

Lemma flagged_detail_grows h h' d : grows h h' -> flagged_detail h d -> flagged_detail h' d.
Proof.
  intros G (v1 & v3 & H1 & H3 & Hne).
  destruct (G _ _ H1) as (e1 & H1' & _). destruct (G _ _ H3) as (e3 & H3' & _).
  exists (v1 ++ e1), (v3 ++ e3). split; [exact H1'|]. split; [exact H3'|].
  apply orb_true_iff in Hne. apply orb_true_iff.
  destruct Hne as [Hne | Hne]; [left | right]; now apply nonempty_app.
Qed.

Lemma flagged_detail_fails h d : flagged_detail h d -> fails_completeness h d = true.
Proof.
  intros (v1 & v3 & H1 & H3 & Hne). unfold fails_completeness, deref.
  rewrite H1, H3. cbn. cbn in Hne. rewrite Hne. reflexivity.
Qed.

(** A document whose entry is flagged gives a flagged detail. *)
Lemma validate_one_flagged cm h0 st doc_path text st' s :
  cm !! doc_path = Some s ->
  flagged_ref h0 s ->
  grows h0 (st_heap st) ->
  Forall (flagged_detail (st_heap st)) (st_details st) ->
  validate_one cm st (doc_path, text) = Ok st' ->
  grows h0 (st_heap st') /\ Forall (flagged_detail (st_heap st')) (st_details st').
Proof.
  intros Hcm Hs G0 Hall H.
  pose proof (validate_one_frame _ _ _ _ _ H) as [G _].
  assert (G' : grows h0 (st_heap st')) by (eapply grows_trans; eauto).
  split; [exact G'|].
  apply validate_one_eq in H. cbv zeta in H. rewrite Hcm in H.
  destruct (flagged_ref_grows _ _ _ G' Hs) as (l1 & l2 & l3 & v1 & v3 & Hf & H1 & H3 & Hne).
  rewrite Hf in H. cbn [flag_list r_missing_fields r_suspicious_values r_format_errors
                        fst snd] in H.
  destruct H as (d & Hd & _ & _ & _ & _ & _ & Hm & Hfe).
  rewrite Hd. apply Forall_app. split.
  - eapply List.Forall_impl; [|exact Hall]. intros d0. now apply flagged_detail_grows.
  - constructor; [|constructor]. exists v1, v3. rewrite Hm, Hfe. auto.
Qed.

Lemma validate_loop_flagged cm h0 items st st' :
  (forall item, In item items ->
     exists s, cm !! fst item = Some s /\ flagged_ref h0 s) ->
  grows h0 (st_heap st) ->
  Forall (flagged_detail (st_heap st)) (st_details st) ->
  validate_loop cm items st = Ok st' ->
  Forall (flagged_detail (st_heap st')) (st_details st').
Proof.
  revert st. induction items as [|[doc_path text] items IH]; intros st Hcm G Hall H;
    cbn [validate_loop] in H.
  - apply PyFacts.Ok_inj in H. now subst st'.
  - destruct (validate_one cm st (doc_path, text)) as [st1|] eqn:E; [|discriminate H].
    cbn [bind] in H.
    destruct (Hcm (doc_path, text) (or_introl eq_refl)) as (s & Hs & Hfl).
    destruct (validate_one_flagged _ _ _ _ _ _ _ Hs Hfl G Hall E) as [G1 Hall1].
    apply (IH st1); auto. intros item Hin. apply Hcm. now right.
Qed.

(** Every path of the documents has an entry in the classification map,
    and every entry is the one of a document. *)
Lemma classification_map_keeps docs (m : gmap string StructuredRef) doc_path :
  is_Some (m !! doc_path) ->
  is_Some (fold_left (fun m doc =>
                        <[doc.(r_path) := default {| r_flags := None |} doc.(r_structured)]> m)
                     docs m !! doc_path).
Proof.
  revert m. induction docs as [|doc docs IH]; intros m H; cbn [fold_left]; [exact H|].
  apply IH. destruct (decide (r_path doc = doc_path)) as [<- | Hne].
  - rewrite lookup_insert_eq. eauto.
  - now rewrite lookup_insert_ne.
Qed.

Lemma classification_map_has docs (m : gmap string StructuredRef) doc_path :
  In doc_path (map r_path docs) ->
  is_Some (fold_left (fun m doc =>
                        <[doc.(r_path) := default {| r_flags := None |} doc.(r_structured)]> m)
                     docs m !! doc_path).
Proof.
  revert m. induction docs as [|doc docs IH]; intros m H; cbn [fold_left]; [destruct H|].
  destruct H as [<- | H]; [|now apply IH].
  apply classification_map_keeps. rewrite lookup_insert_eq. eauto.
Qed.

Lemma Forall2_In_r {A B} (R : A -> B -> Prop) l l' b :
  Forall2 R l l' -> In b l' -> exists a, In a l /\ R a b.
Proof.
  induction 1 as [|x y l l' Hxy H IH]; intros Hin; [destruct Hin|].
  destruct Hin as [<- | Hin].
  - exists x. split; [now left | exact Hxy].
  - destruct (IH Hin) as (a & Ha & HR). exists a. split; [now right | exact HR].
Qed.

Lemma Forall2_In_l {A B} (R : A -> B -> Prop) l l' a :
  Forall2 R l l' -> In a l -> exists b, In b l' /\ R a b.
Proof.
  induction 1 as [|x y l l' Hxy H IH]; intros Hin; [destruct Hin|].
  destruct Hin as [<- | Hin].
  - exists y. split; [now left | exact Hxy].
  - destruct (IH Hin) as (b & Hb & HR). exists b. split; [now right | exact HR].
Qed.

Lemma filter_all {A} (f : A -> bool) (l : list A) :
  Forall (fun x => f x = true) l -> List.filter f l = l.
Proof.
  induction 1 as [|x l Hx H IH]; simpl; [reflexivity|]. now rewrite Hx, IH.
Qed.

(** Classification, then validation: every document fails. *)
Lemma pipeline_never_passes
        (pdf_texts : list (string * string)) (label_map : gmap string Z)
        (docs : list SchemaValidator.DocRef) (h0 h1 : SchemaValidator.heap)
        (report : SchemaValidator.ValidationReport) :
  Pipeline.classify_then_validate pdf_texts label_map = Py.Ok (docs, h0, report, h1) ->
  SchemaValidator.completeness_failures (SchemaValidator.summary report)
  = List.length pdf_texts
  /\ (pdf_texts <> [] ->
      SchemaValidator.passes (SchemaValidator.summary report) = false).
Proof.
  unfold Pipeline.classify_then_validate.
  destruct (Classify.classify_documents pdf_texts label_map) as [rep|] eqn:Ec;
    [|intros X; discriminate X].
  cbn [Py.bind].
  pose proof (classify_documents_records _ _ _ Ec) as Hrec.
  destruct (store_report_spec (Classify.documents rep) []) as [_ Hst].
  destruct (SchemaValidator.store_report (Classify.documents rep) []) as [docs0 hs].
  cbn [fst snd] in Hst.
  unfold SchemaValidator.validate_documents.
  set (cm := SchemaValidator.build_classification_map (Some docs0)).
  set (st0 := {| SchemaValidator.st_details := [];
                 SchemaValidator.st_all_periods := [];
                 SchemaValidator.st_missing_months_global := [];
                 SchemaValidator.st_heap := hs |}).
  destruct (SchemaValidator.validate_loop cm pdf_texts st0) as [st|] eqn:El;
    [|intros X; discriminate X].
  cbn [Py.bind].
  destruct (SchemaValidator.period_years _) as [ys|]; [|intros X; discriminate X].
  cbn [Py.bind]. intros H. apply PyFacts.Ok_inj in H.
  apply (f_equal (fun t => snd (fst t))) in H. cbn [fst snd] in H. subst report.
  cbn [SchemaValidator.summary SchemaValidator.completeness_failures SchemaValidator.passes].
  assert (Hcm : forall item, In item pdf_texts ->
                  exists s, cm !! fst item = Some s /\ ValidatorHeap.flagged_ref hs s).
  { intros item Hin.
    assert (Hsome : is_Some (cm !! fst item)).
    { apply classification_map_has.
      destruct (Forall2_In_l _ _ _ _ Hrec Hin) as (d & Hd & Hp & _).
      destruct (Forall2_In_l _ _ _ _ Hst Hd) as (doc & Hdoc & Hp' & _).
      apply in_map_iff. exists doc. split; [congruence | exact Hdoc]. }
    destruct Hsome as (s & Hs). exists s. split; [exact Hs|].
    apply HeapFacts.classification_map_from in Hs.
    destruct Hs as [Hs | (doc & Hdoc & _ & ->)];
      [rewrite lookup_empty in Hs; discriminate Hs|].
    destruct (Forall2_In_r _ _ _ _ Hst Hdoc)
      as (d & Hd & _ & l1 & l2 & l3 & Hs & H1 & _ & H3).
    destruct (Forall2_In_r _ _ _ _ Hrec Hd) as (item' & _ & _ & Hfl & _).
    rewrite Hs. cbn [default].
    exists l1, l2, l3. do 2 eexists. split; [reflexivity|].
    split; [exact H1|]. split; [exact H3|]. exact Hfl. }
  assert (Hall : Forall (ValidatorHeap.flagged_detail (SchemaValidator.st_heap st))
                        (SchemaValidator.st_details st)).
  { apply (validate_loop_flagged cm hs pdf_texts st0 st Hcm);
      [apply HeapFacts.grows_refl | constructor | exact El]. }
  destruct (ValidatorFacts.validate_loop_details _ _ _ _ El) as (ds & Hds & Hrel).
  cbn [SchemaValidator.st_details st0 app] in Hds.
  assert (Hlen : List.length (SchemaValidator.st_details st) = List.length pdf_texts).
  { rewrite Hds. eapply Forall2_length; eauto. }
  rewrite filter_all.
  2: { eapply List.Forall_impl; [|exact Hall].
       intros d. apply flagged_detail_fails. }
  split; [exact Hlen|].
  intros Hne. rewrite Hlen.
  destruct pdf_texts; [congruence|]. cbn [List.length Nat.eqb]. apply andb_false_r.
Qed.

End PipelineFacts.

(** X7. Classification followed by validation, as [run_pipeline] runs
    them: whenever both stages return, every document is a completeness
    failure, and no package with a document passes the validation. *)
Theorem X7_pipeline_never_passes
        (pdf_texts : list (string * string)) (label_map : gmap string Z)
        (docs : list SchemaValidator.DocRef) (h0 h1 : SchemaValidator.heap)
        (report : SchemaValidator.ValidationReport) :
  Pipeline.classify_then_validate pdf_texts label_map = Py.Ok (docs, h0, report, h1) ->
  SchemaValidator.completeness_failures (SchemaValidator.summary report)
  = List.length pdf_texts
  /\ (pdf_texts <> [] ->
      SchemaValidator.passes (SchemaValidator.summary report) = false).
Proof. apply PipelineFacts.pipeline_never_passes. Qed.

(** X7 at an income statement with a date and seven numbers. *)
Lemma X7_pipeline_never_passes_witness :
  exists docs h0 report h1,
    Pipeline.classify_then_validate
      [("income_statement.pdf",
        "Income Statement 2023-01 Revenue 100 COGS 40 Operating Expenses 20 EBITDA 40 Net Income 30")]
      ∅
    = Py.Ok (docs, h0, report, h1)
    /\ SchemaValidator.completeness_failures (SchemaValidator.summary report) = 1%nat
    /\ SchemaValidator.passes (SchemaValidator.summary report) = false.
Proof.
  assert (H : exists docs h0 report h1,
             Pipeline.classify_then_validate
               [("income_statement.pdf",
                 "Income Statement 2023-01 Revenue 100 COGS 40 Operating Expenses 20 EBITDA 40 Net Income 30")]
               ∅
             = Py.Ok (docs, h0, report, h1)).
  { vm_compute. do 4 eexists. reflexivity. }
  destruct H as (docs & h0 & report & h1 & E). exists docs, h0, report, h1.
  split; [exact E|].
  destruct (X7_pipeline_never_passes _ _ _ _ _ _ E) as [Hn Hp].
  split; [exact Hn | apply Hp; intros X; discriminate X].
Defined.

(* ===================================================================== *)
(** * The scans of scorer.py *)
(* ===================================================================== *)

Module ScanFacts.
Import Py Re ReFacts Scorer.

(** A match found by [findall] is a piece of the text. *)
Lemma findall_from_sub ic r fuel s mo :
  In mo (findall_from fuel ic r s) ->
  exists before after, s = before ++ m_whole mo ++ after.
Proof.
  revert s. induction fuel as [|f IH]; intros s H; cbn [findall_from] in H; [destruct H|].
  destruct (search_from ic r s 0) as [m0|] eqn:E; [|destruct H].
  apply search_from_sound in E. destruct E as (_ & before & Hs).
  destruct H as [<- | H]; [eauto|].
  assert (Hrest : forall t pre,
             m_rest m0 = pre ++ t -> In mo (findall_from f ic r t) ->
             exists before' after, s = before' ++ m_whole mo ++ after).
  { intros t pre Ht Hin. destruct (IH _ Hin) as (b & a & ->).
    exists (before ++ m_whole m0 ++ pre ++ b), a.
    rewrite Hs, Ht. now rewrite <- !app_assoc. }
  destruct (m_whole m0) as [|x xs] eqn:Ew.
  - destruct (m_rest m0) as [|y t] eqn:Er; [destruct H|].
    apply (Hrest t [y]); [reflexivity | exact H].
  - apply (Hrest (m_rest m0) []); [reflexivity | exact H].
Qed.

Lemma drop_while_nil p l : drop_while p l = [] -> forallb p l = true.
Proof.
  induction l as [|a l IH]; simpl; [reflexivity|].
  destruct (p a); [exact IH | discriminate].
Qed.

Lemma drop_while_all p l : forallb p l = true -> drop_while p l = [].
Proof.
  induction l as [|a l IH]; simpl; [reflexivity|].
  destruct (p a); [exact IH | discriminate].
Qed.

(** A text that [strip] empties is made of whitespace. *)
Lemma strip_empty s : strip s = "" -> forallb is_space (chars s) = true.
Proof.
  unfold strip, strip_with. intros H.
  apply (f_equal chars) in H. rewrite PyFacts.chars_str in H. cbn in H.
  apply (f_equal (@rev ascii)) in H. rewrite rev_involutive in H. cbn in H.
  apply drop_while_nil in H.
  assert (Hd : forallb is_space (drop_while is_space (chars s)) = true).
  { rewrite forallb_forall in *. intros a Ha. apply H. now apply -> in_rev. }
  destruct (drop_while is_space (chars s)) as [|a l] eqn:E;
    [now apply drop_while_nil|].
  exfalso. clear H.
  assert (Ha : is_space a = false).
  { revert E. induction (chars s) as [|b t IHt]; simpl; [discriminate|].
    destruct (is_space b) eqn:Eb; [exact IHt|]. intros X. injection X as <- _. exact Eb. }
  simpl in Hd. rewrite Ha in Hd. discriminate Hd.
Qed.

Lemma compile_number :
  compile "-?\d[\d,\.]*"
  = Cat (Repeat 0 (Some 1%nat) true (Lit "-"))
        (Cat (CharSet false [CDigit])
             (Repeat 0 None true
                     (CharSet false [CDigit; CRange "," ","; CRange "." "."]))).
Proof. reflexivity. Qed.

(** A match of the number pattern of the scan holds a digit. *)
Lemma number_has_digit w c c' :
  matches false (compile "-?\d[\d,\.]*") w c c' -> existsb is_digit w = true.
Proof.
  rewrite compile_number. intros H.
  apply m_cat in H. destruct H as (w1 & w2 & c1 & -> & _ & H).
  apply m_cat in H. destruct H as (w3 & w4 & c2 & -> & Hd & _).
  apply m_set in Hd. destruct Hd as (a & -> & Ha & _).
  apply PeriodFacts.digit_class_ok in Ha.
  rewrite existsb_app. cbn [app existsb]. rewrite Ha. apply orb_true_r.
Qed.

Lemma no_number_in_blank s :
  forallb is_space (chars s) = true -> findall "-?\d[\d,\.]*" false s = [].
Proof.
  intros Hs. destruct (findall "-?\d[\d,\.]*" false s) as [|mo l] eqn:E; [reflexivity|].
  exfalso.
  assert (Hin : In mo (findall "-?\d[\d,\.]*" false s)) by (rewrite E; now left).
  pose proof (findall_sound _ _ _ _ Hin) as Hm.
  apply number_has_digit in Hm. apply existsb_exists in Hm. destruct Hm as (a & Ha & Hd).
  apply findall_from_sub in Hin. destruct Hin as (before & after & Hsub).
  rewrite forallb_forall in Hs.
  assert (Hsp : is_space a = true).
  { apply Hs. rewrite Hsub. apply in_or_app. right. apply in_or_app. now left. }
  rewrite (PeriodFacts.digit_not_space _ Hd) in Hsp. discriminate Hsp.
Qed.

(** Every PDF reported corrupt is also reported sparse. *)
Lemma corrupt_is_sparse w paths p :
  In p (_scan_for_corrupt_pdfs w paths) -> In p (_scan_for_sparse_content w paths).
Proof.
  unfold _scan_for_corrupt_pdfs, _scan_for_sparse_content.
  rewrite !filter_In. intros [Hin H]. split; [exact Hin|].
  apply andb_true_iff in H. destruct H as [Hpdf Hc]. rewrite Hpdf. cbn [andb].
  unfold detect_corrupt_pdf in Hc. apply String.eqb_eq in Hc.
  rewrite (no_number_in_blank _ (strip_empty _ Hc)). reflexivity.
Qed.

Lemma corrupt_length w paths :
  (List.length (_scan_for_corrupt_pdfs w paths)
   <= List.length (_scan_for_sparse_content w paths))%nat.
Proof.
  unfold _scan_for_corrupt_pdfs, _scan_for_sparse_content.
  apply GrowthFacts.filter_length_le. intros p H.
  apply andb_true_iff in H. destruct H as [Hpdf Hc]. rewrite Hpdf. cbn [andb].
  unfold detect_corrupt_pdf in Hc. apply String.eqb_eq in Hc.
  rewrite (no_number_in_blank _ (strip_empty _ Hc)). reflexivity.
Qed.

End ScanFacts.

(** X8. In the result of [score_zip] for a well-formed archive, every
    PDF listed as corrupt is also listed as sparse, so that each corrupt
    PDF costs 35 points: the score is at most 100 - 35 for each of them. *)
Theorem X8_corrupt_pdf_counts_as_sparse
        (w : Scorer.World) (zip_path : string) (workdir : option string) :
  Scorer.is_zipfile w zip_path = true ->
  let r := fst (Scorer.score_zip w zip_path workdir) in
  exists sparse,
    Scorer.sparse_pdfs r = Some sparse
    /\ (forall p, In p (Scorer.corrupt_pdfs r) -> In p sparse)
    /\ (Scorer.total_score r
        <= Z.max 0 (100 - 35 * Z.of_nat (List.length (Scorer.corrupt_pdfs r))))%Z.
Proof.
  intros Hzip. unfold Scorer.score_zip. rewrite Hzip. cbn [negb].
  match goal with
  | |- context [Scorer._scan_for_corrupt_pdfs w ?ps] => set (paths := ps)
  end.
  pose proof (ScanFacts.corrupt_length w paths) as Hlen.
  destruct (Scorer.given workdir); cbn [fst Scorer.sparse_pdfs Scorer.corrupt_pdfs
                                        Scorer.total_score];
    (eexists; split; [reflexivity|]; split;
     [intros p; apply ScanFacts.corrupt_is_sparse | lia]).
Qed.

Lemma X8_corrupt_pdf_counts_as_sparse_witness :
  List.length (Scorer.corrupt_pdfs
                 (fst (Scorer.score_zip RunPipeline.blank_world "package.zip" None)))
  = 3%nat
  /\ Scorer.total_score (fst (Scorer.score_zip RunPipeline.blank_world "package.zip" None))
     = 0%Z
  /\ exists sparse,
       Scorer.sparse_pdfs (fst (Scorer.score_zip RunPipeline.blank_world "package.zip" None))
       = Some sparse
       /\ (forall p,
             In p (Scorer.corrupt_pdfs
                     (fst (Scorer.score_zip RunPipeline.blank_world "package.zip" None))) ->
             In p sparse)
       /\ (Scorer.total_score
             (fst (Scorer.score_zip RunPipeline.blank_world "package.zip" None))
           <= Z.max 0 (100 - 35 * Z.of_nat
                                    (List.length
                                       (Scorer.corrupt_pdfs
                                          (fst (Scorer.score_zip RunPipeline.blank_world
                                                                 "package.zip" None))))))%Z.
Proof.
  split; [vm_compute; reflexivity|]. split; [vm_compute; reflexivity|].
  exact (X8_corrupt_pdf_counts_as_sparse RunPipeline.blank_world "package.zip" None eq_refl).
Defined.

(* ===================================================================== *)
(** * The gate rules *)
(* ===================================================================== *)

Module WordsFacts.
Import Py Re ReFacts ReAlphabet ReWords.

Lemma In_power ic r n w c c' :
  (forall w c c', matches ic r w c c' -> In w (words ic r)) ->
  iter (matches ic r) n w c c' -> In w (power (words ic r) n).
Proof.
  intros Hr. revert w c. induction n as [|n IH]; intros w c H.
  - destruct H as [-> _]. now left.
  - destruct H as (w1 & w2 & c1 & -> & H1 & H2). cbn [power].
    apply in_flat_map. exists w1. split; [eapply Hr; eauto|].
    apply in_map. eapply IH; eauto.
Qed.

(** Every word a finite pattern matches is among its words. *)
Lemma words_sound ic r :
  finite r = true -> forall w c c', matches ic r w c c' -> In w (words ic r).
Proof.
  induction r as [| neg items | | r1 IH1 r2 IH2 | r1 IH1 r2 IH2
                 | lo hi greedy r IH | n r IH]; intros Hf w c c' H.
  - apply m_empty in H. destruct H as [-> _]. now left.
  - apply m_set in H. destruct H as (a & -> & Ha & _). cbn [words].
    apply (in_map (fun x => [x])). apply filter_In. split; [apply NumberFacts.In_all_ascii | exact Ha].
  - destruct H as (a & -> & Ha & _). cbn [words].
    apply (in_map (fun x => [x])). apply filter_In.
    split; [apply NumberFacts.In_all_ascii | now rewrite Ha].
  - cbn [finite] in Hf. apply andb_true_iff in Hf. destruct Hf as [Hf1 Hf2].
    apply m_cat in H. destruct H as (w1 & w2 & c1 & -> & H1 & H2). cbn [words].
    apply in_flat_map. exists w1. split; [eapply IH1; eauto|].
    apply in_map. eapply IH2; eauto.
  - cbn [finite] in Hf. apply andb_true_iff in Hf. destruct Hf as [Hf1 Hf2].
    apply m_alt in H. cbn [words]. apply in_or_app.
    destruct H as [H | H]; [left; eapply IH1 | right; eapply IH2]; eauto.
  - destruct hi as [hi|]; [|discriminate Hf]. cbn [finite] in Hf.
    apply m_rep in H. destruct H as (extra & Hex & Hit). cbn [words].
    specialize (Hex hi eq_refl).
    apply in_flat_map. exists extra. split; [apply in_seq; lia|].
    eapply In_power; [|exact Hit]. intros w' c1 c2. now apply IH.
  - cbn [finite] in Hf. apply m_group in H. destruct H as (c1 & H & _).
    cbn [words]. eapply IH; eauto.
Qed.

Lemma prefixb_app sub post : prefixb sub (sub ++ post) = true.
Proof.
  induction sub as [|a sub IH]; simpl; [reflexivity|].
  now rewrite Ascii.eqb_refl, IH.
Qed.

Lemma prefixb_inv sub l : prefixb sub l = true -> exists post, l = sub ++ post.
Proof.
  revert l. induction sub as [|a sub IH]; intros l H; simpl in *; [eauto|].
  destruct l as [|b l]; [discriminate H|].
  apply andb_true_iff in H. destruct H as [Hab H]. apply Ascii.eqb_eq in Hab. subst b.
  destruct (IH l H) as (post & ->). eauto.
Qed.

Lemma containsb_app sub pre post : containsb sub (pre ++ sub ++ post) = true.
Proof.
  induction pre as [|a pre IH].
  - cbn [app]. destruct (sub ++ post) eqn:E; cbn [containsb];
      rewrite <- E, prefixb_app; reflexivity.
  - cbn [app containsb]. rewrite IH. apply orb_true_r.
Qed.

Lemma containsb_inv sub l :
  containsb sub l = true -> exists pre post, l = pre ++ sub ++ post.
Proof.
  induction l as [|a l IH]; cbn [containsb]; intros H.
  - rewrite orb_false_r in H. apply prefixb_inv in H. destruct H as (post & ->).
    now exists [], post.
  - apply orb_true_iff in H. destruct H as [H | H].
    + apply prefixb_inv in H. destruct H as (post & ->). now exists [], post.
    + destruct (IH H) as (pre & post & ->). now exists (a :: pre), post.
Qed.

End WordsFacts.

Module GateFacts.
Import Py Re ReFacts ReWords GateRules GateSpec WordsFacts.

Lemma gate_patterns_finite :
  forallb (fun pattern =>
             is_Some_b (parse pattern) && finite (compile pattern)
             && forallb (fun key => found (search_from false (compile pattern) key 0))
                        (words false (compile pattern)))
          (flat_map snd REQUIRED_DOC_TYPES) = true.
Proof. vm_compute. reflexivity. Qed.

(** A name matches a pattern of the table exactly when it holds one of
    the words of the pattern. *)
Lemma pattern_found pattern name :
  In pattern (flat_map snd REQUIRED_DOC_TYPES) ->
  found (search pattern false name)
  = existsb (fun key => contains key name) (map str (words false (compile pattern))).
Proof.
  intros Hin.
  pose proof (proj1 (forallb_forall _ _) gate_patterns_finite pattern Hin) as Hp.
  apply andb_true_iff in Hp. destruct Hp as [Hp Hcomplete].
  apply andb_true_iff in Hp. destruct Hp as [_ Hfin].
  apply eq_true_iff_eq. split.
  - intros H. unfold search in H.
    destruct (search_from false (compile pattern) (chars name) 0) as [mo|] eqn:E;
      [|discriminate H].
    apply search_from_sound in E. destruct E as (Hm & before & Hs).
    apply (words_sound false _ Hfin) in Hm.
    apply existsb_exists. exists (str (m_whole mo)). split; [now apply in_map|].
    unfold contains. rewrite PyFacts.chars_str, Hs. apply containsb_app.
  - intros H. apply existsb_exists in H. destruct H as (key & Hkey & Hc).
    apply in_map_iff in Hkey. destruct Hkey as (w & <- & Hw).
    unfold contains in Hc. rewrite PyFacts.chars_str in Hc.
    apply containsb_inv in Hc. destruct Hc as (pre & post & Hs).
    unfold search. rewrite Hs.
    apply (ReAppend.search_from_prepend false _ _ pre 0 0).
    apply (ReAppend.search_from_app false _ w post 0 0).
    exact (proj1 (forallb_forall _ _) Hcomplete w Hw).
Qed.

Lemma existsb_flat_map {A B} (f : B -> bool) (g : A -> list B) (l : list A) :
  existsb f (flat_map g l) = existsb (fun a => existsb f (g a)) l.
Proof.
  induction l as [|a l IH]; simpl; [reflexivity|]. now rewrite existsb_app, IH.
Qed.

Lemma existsb_ext_in {A} (f g : A -> bool) (l : list A) :
  (forall x, In x l -> f x = g x) -> existsb f l = existsb g l.
Proof.
  induction l as [|a l IH]; intros H; simpl; [reflexivity|].
  rewrite (H a (or_introl eq_refl)), IH; [reflexivity|].
  intros x Hx. apply H. now right.
Qed.

Lemma existsb_negb_forallb {A} (f : A -> bool) (l : list A) :
  existsb f l = negb (forallb (fun x => negb (f x)) l).
Proof.
  induction l as [|a l IH]; simpl; [reflexivity|].
  rewrite IH. now destruct (f a).
Qed.

Lemma patterns_found patterns name :
  (forall pattern, In pattern patterns -> In pattern (flat_map snd REQUIRED_DOC_TYPES)) ->
  existsb (fun pattern => found (search pattern false name)) patterns
  = existsb (fun key => contains key name) (recognised patterns).
Proof.
  intros Hsub. unfold recognised. rewrite existsb_flat_map.
  apply existsb_ext_in. intros pattern Hin. apply pattern_found. now apply Hsub.
Qed.

(** The test of [find_missing_required] for one entry of the table. *)
Lemma entry_found patterns names :
  In patterns (map snd REQUIRED_DOC_TYPES) ->
  existsb (fun name =>
             existsb (fun pattern => found (search pattern false name)) patterns)
          (map lower names)
  = negb (forallb (fun name =>
                     forallb (fun key => negb (contains key (lower name)))
                             (recognised patterns))
                  names).
Proof.
  intros Hin.
  assert (Hsub : forall pattern, In pattern patterns ->
                                 In pattern (flat_map snd REQUIRED_DOC_TYPES)).
  { intros pattern Hp. apply in_flat_map. apply in_map_iff in Hin.
    destruct Hin as (entry & <- & Hentry). eauto. }
  rewrite existsb_negb_forallb. f_equal.
  induction names as [|name names IH]; simpl; [reflexivity|].
  rewrite IH. f_equal.
  rewrite (patterns_found _ _ Hsub), existsb_negb_forallb. apply negb_involutive.
Qed.

Lemma names_of_table :
  names_of "income_statement"
  = recognised ["income[_\\s]?statement"; "p&l"; "profit[_\\s]?and[_\\s]?loss"]
  /\ names_of "balance_sheet" = recognised ["balance[_\\s]?sheet"]
  /\ names_of "cash_flow" = recognised ["cash[_\\s]?flow"; "cashflow"].
Proof.
  unfold names_of, REQUIRED_DOC_TYPES. cbn [flat_map String.eqb Ascii.eqb Bool.eqb].
  rewrite !app_nil_r. cbn [app]. repeat split.
Qed.

(** [find_missing_required] is the rule on names. *)
Lemma find_missing_required_spec names :
  find_missing_required names = spec_missing_required names.
Proof.
  unfold find_missing_required, spec_missing_required.
  destruct names_of_table as (E1 & E2 & E3).
  unfold REQUIRED_DOC_TYPES. cbn [flat_map map fst List.filter].
  rewrite E1, E2, E3.
  rewrite !entry_found
    by (unfold REQUIRED_DOC_TYPES; cbn [map snd In];
        first [left; reflexivity | right; left; reflexivity
               | right; right; left; reflexivity]).
  repeat match goal with
         | |- context [forallb ?f names] =>
             lazymatch f with
             | (fun name => forallb _ (recognised _)) => destruct (forallb f names)
             end
         end; reflexivity.
Qed.

End GateFacts.

(** X9. [find_missing_required] reports a required document type exactly
    when no file name holds, in lower case, one of the strings its
    patterns stand for; with the patterns as written these strings join
    the words with nothing, an underscore, a backslash or the letter s,
    and never with a space. *)
Theorem X9_find_missing_required_rule (file_names : list string) :
  GateRules.find_missing_required file_names = GateSpec.spec_missing_required file_names
  /\ GateSpec.names_of "income_statement"
     = ["incomestatement"; "income\statement"; "income_statement"; "incomesstatement";
        "p&l";
        "profitandloss"; "profitand\loss"; "profitand_loss"; "profitandsloss";
        "profit\andloss"; "profit\and\loss"; "profit\and_loss"; "profit\andsloss";
        "profit_andloss"; "profit_and\loss"; "profit_and_loss"; "profit_andsloss";
        "profitsandloss"; "profitsand\loss"; "profitsand_loss"; "profitsandsloss"]
  /\ GateSpec.names_of "balance_sheet"
     = ["balancesheet"; "balance\sheet"; "balance_sheet"; "balancessheet"]
  /\ GateSpec.names_of "cash_flow"
     = ["cashflow"; "cash\flow"; "cash_flow"; "cashsflow"; "cashflow"].
Proof.
  split; [apply GateFacts.find_missing_required_spec|].
  split; [vm_compute; reflexivity|]. split; vm_compute; reflexivity.
Qed.

Module NamingFacts.
Import Py Re ReFacts GateRules GateSpec.

Lemma compile_bad_char :
  compile "[^a-zA-Z0-9_./\\-]"
  = CharSet true [CRange "a" "z"; CRange "A" "Z"; CRange "0" "9"; CRange "_" "_";
                  CRange "." "."; CRange "/" "/"; CRange "\" "\"; CRange "-" "-"].
Proof. reflexivity. Qed.

Lemma bad_char_ok a :
  char_ok false true [CRange "a" "z"; CRange "A" "Z"; CRange "0" "9"; CRange "_" "_";
                      CRange "." "."; CRange "/" "/"; CRange "\" "\"; CRange "-" "-"] a
  = negb (name_char a).
Proof. destruct a as [[] [] [] [] [] [] [] []]; reflexivity. Qed.

(** Searching for one character of a class. *)
Lemma search_class ic neg items s i :
  found (search_from ic (CharSet neg items) s i) = existsb (char_ok ic neg items) s.
Proof.
  revert i. induction s as [|a s IH]; intros i; [reflexivity|].
  cbn [search_from existsb]. unfold match_here at 1. cbn [exec].
  destruct (char_ok ic neg items a); [reflexivity | apply IH].
Qed.

Lemma bad_name name :
  found (search "[^a-zA-Z0-9_./\\-]" false name) = negb (forallb name_char (chars name)).
Proof.
  unfold search. rewrite compile_bad_char, search_class.
  rewrite GateFacts.existsb_negb_forallb. f_equal.
  induction (chars name) as [|a l IH]; cbn [forallb]; [reflexivity|].
  now rewrite IH, bad_char_ok, negb_involutive.
Qed.

(** ** Duplicates *)

Lemma In_distinct x l seen :
  In x (distinct l seen) <-> In x l /\ ~ In x seen.
Proof.
  revert seen. induction l as [|a l IH]; intros seen; cbn [distinct].
  - simpl. tauto.
  - destruct (existsb (String.eqb a) seen) eqn:E.
    + apply existsb_exists in E. destruct E as (y & Hy & Ey).
      apply String.eqb_eq in Ey. subst y. rewrite IH. simpl. split.
      * intros [H1 H2]. auto.
      * intros [[<- | H1] H2]; [contradiction | auto].
    + assert (Hna : ~ In a seen).
      { intros Hin. apply not_true_iff_false in E. apply E.
        apply existsb_exists. exists a. split; [exact Hin | apply String.eqb_refl]. }
      simpl. rewrite IH. simpl. split.
      * intros [<- | [H1 H2]]; [auto|]. split; [now right|]. intros H. apply H2. now right.
      * intros [[<- | H1] H2]; [now left|].
        destruct (string_dec a x) as [<- | Hne]; [now left|].
        right. split; [exact H1|]. intros [H | H]; [contradiction | contradiction].
Qed.

Lemma count_occ_str_count x l : count_occ_str x l = count_occ string_dec l x.
Proof.
  unfold count_occ_str. induction l as [|a l IH]; simpl; [reflexivity|].
  destruct (string_dec a x) as [-> | Hne].
  - rewrite String.eqb_refl. simpl. now rewrite IH.
  - destruct (String.eqb_spec x a) as [-> | _]; [contradiction | exact IH].
Qed.

Lemma no_duplicates l :
  List.filter (fun name => (1 <? count_occ_str name l)%nat) (distinct l []) = []
  <-> List.NoDup l.
Proof.
  rewrite (NoDup_count_occ string_dec). split.
  - intros H x. destruct (in_dec string_dec x l) as [Hin | Hnot].
    + assert (Hd : In x (distinct l [])) by (apply In_distinct; split; [exact Hin | intros []]).
      destruct (1 <? count_occ_str x l)%nat eqn:E.
      * assert (Hf : In x (List.filter (fun name => (1 <? count_occ_str name l)%nat)
                                       (distinct l [])))
          by (apply filter_In; auto).
        rewrite H in Hf. destruct Hf.
      * apply Nat.ltb_ge in E. now rewrite <- count_occ_str_count.
    + apply (count_occ_not_In string_dec) in Hnot. rewrite Hnot. lia.
  - intros H. destruct (List.filter _ _) as [|x rest] eqn:E; [reflexivity|].
    assert (Hf : In x (List.filter (fun name => (1 <? count_occ_str name l)%nat)
                                   (distinct l [])))
      by (rewrite E; now left).
    apply filter_In in Hf. destruct Hf as [_ Hf]. apply Nat.ltb_lt in Hf.
    rewrite count_occ_str_count in Hf. specialize (H x). lia.
Qed.

Lemma filter_nil {A} (f : A -> bool) (l : list A) :
  List.filter f l = [] <-> forall x, In x l -> f x = false.
Proof.
  induction l as [|a l IH]; simpl.
  - split; [intros _ ? [] | reflexivity].
  - destruct (f a) eqn:E.
    + split; [intros X; discriminate X|]. intros H.
      specialize (H a (or_introl eq_refl)). congruence.
    + rewrite IH. split.
      * intros H x [<- | Hx]; auto.
      * intros H x Hx. apply H. now right.
Qed.

End NamingFacts.

(** X10. [detect_inconsistent_naming] reports no issue exactly when no
    two file names are equal up to letter case and every name is made of
    letters, digits and the characters [_ . / \ -]. *)
Theorem X10_consistent_naming (file_names : list string) :
  GateRules.detect_inconsistent_naming file_names = []
  <-> List.NoDup (map Py.lower file_names)
      /\ forall name, In name file_names ->
                      forallb GateSpec.name_char (Py.chars name) = true.
Proof.
  unfold GateRules.detect_inconsistent_naming.
  rewrite <- NamingFacts.no_duplicates.
  set (duplicates := List.filter _ (GateRules.distinct _ _)).
  set (bad := List.filter _ file_names).
  assert (Hbad : bad = [] <-> forall name, In name file_names ->
                                forallb GateSpec.name_char (Py.chars name) = true).
  { unfold bad. rewrite NamingFacts.filter_nil. split; intros H name Hin.
    - specialize (H name Hin). rewrite NamingFacts.bad_name in H.
      now apply negb_false_iff in H.
    - rewrite NamingFacts.bad_name, (H name Hin). reflexivity. }
  rewrite <- Hbad.
  destruct duplicates, bad; cbn [app]; split;
    try (intros X; discriminate X); try (intros [X Y]); try discriminate X;
    try discriminate Y; auto.
Qed.

Lemma X10_consistent_naming_witness :
  GateRules.detect_inconsistent_naming ["docs/income_statement.pdf"; "docs/Balance-Sheet.PDF"]
  = [].
Proof.
  apply (X10_consistent_naming ["docs/income_statement.pdf"; "docs/Balance-Sheet.PDF"]).
  split.
  - vm_compute. constructor; [intros [X | []]; discriminate X|].
    constructor; [intros []|]. constructor.
  - intros name [<- | [<- | []]]; vm_compute; reflexivity.
Defined.

(* ===================================================================== *)
(** * The order of the detected periods *)
(* ===================================================================== *)

Module OrderFacts.
Import Py PeriodDetector.

Section SortedSetOrder.
Context {A : Type} (cmp : A -> A -> comparison).
Hypothesis cmp_eq : forall x y, cmp x y = Eq -> x = y.
Hypothesis cmp_trans : forall x y z, cmp x y = Lt -> cmp y z = Lt -> cmp x z = Lt.
Hypothesis cmp_gt : forall x y, cmp x y = Gt -> cmp y x = Lt.

Lemma insert_uniq_increasing x l :
  StronglySorted (fun a b => cmp a b = Lt) l ->
  StronglySorted (fun a b => cmp a b = Lt) (insert_uniq cmp x l).
Proof.
  induction 1 as [|y l Hs IH Hy]; cbn [insert_uniq].
  - constructor; constructor.
  - destruct (cmp x y) eqn:E.
    + now constructor.
    + constructor; [now constructor|]. constructor; [exact E|].
      eapply List.Forall_impl; [|exact Hy]. intros z Hz. eapply cmp_trans; eauto.
    + constructor; [exact IH|]. apply List.Forall_forall. intros z Hz.
      apply (PeriodFacts.In_insert_uniq _ cmp_eq) in Hz.
      destruct Hz as [-> | Hz]; [now apply cmp_gt|].
      now apply (proj1 (List.Forall_forall _ _) Hy).
Qed.

Lemma sorted_set_increasing l :
  StronglySorted (fun a b => cmp a b = Lt) (sorted_set cmp l).
Proof.
  induction l as [|x l IH]; cbn [sorted_set fold_right];
    [constructor | now apply insert_uniq_increasing].
Qed.
End SortedSetOrder.

Lemma string_compare_trans x y z :
  String.compare x y = Lt -> String.compare y z = Lt -> String.compare x z = Lt.
Proof.
  intros H1 H2. apply OrderedTypeEx.String_as_OT.cmp_lt.
  apply OrderedTypeEx.String_as_OT.cmp_lt in H1, H2.
  eapply OrderedTypeEx.String_as_OT.lt_trans; eauto.
Qed.

Lemma string_compare_gt x y : String.compare x y = Gt -> String.compare y x = Lt.
Proof. intros H. rewrite String.compare_antisym, H. reflexivity. Qed.

Lemma sorted_strings_increasing l :
  StronglySorted (fun a b => String.compare a b = Lt) (sorted_strings l).
Proof.
  apply sorted_set_increasing;
    [apply PeriodFacts.string_compare_eq | apply string_compare_trans
     | apply string_compare_gt].
Qed.

End OrderFacts.

(** X11. [detect_periods] returns its tokens in strictly increasing
    order, so without duplicates. For an ASCII text each of them is a
    year 20YY, a year-month 20YY-MM with the month in 01..12, or a
    lower-case month abbreviation followed by whitespace and a year.
    The case-insensitive month pass also takes the long s, U+017F, for
    an s, and the lowered match keeps it, so the shape of the tokens is
    stated for ASCII texts, on which byte strings and the ASCII case
    folding are what the code computes. *)
Theorem X11_detect_periods_sorted_tokens (text : string) :
  StronglySorted (fun a b => String.compare a b = Lt) (PeriodDetector.detect_periods text)
  /\ (Py.isascii text = true ->
      Forall (fun p => PeriodDetector.is_period_token p = true)
             (PeriodDetector.detect_periods text)).
Proof.
  split.
  - unfold PeriodDetector.detect_periods. apply OrderFacts.sorted_strings_increasing.
  - intros _. apply List.Forall_forall. intros p. apply PeriodFacts.detect_periods_tokens.
Qed.

Lemma X11_detect_periods_sorted_tokens_witness :
  Py.isascii "FY2023, Sep  2023 and 2024/03" = true
  /\ PeriodDetector.detect_periods "FY2023, Sep  2023 and 2024/03"
     = ["2023"; "2024"; "2024-03"; "sep  2023"]
  /\ Forall (fun p => PeriodDetector.is_period_token p = true)
            (PeriodDetector.detect_periods "FY2023, Sep  2023 and 2024/03").
Proof.
  split; [reflexivity|]. split; [vm_compute; reflexivity|].
  apply (proj2 (X11_detect_periods_sorted_tokens "FY2023, Sep  2023 and 2024/03")).
  reflexivity.
Defined.

(* ===================================================================== *)
(** * Dates, periods and years *)
(* ===================================================================== *)

Module YearFacts.
Import Py Re ReFacts PeriodDetector PeriodTokens SchemaValidator PeriodSpec PeriodFacts.

Lemma compile_dates :
  compile "20\d{2}[-/](0[1-9]|1[0-2])"
  = Cat (Lit "2") (Cat (Lit "0")
      (Cat (Repeat 2 (Some 2%nat) true (CharSet false [CDigit]))
           (Cat (CharSet false [CRange "-" "-"; CRange "/" "/"])
                (Group 1 (Alt (Cat (Lit "0") (CharSet false [CRange "1" "9"]))
                              (Cat (Lit "1") (CharSet false [CRange "0" "2"]))))))).
Proof. reflexivity. Qed.

Lemma compile_month_dates :
  exists g,
    compile "(jan|feb|mar|apr|may|jun|jul|aug|sep|oct|nov|dec)\s+20\d{2}"
    = Cat g (Cat (Repeat 1 None true (CharSet false [CSpace])) year_body).
Proof. eexists. reflexivity. Qed.

(** A text in which [_detect_dates] finds a date holds a year. *)
Lemma dates_have_year text : _detect_dates text = true -> has_year (chars text).
Proof.
  unfold _detect_dates.
  destruct (search "20\d{2}[-/](0[1-9]|1[0-2])" false text) as [mo|] eqn:E1; cbn [found].
  - intros _. unfold search in E1. apply search_from_sound in E1.
    destruct E1 as (Hm & before & Hs). rewrite compile_dates in Hm.
    apply m_cat in Hm. destruct Hm as (w1 & w2 & c1 & Hw & Ha & Hm).
    apply m_set in Ha. destruct Ha as (a & -> & Ha & ->). apply lit_ok in Ha. subst a.
    apply m_cat in Hm. destruct Hm as (w3 & w4 & c2 & -> & Hb & Hm).
    apply m_set in Hb. destruct Hb as (b & -> & Hb & ->). apply lit_ok in Hb. subst b.
    apply m_cat in Hm. destruct Hm as (w5 & w6 & c3 & -> & Hd & _).
    apply m_rep_class in Hd. destruct Hd as (Hlo & Hhi & Hf & _).
    specialize (Hhi 2%nat eq_refl).
    destruct w5 as [|d1 [|d2 [|? ?]]]; cbn [List.length] in Hlo, Hhi; try lia.
    inversion Hf as [|? ? Hd1 Hf']; subst. inversion Hf' as [|? ? Hd2 _]; subst.
    apply digit_class_ok in Hd1, Hd2.
    exists before, d1, d2, (w6 ++ m_rest mo). rewrite Hs, Hw.
    split; [|auto]. cbn [app]. rewrite <- ?app_assoc. reflexivity.
  - destruct (search _ true text) as [mo|] eqn:E2; cbn [found]; [|intros X; discriminate X].
    intros _. unfold search in E2. apply search_from_sound in E2.
    destruct E2 as (Hm & before & Hs).
    destruct compile_month_dates as (g & Hg). rewrite Hg in Hm.
    apply m_cat in Hm. destruct Hm as (w1 & w2 & c1 & Hw & _ & Hm).
    apply m_cat in Hm. destruct Hm as (w3 & w4 & c2 & -> & _ & Hm).
    apply year_body_shape in Hm. destruct Hm as [Hy _].
    apply is_year_chars_inv in Hy. destruct Hy as (d1 & d2 & -> & Hd1 & Hd2).
    exists (before ++ w1 ++ w3), d1, d2, (m_rest mo). rewrite Hs, Hw.
    split; [|auto]. rewrite <- ?app_assoc. reflexivity.
Qed.

Lemma year_tokens_found :
  forallb (fun p => found (search "(20\d{2})" false p)) all_year_tokens = true.
Proof. vm_compute. reflexivity. Qed.

(** The year pattern of [detect_periods] finds a year that is there. *)
Lemma year_found text :
  has_year (chars text) -> found (search "(20\d{2})" false text) = true.
Proof.
  intros (before & d1 & d2 & after & Hs & Hd1 & Hd2). unfold search. rewrite Hs.
  apply (ReAppend.search_from_prepend false _ _ before 0 0).
  apply (ReAppend.search_from_app false _ _ after 0 0).
  assert (Hin : In (str ["2"; "0"; d1; d2]%char) all_year_tokens).
  { apply year_token_In. rewrite PyFacts.chars_str. cbn [is_year_chars].
    now rewrite Hd1, Hd2. }
  pose proof (proj1 (forallb_forall _ _) year_tokens_found _ Hin) as H.
  unfold search in H. now rewrite PyFacts.chars_str in H.
Qed.

Lemma findall_found pattern ic s :
  found (search pattern ic s) = true -> findall pattern ic s <> [].
Proof.
  unfold search, findall. cbn [findall_from].
  destruct (search_from ic (compile pattern) (chars s) 0);
    [intros _ X; discriminate X | intros X; discriminate X].
Qed.

Lemma sorted_strings_nonempty l : l <> [] -> sorted_strings l <> [].
Proof.
  destruct l as [|x l]; [congruence|]. intros _ H.
  assert (Hin : In x (sorted_strings (x :: l)))
    by (apply (In_sorted_set _ string_compare_eq); now left).
  rewrite H in Hin. destruct Hin.
Qed.

(** ** The years the tokens start with *)

Lemma year_tokens_in_century : forallb year_in_century all_year_tokens = true.
Proof. vm_compute. reflexivity. Qed.

Lemma ym_tokens_in_century : forallb year_in_century all_ym_tokens = true.
Proof. vm_compute. reflexivity. Qed.

Lemma month_token_no_year p : is_month_token p = true -> year_of_period p = None.
Proof.
  unfold is_month_token. intros H. apply existsb_exists in H.
  destruct H as (month & Hmonth & H).
  apply andb_true_iff in H. destruct H as [H _].
  apply andb_true_iff in H. destruct H as [Hpre _].
  assert (Hmonth' : exists a m, chars month = a :: m /\ is_digit a = false).
  { unfold MONTHS in Hmonth. cbn [In] in Hmonth.
    repeat (destruct Hmonth as [<- | Hmonth]; [do 2 eexists; split; reflexivity|]).
    destruct Hmonth. }
  assert (Hfirst : exists c rest, chars p = c :: rest /\ is_digit c = false).
  { destruct Hmonth' as (a & m & Hm & Ha). rewrite Hm in Hpre.
    destruct (chars p) as [|c rest]; [discriminate Hpre|].
    cbn [prefixb] in Hpre. apply andb_true_iff in Hpre. destruct Hpre as [Hc _].
    apply Ascii.eqb_eq in Hc. subst c. eauto. }
  destruct Hfirst as (c & rest & Hp & Hc).
  unfold year_of_period, isdigit, take. rewrite PyFacts.chars_str, Hp.
  cbn [firstn forallb]. rewrite Hc. cbn [andb]. now rewrite andb_false_r.
Qed.

Lemma token_year_in_century p :
  is_period_token p = true -> year_in_century p = true.
Proof.
  unfold is_period_token. intros H.
  apply orb_true_iff in H. destruct H as [H | H];
    [apply orb_true_iff in H; destruct H as [H | H]|].
  - apply year_token_In in H.
    exact (proj1 (forallb_forall _ _) year_tokens_in_century p H).
  - destruct (token_year_month p) as [[y m]|] eqn:E; [|discriminate H].
    apply ym_token_In in E.
    exact (proj1 (forallb_forall _ _) ym_tokens_in_century p E).
  - unfold year_in_century. now rewrite (month_token_no_year p H).
Qed.

End YearFacts.

(** X12. A text in which [_detect_dates] finds a date gives
    [detect_periods] at least one token: a document that has dates
    passes the period detection. *)
Theorem X12_dates_give_periods (text : string) :
  SchemaValidator._detect_dates text = true ->
  PeriodDetector.detect_periods text <> [].
Proof.
  intros H. apply YearFacts.dates_have_year in H. apply YearFacts.year_found in H.
  apply YearFacts.findall_found in H.
  unfold PeriodDetector.detect_periods. apply YearFacts.sorted_strings_nonempty.
  destruct (Re.findall "(20\d{2})" false text); [congruence|]. intros X. discriminate X.
Qed.

Lemma X12_dates_give_periods_witness :
  SchemaValidator._detect_dates "Statement for Mar 2024" = true
  /\ PeriodDetector.detect_periods "Statement for Mar 2024" <> [].
Proof.
  split; [vm_compute; reflexivity|].
  apply (X12_dates_give_periods "Statement for Mar 2024"). vm_compute. reflexivity.
Defined.

(** X13. The years a validation report lists are strictly increasing
    and lie between 2000 and 2099. *)
Theorem X13_years_detected_range
        (pdf_texts : list (string * string))
        (classification : option (list SchemaValidator.DocRef))
        (h h' : SchemaValidator.heap) (report : SchemaValidator.ValidationReport) :
  SchemaValidator.validate_documents pdf_texts classification h = Py.Ok (report, h') ->
  StronglySorted Z.lt (SchemaValidator.years_detected (SchemaValidator.summary report))
  /\ Forall (fun y => (2000 <= y <= 2099)%Z)
            (SchemaValidator.years_detected (SchemaValidator.summary report)).
Proof.
  unfold SchemaValidator.validate_documents.
  set (st0 := {| SchemaValidator.st_details := [];
                 SchemaValidator.st_all_periods := [];
                 SchemaValidator.st_missing_months_global := [];
                 SchemaValidator.st_heap := h |}).
  destruct (SchemaValidator.validate_loop _ pdf_texts st0) as [st|] eqn:El;
    [|intros X; discriminate X].
  cbn [Py.bind].
  destruct (ValidatorFacts.period_years_ok (SchemaValidator.st_all_periods st))
    as (ys & Hys & Hin).
  rewrite Hys. cbn [Py.bind]. intros H. apply PyFacts.Ok_inj in H.
  apply (f_equal fst) in H. cbn [fst] in H. subst report.
  cbn [SchemaValidator.summary SchemaValidator.years_detected].
  split; [apply ValidatorFacts.sorted_set_sorted|].
  apply List.Forall_forall. intros y Hy.
  apply (proj1 (PeriodFacts.In_sorted_set _ ValidatorFacts.Z_compare_eq y ys)) in Hy.
  apply (proj1 (Hin y)) in Hy. destruct Hy as (p & Hp & Hyear).
  assert (Htok : PeriodDetector.is_period_token p = true).
  { destruct (ValidatorFacts.validate_loop_ok
                (SchemaValidator.build_classification_map classification) pdf_texts st0)
      as (st1 & Hst1 & _ & Hper);
      [split; [constructor | reflexivity]|].
    rewrite El in Hst1. apply PyFacts.Ok_inj in Hst1. subst st1.
    destruct (ValidatorFacts.validate_loop_details _ _ _ _ El) as (ds & Hds & Hrel).
    cbn [SchemaValidator.st_details st0 app] in Hds.
    rewrite Hper, Hds in Hp. apply in_flat_map in Hp. destruct Hp as (d & Hd & Hp).
    destruct (PipelineFacts.Forall2_In_l _ _ _ _ Hrel Hd) as (item & _ & _ & Hperiods & _).
    rewrite Hperiods in Hp. now apply PeriodFacts.detect_periods_tokens in Hp. }
  apply YearFacts.token_year_in_century in Htok.
  unfold PeriodSpec.year_in_century in Htok. rewrite Hyear in Htok.
  apply andb_true_iff in Htok. destruct Htok as [H1 H2].
  apply Z.leb_le in H1, H2. lia.
Qed.

Lemma X13_years_detected_range_witness :
  exists report h',
    SchemaValidator.validate_documents
      [("a.pdf", "FY 2021, then 2023-04"); ("b.pdf", "Dec 2099")] None []
    = Py.Ok (report, h')
    /\ SchemaValidator.years_detected (SchemaValidator.summary report)
       = [2021; 2023; 2099]%Z
    /\ StronglySorted Z.lt (SchemaValidator.years_detected (SchemaValidator.summary report))
    /\ Forall (fun y => (2000 <= y <= 2099)%Z)
              (SchemaValidator.years_detected (SchemaValidator.summary report)).
Proof.
  assert (H : exists report h',
             SchemaValidator.validate_documents
               [("a.pdf", "FY 2021, then 2023-04"); ("b.pdf", "Dec 2099")] None []
             = Py.Ok (report, h')
             /\ SchemaValidator.years_detected (SchemaValidator.summary report)
                = [2021; 2023; 2099]%Z).
  { vm_compute. do 2 eexists. split; reflexivity. }
  destruct H as (report & h' & E & Hy). exists report, h'.
  split; [exact E|]. split; [exact Hy|].
  exact (X13_years_detected_range _ _ _ _ _ E).
Defined.

(* ===================================================================== *)
(** * Validation without a classification report *)
(* ===================================================================== *)

Module AloneFacts.
Import Py SchemaValidator ValidatorHeap PeriodSpec HeapFacts.

Lemma not_touched_empty l : ~ touched ∅ l.
Proof. intros (doc_path & s & f & H & _). rewrite lookup_empty in H. discriminate H. Qed.

Lemma validate_one_alone st item st' done :
  Forall2 (own_lists (st_heap st)) (st_details st) done ->
  validate_one ∅ st item = Ok st' ->
  Forall2 (own_lists (st_heap st')) (st_details st') (done ++ [item]).
Proof.
  intros Hinv H. destruct item as [doc_path text].
  pose proof (validate_one_frame _ _ _ _ _ H) as [_ Hkeep].
  apply validate_one_eq in H. cbv zeta in H. rewrite lookup_empty in H.
  cbn [flag_list alloc fst snd] in H.
  destruct H as (d & Hd & Hh & _ & _ & _ & Hnum & Hm & Hfe).
  rewrite Hd. apply Forall2_app.
  - eapply Forall2_impl; [exact Hinv|].
    intros d0 item0 (H1 & H2 & H3). split; [|split; [|exact H3]];
      apply Hkeep; auto using not_touched_empty.
  - constructor; [|constructor]. unfold own_lists. cbn [snd].
    rewrite Hm, Hfe, Hh. unfold heap, loc in *.
    set (h0 := st_heap st) in *.
    assert (L3 : (((h0 ++ [[]]) ++ [[]]) ++ [[]]) !! List.length ((h0 ++ [[]]) ++ [[]])
                 = Some (@nil string))
      by (apply list_lookup_middle; reflexivity).
    split; [|split; [|exact Hnum]].
    + rewrite notes_other by (rewrite !length_app; cbn [List.length]; lia).
      rewrite <- !app_assoc. cbn [app]. apply list_lookup_middle. reflexivity.
    + rewrite (notes_at _ _ _ _ L3). reflexivity.
Qed.

Lemma validate_loop_alone items st st' done :
  Forall2 (own_lists (st_heap st)) (st_details st) done ->
  validate_loop ∅ items st = Ok st' ->
  Forall2 (own_lists (st_heap st')) (st_details st') (done ++ items).
Proof.
  revert st done. induction items as [|item items IH]; intros st done Hinv H;
    cbn [validate_loop] in H.
  - apply PyFacts.Ok_inj in H. subst st'. now rewrite app_nil_r.
  - destruct (validate_one ∅ st item) as [st1|] eqn:E; [|discriminate H].
    cbn [bind] in H.
    replace (done ++ item :: items) with ((done ++ [item]) ++ items)
      by (now rewrite <- app_assoc).
    apply (IH st1); [|exact H]. eapply validate_one_alone; eauto.
Qed.

(** A detail with its own lists fails completeness exactly when its
    text fails. *)
Lemma own_lists_fails hp d item :
  own_lists hp d item -> fails_completeness hp d = text_fails item.
Proof.
  intros (H1 & H2 & H3). unfold fails_completeness, text_fails, deref.
  rewrite H1, H2, H3. cbn [default nonempty orb]. unfold notes_of.
  destruct (_detect_dates (snd item)); cbn [negb orb app].
  - destruct (Nat.ltb_spec (List.length (Re.findall "[A-Za-z]" false (snd item))) 20);
      destruct (Nat.ltb_spec (List.length (_extract_numbers (snd item))) 5);
      destruct (Nat.ltb_spec 5 (List.length (_extract_numbers (snd item))));
      destruct (Nat.leb_spec (List.length (_extract_numbers (snd item))) 5);
      cbn; try reflexivity; lia.
  - reflexivity.
Qed.

Lemma Forall2_filter_length {A B} (f : A -> bool) (g : B -> bool) l l' :
  Forall2 (fun a b => f a = g b) l l' ->
  List.length (List.filter f l) = List.length (List.filter g l').
Proof.
  induction 1 as [|a b l l' Hab H IH]; cbn [List.filter]; [reflexivity|].
  rewrite Hab. destruct (g b); cbn [List.length]; now rewrite IH.
Qed.

End AloneFacts.

(** X14. Validation without a classification report: the number of
    completeness failures is the number of documents whose text has no
    date or at most 5 numeric values, and the report passes exactly when
    there is no such document and no continuity break. *)
Theorem X14_validation_alone
        (pdf_texts : list (string * string)) (h h' : SchemaValidator.heap)
        (report : SchemaValidator.ValidationReport) :
  SchemaValidator.validate_documents pdf_texts None h = Py.Ok (report, h') ->
  SchemaValidator.completeness_failures (SchemaValidator.summary report)
  = List.length (List.filter PeriodSpec.text_fails pdf_texts)
  /\ (SchemaValidator.passes (SchemaValidator.summary report) = true
      <-> SchemaValidator.continuity_breaks (SchemaValidator.summary report) = []
          /\ forall item, In item pdf_texts ->
               SchemaValidator._detect_dates (snd item) = true
               /\ (5 < List.length (SchemaValidator._extract_numbers (snd item)))%nat).
Proof.
  unfold SchemaValidator.validate_documents. cbn [SchemaValidator.build_classification_map].
  set (st0 := {| SchemaValidator.st_details := [];
                 SchemaValidator.st_all_periods := [];
                 SchemaValidator.st_missing_months_global := [];
                 SchemaValidator.st_heap := h |}).
  destruct (SchemaValidator.validate_loop ∅ pdf_texts st0) as [st|] eqn:El;
    [|intros X; discriminate X].
  cbn [Py.bind].
  destruct (SchemaValidator.period_years _) as [ys|]; [|intros X; discriminate X].
  cbn [Py.bind]. intros H. apply PyFacts.Ok_inj in H.
  apply (f_equal fst) in H. cbn [fst] in H. subst report.
  cbn [SchemaValidator.summary SchemaValidator.completeness_failures
       SchemaValidator.passes SchemaValidator.continuity_breaks].
  pose proof (AloneFacts.validate_loop_alone pdf_texts st0 st [] (List.Forall2_nil _) El) as Hown.
  cbn [app] in Hown.
  assert (Hlen : List.length (List.filter (SchemaValidator.fails_completeness
                                             (SchemaValidator.st_heap st))
                                          (SchemaValidator.st_details st))
                 = List.length (List.filter PeriodSpec.text_fails pdf_texts)).
  { apply AloneFacts.Forall2_filter_length.
    eapply Forall2_impl; [exact Hown|]. intros d item. apply AloneFacts.own_lists_fails. }
  split; [exact Hlen|]. rewrite Hlen.
  rewrite andb_true_iff, negb_true_iff, ScorerFacts.nonempty_length, Nat.eqb_eq.
  rewrite ValidatorFacts.filter_length_0.
  split; intros [H1 H2]; (split; [exact H1|]); intros item Hin; specialize (H2 item Hin).
  - unfold PeriodSpec.text_fails in H2. apply orb_false_iff in H2. destruct H2 as [Hd Hn].
    apply negb_false_iff in Hd. apply Nat.leb_gt in Hn. auto.
  - destruct H2 as [Hd Hn]. unfold PeriodSpec.text_fails. rewrite Hd.
    cbn [negb orb]. now apply Nat.leb_gt.
Qed.

(** X14 at the income statement of X7: alone, the validation passes. *)
Lemma X14_validation_alone_witness :
  exists report h',
    SchemaValidator.validate_documents
      [("income_statement.pdf",
        "Income Statement 2023-01 Revenue 100 COGS 40 Operating Expenses 20 EBITDA 40 Net Income 30")]
      None []
    = Py.Ok (report, h')
    /\ SchemaValidator.completeness_failures (SchemaValidator.summary report) = 0%nat
    /\ SchemaValidator.passes (SchemaValidator.summary report) = true.
Proof.
  assert (H : exists report h',
             SchemaValidator.validate_documents
               [("income_statement.pdf",
                 "Income Statement 2023-01 Revenue 100 COGS 40 Operating Expenses 20 EBITDA 40 Net Income 30")]
               None []
             = Py.Ok (report, h')
             /\ SchemaValidator.continuity_breaks (SchemaValidator.summary report) = []).
  { vm_compute. do 2 eexists. split; reflexivity. }
  destruct H as (report & h' & E & Hb). exists report, h'.
  split; [exact E|].
  destruct (X14_validation_alone _ _ _ _ E) as [Hn Hp].
  split; [rewrite Hn; vm_compute; reflexivity|].
  apply Hp. split; [exact Hb|].
  intros item [<- | []]. split; [vm_compute; reflexivity|].
  apply Nat.ltb_lt. vm_compute. reflexivity.
Defined.

(* ===================================================================== *)
(** * The metrics of the memo *)
(* ===================================================================== *)

Module MetricFacts.
Import Py Re ReFacts ReAlphabet ExtractFinancials NumberFacts.

(** The three patterns are in the syntax the parser covers, and the
    value they capture is made of backslashes, the letter d, commas,
    dots and dashes. *)
Lemma metric_patterns_ok :
  forallb (fun keyword =>
             is_Some_b (parse (metric_pattern keyword))
             && group_all 2 (within true number_chars) (compile (metric_pattern keyword)))
          keywords = true.
Proof. vm_compute. reflexivity. Qed.

Lemma extract_metric_nil text keyword :
  In keyword keywords -> _extract_metric text keyword = [].
Proof.
  intros Hk.
  pose proof (proj1 (forallb_forall _ _) metric_patterns_ok keyword Hk) as Hp.
  apply andb_true_iff in Hp. destruct Hp as [_ Hg].
  unfold _extract_metric. apply flat_map_nil. intros mo Hmo.
  apply findall_sound in Hmo.
  pose proof (capture_all true 2 (within true number_chars)
                          (fun w => forallb number_chars w = true) _ _ _
                          (fun r' w' c1 c2 Hr' => within_sound _ _ r' Hr' w' c1 c2)
                          Hg Hmo) as Hcaps.
  assert (Hf : float (remove_char "," (group_or_empty mo 2)) = Raise ValueError).
  { unfold group_or_empty, group.
    destruct (lookup_cap 2 (m_caps mo)) as [w|] eqn:Ew; cbn [default from_option].
    - apply float_number_chars. now apply Hcaps.
    - reflexivity. }
  cbv zeta. now rewrite Hf.
Qed.

End MetricFacts.

(** X15. [extract] never finds a metric: for every collection of texts
    the revenue, EBITDA and net income series are empty. *)
Theorem X15_extract_finds_nothing (financial_texts : list string) :
  ExtractFinancials.extract financial_texts
  = {| ExtractFinancials.revenue := [];
       ExtractFinancials.ebitda := [];
       ExtractFinancials.net_income := [] |}.
Proof.
  unfold ExtractFinancials.extract.
  rewrite !NumberFacts.flat_map_nil; [reflexivity | | |];
    intros text _; apply MetricFacts.extract_metric_nil;
    unfold ExtractFinancials.keywords; cbn [In]; auto.
Qed.

(* ===================================================================== *)
(** * The summary of a classification report *)
(* ===================================================================== *)

Module SummaryFacts.
Import Py Classify SummarySpec.

Lemma count_of_count_label l l' counts :
  count_of l' (count_label l counts)
  = (count_of l' counts + if String.eqb l l' then 1 else 0)%nat.
Proof.
  unfold count_of. induction counts as [|[k n] rest IH]; cbn [count_label List.find fst snd].
  - destruct (String.eqb l l'); reflexivity.
  - destruct (String.eqb_spec k l) as [-> | Hkl]; cbn [List.find fst snd].
    + destruct (String.eqb l l'); cbn [snd]; lia.
    + destruct (String.eqb_spec k l') as [-> | Hkl']; cbn [snd].
      * destruct (String.eqb_spec l l') as [-> | _]; [contradiction | lia].
      * exact IH.
Qed.

Lemma keys_count_label l counts x :
  In x (map fst (count_label l counts)) <-> x = l \/ In x (map fst counts).
Proof.
  induction counts as [|[k n] rest IH]; cbn [count_label map fst In].
  - intuition.
  - destruct (String.eqb_spec k l) as [-> | Hkl]; cbn [map fst In].
    + intuition.
    + rewrite IH. intuition.
Qed.

Lemma NoDup_count_label l counts :
  List.NoDup (map fst counts) -> List.NoDup (map fst (count_label l counts)).
Proof.
  induction counts as [|[k n] rest IH]; cbn [count_label map fst]; intros H.
  - constructor; [intros [] | constructor].
  - inversion H as [|? ? Hnot Hnd]; subst.
    destruct (String.eqb_spec k l) as [-> | Hkl]; cbn [map fst].
    + now constructor.
    + constructor; [|now apply IH].
      rewrite keys_count_label. intros [-> | Hin]; [contradiction | contradiction].
Qed.

Lemma positive_count_label l counts :
  Forall (fun kv => (0 < snd kv)%nat) counts ->
  Forall (fun kv => (0 < snd kv)%nat) (count_label l counts).
Proof.
  induction 1 as [|[k n] rest Hk H IH]; cbn [count_label].
  - constructor; [cbn; lia | constructor].
  - destruct (String.eqb k l); constructor; auto; cbn in *; lia.
Qed.

(** The counts after the loop over the records. *)
Lemma label_counts_spec docs counts :
  List.NoDup (map fst counts) ->
  Forall (fun kv => (0 < snd kv)%nat) counts ->
  let counts' := fold_left (fun c d => count_label (label d) c) docs counts in
  List.NoDup (map fst counts')
  /\ Forall (fun kv => (0 < snd kv)%nat) counts'
  /\ forall l, count_of l counts' = (count_of l counts + labelled l docs)%nat.
Proof.
  revert counts. induction docs as [|d docs IH]; intros counts Hnd Hpos; cbn [fold_left].
  - split; [exact Hnd|]. split; [exact Hpos|]. intros l. unfold labelled. cbn. lia.
  - destruct (IH (count_label (label d) counts)
                 (NoDup_count_label _ _ Hnd) (positive_count_label _ _ Hpos))
      as (H1 & H2 & H3).
    split; [exact H1|]. split; [exact H2|]. intros l. rewrite H3, count_of_count_label.
    unfold labelled. cbn [List.filter].
    destruct (String.eqb (label d) l); cbn [List.length]; lia.
Qed.

Lemma count_of_In l n counts :
  List.NoDup (map fst counts) -> In (l, n) counts -> count_of l counts = n.
Proof.
  unfold count_of. induction counts as [|[k m] rest IH]; intros Hnd Hin; [destruct Hin|].
  inversion Hnd as [|? ? Hnot Hnd']; subst. cbn [List.find fst].
  destruct Hin as [E | Hin].
  - injection E as -> ->. now rewrite String.eqb_refl.
  - destruct (String.eqb_spec k l) as [-> | _]; [|now apply IH].
    exfalso. apply Hnot. apply in_map_iff. exists (l, n). auto.
Qed.

Lemma In_count_of l counts :
  (0 < count_of l counts)%nat -> In (l, count_of l counts) counts.
Proof.
  unfold count_of. induction counts as [|[k m] rest IH]; cbn [List.find fst]; [lia|].
  destruct (String.eqb_spec k l) as [-> | _]; [intros _; now left|].
  intros H. right. now apply IH.
Qed.

(** The key [max] returns has the largest count. *)
Lemma max_label_spec counts l :
  max_label counts = Some l ->
  exists n, In (l, n) counts /\ forall kv, In kv counts -> (snd kv <= n)%nat.
Proof.
  destruct counts as [|[k n] rest]; cbn [max_label]; [intros X; discriminate X|].
  intros H. injection H as H.
  assert (G : forall (rest : list (string * nat)) (best : string * nat),
             let r := fold_left (fun best kv : string * nat =>
                                   if (snd best <? snd kv)%nat then kv else best)
                                rest best in
             (r = best \/ In r rest)
             /\ (snd best <= snd r)%nat
             /\ forall kv, In kv rest -> (snd kv <= snd r)%nat).
  { clear. induction rest as [|kv rest IH]; intros best; cbn [fold_left].
    - split; [now left|]. split; [lia | intros ? []].
    - destruct (IH (if (snd best <? snd kv)%nat then kv else best)) as (H1 & H2 & H3).
      split; [|split].
      + destruct H1 as [-> | H1]; [|right; now right].
        destruct (snd best <? snd kv)%nat; [right; now left | now left].
      + destruct (Nat.ltb_spec (snd best) (snd kv)); lia.
      + intros x [<- | Hx]; [|now apply H3].
        destruct (Nat.ltb_spec (snd best) (snd kv)); lia. }
  destruct (G rest (k, n)) as (H1 & H2 & H3).
  set (r := fold_left _ rest (k, n)) in *.
  exists (snd r). split.
  - subst l. destruct H1 as [-> | H1]; [now left | right]. now destruct r.
  - intros kv [<- | Hkv]; [exact H2 | now apply H3].
Qed.

(** ** Rounding *)

Lemma round_half_even_bounds q n :
  (0 <= q)%Q -> (q <= inject_Z n)%Q -> (0 <= round_half_even q <= n)%Z.
Proof.
  intros H0 Hn. unfold round_half_even.
  assert (Hf0 : (0 <= Qfloor q)%Z).
  { change 0%Z with (Qfloor 0). now apply Qfloor_resp_le. }
  assert (Hfn : (Qfloor q <= n)%Z).
  { rewrite <- (Qfloor_Z n). now apply Qfloor_resp_le. }
  destruct (Z.eq_dec (Qfloor q) n) as [E | Hne].
  - assert (Hfrac : (q - inject_Z (Qfloor q) == 0)%Q).
    { rewrite E. apply Qle_antisym.
      - rewrite <- (Qplus_opp_r (inject_Z n)). apply Qplus_le_l. exact Hn.
      - rewrite <- (Qplus_opp_r (inject_Z n)). apply Qplus_le_l.
        rewrite <- E. apply Qfloor_le. }
    assert (Hlt : Qltb (q - inject_Z (Qfloor q)) (1 # 2) = true).
    { apply ClassifyFacts.Qltb_lt. rewrite Hfrac. reflexivity. }
    rewrite Hlt. lia.
  - destruct (Qltb _ (1 # 2)); [lia|].
    destruct (Qltb (1 # 2) _); [lia|]. destruct (Z.even _); lia.
Qed.

Lemma round1_bounds q : (0 <= q)%Q -> (q <= 100)%Q -> (0 <= round1 q <= 100)%Q.
Proof.
  intros H0 H100. unfold round1.
  destruct (round_half_even_bounds (q * 10) 1000) as [L U].
  - apply Qmult_le_0_compat; [exact H0 | discriminate].
  - change (inject_Z 1000) with (100 * 10)%Q. apply Qmult_le_compat_r; [exact H100 | discriminate].
  - set (z := round_half_even (q * 10)) in *. split.
    + apply Qle_shift_div_l; [reflexivity|]. rewrite Qmult_0_l.
      change 0%Q with (inject_Z 0). now rewrite <- Zle_Qle.
    + apply Qle_shift_div_r; [reflexivity|].
      change (100 * 10)%Q with (inject_Z 1000). now rewrite <- Zle_Qle.
Qed.

Lemma sum_bounds (l : list Q) (acc : Q) :
  Forall (fun c => (0 <= c <= 100)%Q) l ->
  (acc <= fold_left Qplus l acc)%Q
  /\ (fold_left Qplus l acc <= acc + 100 * inject_Z (Z.of_nat (List.length l)))%Q.
Proof.
  intros H. revert acc. induction H as [|c l [Hc0 Hc1] H IH]; intros acc; cbn [fold_left].
  - cbn. split; [apply Qle_refl|]. rewrite Qmult_0_r, Qplus_0_r. apply Qle_refl.
  - destruct (IH (acc + c)%Q) as [L U]. split.
    + eapply Qle_trans; [|exact L]. rewrite <- (Qplus_0_r acc) at 1.
      apply Qplus_le_r. exact Hc0.
    + eapply Qle_trans; [exact U|].
      cbn [List.length]. rewrite Nat2Z.inj_succ, <- Z.add_1_r, inject_Z_plus.
      rewrite Qmult_plus_distr_r, Qmult_1_r.
      rewrite <- Qplus_assoc. apply Qplus_le_r.
      rewrite (Qplus_comm _ 100). apply Qplus_le_l. exact Hc1.
Qed.

End SummaryFacts.

(** X16. The summary of a classification report: it counts the
    documents given, lists each label that occurs with the number of
    records that carry it, names as top label one with the largest
    count (none exactly when there is no document), and its average
    confidence lies between 0 and 100; the records are those of the
    documents, in order, and carry a label id exactly when a label map
    is given. *)
Theorem X16_classification_summary
        (pdf_texts : list (string * string)) (label_map : gmap string Z)
        (rep : Classify.ClassificationReport) :
  Classify.classify_documents pdf_texts label_map = Py.Ok rep ->
  let s := Classify.summary rep in
  let docs := Classify.documents rep in
  Classify.total_documents s = List.length pdf_texts
  /\ map Classify.path docs = map fst pdf_texts
  /\ (forall l n, In (l, n) (Classify.labels s)
                  <-> n = SummarySpec.labelled l docs /\ (0 < n)%nat)
  /\ (Classify.top_label s = None <-> pdf_texts = [])
  /\ (forall l, Classify.top_label s = Some l ->
                (0 < SummarySpec.labelled l docs)%nat
                /\ forall l', (SummarySpec.labelled l' docs <= SummarySpec.labelled l docs)%nat)
  /\ (forall d, In d docs -> (Classify.label_id d = None <-> label_map = ∅))
  /\ (0 <= Classify.average_confidence s <= 100)%Q.
Proof.
  intros H. pose proof (PipelineFacts.classify_documents_records _ _ _ H) as Hrec.
  unfold Classify.classify_documents in H.
  destruct (Py.mapM _ pdf_texts) as [docs|] eqn:E; [|discriminate H].
  cbn [Py.bind] in H. apply PyFacts.Ok_inj in H. subst rep.
  cbn [Classify.summary Classify.documents Classify.total_documents Classify.labels
       Classify.top_label Classify.average_confidence] in *.
  cbv zeta.
  destruct (SummaryFacts.label_counts_spec docs [] (List.NoDup_nil _) (List.Forall_nil _))
    as (Hnd & Hpos & Hcount).
  set (counts := fold_left _ docs []) in *.
  assert (Hlen : List.length docs = List.length pdf_texts)
    by (symmetry; eapply Forall2_length; eauto).
  assert (Hlab : forall l n, In (l, n) counts
                             <-> n = SummarySpec.labelled l docs /\ (0 < n)%nat).
  { intros l n. split.
    - intros Hin. split.
      + rewrite <- (SummaryFacts.count_of_In l n counts Hnd Hin), Hcount. reflexivity.
      + exact (proj1 (List.Forall_forall _ _) Hpos (l, n) Hin).
    - intros [-> Hn]. specialize (Hcount l). cbn in Hcount. rewrite <- Hcount.
      apply SummaryFacts.In_count_of. rewrite Hcount. exact Hn. }
  split; [exact Hlen|].
  split.
  { clear -Hrec. induction Hrec as [|item d l l' (Hp & _) _ IH]; cbn [map];
      [reflexivity | now rewrite Hp, IH]. }
  split; [exact Hlab|].
  split.
  { split.
    - intros Hnone. destruct pdf_texts as [|item rest]; [reflexivity|]. exfalso.
      destruct docs as [|d docs']; [discriminate Hlen|].
      assert (Hin : In (Classify.label d, SummarySpec.labelled (Classify.label d) (d :: docs'))
                       counts).
      { apply Hlab. split; [reflexivity|]. unfold SummarySpec.labelled. cbn [List.filter].
        rewrite String.eqb_refl. cbn [List.length]. lia. }
      destruct counts; [destruct Hin | destruct p; discriminate Hnone].
    - intros ->. destruct docs; [reflexivity | discriminate Hlen]. }
  split.
  { intros l Hl. apply SummaryFacts.max_label_spec in Hl.
    destruct Hl as (n & Hin & Hmax). apply Hlab in Hin. destruct Hin as [-> Hn].
    split; [exact Hn|]. intros l'.
    destruct (Nat.eq_dec (SummarySpec.labelled l' docs) 0) as [-> | Hne]; [lia|].
    apply (Hmax (l', SummarySpec.labelled l' docs)). apply Hlab. split; [reflexivity | lia]. }
  split.
  { intros d Hd. apply PipelineFacts.mapM_Forall2 in E.
    destruct (PipelineFacts.Forall2_In_r _ _ _ _ E Hd) as ([doc_path text] & _ & Hdoc).
    destruct (Classify.classify_document doc_path text) as [r|] eqn:Er; [|discriminate Hdoc].
    cbn [Py.bind] in Hdoc. apply PyFacts.Ok_inj in Hdoc.
    assert (Hr : Classify.label_id r = None).
    { rewrite ClassifyFacts.classify_document_spec in Er.
      destruct (Classify._build_structured _ text); [|discriminate Er].
      apply PyFacts.Ok_inj in Er. now subst r. }
    destruct (decide (label_map = ∅)) as [Hm | Hm]; subst d; cbn [Classify.label_id].
    - rewrite Hr. tauto.
    - split; [intros X; discriminate X | contradiction]. }
  assert (Hconf : Forall (fun c => (0 <= c <= 100)%Q) (map Classify.confidence docs)).
  { apply List.Forall_forall. intros c Hc. apply in_map_iff in Hc.
    destruct Hc as (d & <- & Hd).
    destruct (PipelineFacts.Forall2_In_r _ _ _ _ Hrec Hd)
      as (item & _ & _ & _ & r & Hr & _ & -> & _).
    apply ClassifyFacts.classify_document_fields in Hr. destruct Hr as [_ ->].
    destruct (ClassifyFacts.best_match_percentage (fst item) (snd item)) as [Er [L U]].
    rewrite Er. split.
    - apply Qmult_le_0_compat; [exact L | discriminate].
    - change 100%Q with (1 * 100)%Q at 2. apply Qmult_le_compat_r; [exact U | discriminate]. }
  destruct docs as [|d docs']; [split; discriminate|].
  apply SummaryFacts.round1_bounds.
  - destruct (SummaryFacts.sum_bounds _ 0 Hconf) as [L _].
    apply Qle_shift_div_l; [reflexivity|]. rewrite Qmult_0_l. exact L.
  - destruct (SummaryFacts.sum_bounds _ 0 Hconf) as [_ U].
    apply Qle_shift_div_r; [reflexivity|]. rewrite Qplus_0_l in U.
    rewrite length_map in U. exact U.
Qed.

Lemma X16_classification_summary_witness :
  exists rep,
    Classify.classify_documents
      [("a.pdf", "a contract"); ("balance_sheet.pdf", "assets and liabilities"); ("c.pdf", "an agreement")] ∅
    = Py.Ok rep
    /\ Classify.labels (Classify.summary rep) = [("contract", 2%nat); ("balance_sheet", 1%nat)]
    /\ Classify.top_label (Classify.summary rep) = Some "contract"
    /\ Classify.total_documents (Classify.summary rep) = 3%nat
    /\ (0 <= Classify.average_confidence (Classify.summary rep) <= 100)%Q.
Proof.
  assert (H : exists rep,
             Classify.classify_documents
               [("a.pdf", "a contract"); ("balance_sheet.pdf", "assets and liabilities"); ("c.pdf", "an agreement")] ∅
             = Py.Ok rep
             /\ Classify.labels (Classify.summary rep)
                = [("contract", 2%nat); ("balance_sheet", 1%nat)]
             /\ Classify.top_label (Classify.summary rep) = Some "contract").
  { vm_compute. eexists. split; [reflexivity|]. split; reflexivity. }
  destruct H as (rep & E & Hl & Ht). exists rep.
  split; [exact E|]. split; [exact Hl|]. split; [exact Ht|].
  destruct (X16_classification_summary _ _ _ E) as (Hn & _ & _ & _ & _ & _ & Ha).
  split; [exact Hn | exact Ha].
Defined.

(* ===================================================================== *)
(** * Tokens [detect_missing_months] cannot read *)
(* ===================================================================== *)

Module UnreadableFacts.
Import Py Re ReFacts PeriodDetector PeriodTokens PeriodFacts.

Lemma mapM_raise_in {A B} (f : A -> result B) (l : list A) a :
  In a l -> f a = Raise ValueError -> mapM f l = Raise ValueError.
Proof.
  induction l as [|b l IH]; intros Hin Ha; [destruct Hin|].
  cbn [mapM]. destruct Hin as [-> | Hin].
  - now rewrite Ha.
  - destruct (f b) as [y|[]]; [|reflexivity]. cbn [bind].
    rewrite (IH Hin Ha). reflexivity.
Qed.

Lemma drop_while_snoc p x a :
  p a = false -> drop_while p (x ++ [a]) = drop_while p x ++ [a].
Proof.
  intros Ha. induction x as [|b x IH]; cbn [app drop_while].
  - now rewrite Ha.
  - destruct (p b); [exact IH | reflexivity].
Qed.

(** Stripping on the right keeps a first character that is not stripped. *)
Lemma rstrip_cons p a l :
  p a = false ->
  rev (drop_while p (rev (a :: l))) = a :: rev (drop_while p (rev l)).
Proof.
  intros Ha. cbn [rev]. rewrite (drop_while_snoc _ _ _ Ha), rev_app_distr. reflexivity.
Qed.

Lemma alpha_cases c :
  is_alpha c = true ->
  is_space c = false /\ is_digit c = false /\ Ascii.eqb c "_" = false
  /\ Ascii.eqb c "-" = false.
Proof. destruct c as [[] [] [] [] [] [] [] []]; intros H; try discriminate H; repeat split. Qed.

Lemma digit_cases c :
  is_digit c = true -> is_space c = false /\ Ascii.eqb c "-" = false.
Proof. destruct c as [[] [] [] [] [] [] [] []]; intros H; try discriminate H; repeat split. Qed.

(** Two digits followed by a letter are not an integer literal. *)
Lemma int_digits_letter m1 m2 c w :
  is_digit m1 = true -> is_digit m2 = true -> is_alpha c = true ->
  int (str (m1 :: m2 :: c :: w)) = Raise ValueError.
Proof.
  intros H1 H2 Hc.
  destruct (alpha_cases c Hc) as (Hcs & Hcd & Hcu & _).
  destruct (digit_cases m1 H1) as [H1s _]. destruct (digit_cases m2 H2) as [H2s _].
  unfold int. rewrite PyFacts.chars_str. unfold strip_with.
  cbn [drop_while]. rewrite H1s.
  rewrite (rstrip_cons _ _ _ H1s), (rstrip_cons _ _ _ H2s), (rstrip_cons _ _ _ Hcs).
  rewrite (ValidatorFacts.digit_not_sign _ _ H1).
  cbn [digits_us]. rewrite H1, H2, Hcd, Hcu. reflexivity.
Qed.

Lemma split_chars_cons a l :
  Ascii.eqb a "-" = false ->
  exists w ws, split_chars "-" l = w :: ws /\ split_chars "-" (a :: l) = (a :: w) :: ws.
Proof.
  intros Ha. cbn [split_chars]. rewrite Ha.
  destruct (split_chars "-" l) as [|w ws] eqn:E.
  - exfalso. destruct l as [|b l]; cbn [split_chars] in E; [discriminate E|].
    destruct (Ascii.eqb b "-"); [discriminate E|].
    destruct (split_chars "-" l); discriminate E.
  - eauto.
Qed.

(** The part after the first dash of a year-month followed by a letter. *)
Lemma split_dash_month d1 d2 m1 m2 c rest :
  is_digit d1 = true -> is_digit d2 = true ->
  is_digit m1 = true -> is_digit m2 = true -> is_alpha c = true ->
  exists w,
    split_dash (str (["2"; "0"; d1; d2; "-"; m1; m2]%char ++ c :: rest)) 1
    = str (m1 :: m2 :: c :: w).
Proof.
  intros Hd1 Hd2 Hm1 Hm2 Hc.
  destruct (alpha_cases c Hc) as (_ & _ & _ & Hcd).
  destruct (digit_cases d1 Hd1) as [_ Hd1']. destruct (digit_cases d2 Hd2) as [_ Hd2'].
  destruct (digit_cases m1 Hm1) as [_ Hm1']. destruct (digit_cases m2 Hm2) as [_ Hm2'].
  unfold split_dash, split. rewrite PyFacts.chars_str. cbn [app].
  destruct (split_chars_cons c rest Hcd) as (w0 & ws0 & E0 & E1).
  destruct (split_chars_cons m2 (c :: rest) Hm2') as (w1 & ws1 & E1' & E2).
  rewrite E1 in E1'. injection E1' as <- <-.
  destruct (split_chars_cons m1 (m2 :: c :: rest) Hm1') as (w2 & ws2 & E2' & E3).
  rewrite E2 in E2'. injection E2' as <- <-.
  exists w0.
  change (split_chars "-" ("2"%char :: "0"%char :: d1 :: d2 :: "-"%char :: m1 :: m2 :: c :: rest))
    with (match split_chars "-" ("0"%char :: d1 :: d2 :: "-"%char :: m1 :: m2 :: c :: rest) with
          | [] => [["2"%char]]
          | w :: ws => ("2"%char :: w) :: ws
          end).
  change (split_chars "-" ("0"%char :: d1 :: d2 :: "-"%char :: m1 :: m2 :: c :: rest))
    with (match split_chars "-" (d1 :: d2 :: "-"%char :: m1 :: m2 :: c :: rest) with
          | [] => [["0"%char]]
          | w :: ws => ("0"%char :: w) :: ws
          end).
  destruct (split_chars_cons d2 ("-"%char :: m1 :: m2 :: c :: rest) Hd2')
    as (w3 & ws3 & E4 & E5).
  destruct (split_chars_cons d1 (d2 :: "-"%char :: m1 :: m2 :: c :: rest) Hd1')
    as (w4 & ws4 & E5' & E6).
  rewrite E5 in E5'. injection E5' as <- <-.
  rewrite E6.
  change (split_chars "-" ("-"%char :: m1 :: m2 :: c :: rest))
    with ([] :: split_chars "-" (m1 :: m2 :: c :: rest)) in E4.
  rewrite E3 in E4. injection E4 as <- <-.
  reflexivity.
Qed.

Lemma ym_tokens_match :
  forallb (fun p => found (match_here false (compile ym_pattern) (chars p) 0))
          all_ym_tokens = true.
Proof. vm_compute. reflexivity. Qed.

End UnreadableFacts.

(** X17. [detect_missing_months] raises ValueError on every list that
    holds a token made of a year-month 20YY-MM followed by a letter: the
    token is taken for a year-month, and its month is not a number. *)
Theorem X17_missing_months_raises
        (periods : list string) (ym : string) (c : ascii) (rest : string) :
  Py.is_Some_b (PeriodDetector.token_year_month ym) = true ->
  Py.is_alpha c = true ->
  In (ym +:+ String c rest) periods ->
  PeriodDetector.detect_missing_months periods = Py.Raise Py.ValueError.
Proof.
  intros Hym Hc Hin.
  destruct (PeriodDetector.token_year_month ym) as [[y m]|] eqn:E; [|discriminate Hym].
  pose proof (PeriodFacts.ym_token_In _ _ _ E) as Htok.
  apply PeriodFacts.token_year_month_inv in E.
  destruct E as (d1 & d2 & m1 & m2 & Hchars & Hd1 & Hd2 & Hm1 & Hm2 & _).
  set (p := ym +:+ String c rest) in *.
  assert (Hp : p = Py.str (["2"; "0"; d1; d2; "-"; m1; m2]%char ++ c :: Py.chars rest)).
  { unfold p. rewrite <- (PyFacts.str_chars (ym +:+ String c rest)), PyFacts.chars_app, Hchars.
    reflexivity. }
  assert (Hym' : PeriodDetector.is_ym p = true).
  { unfold PeriodDetector.is_ym, Re.re_match, p. rewrite PyFacts.chars_app.
    pose proof (proj1 (forallb_forall _ _) UnreadableFacts.ym_tokens_match ym Htok) as Hm.
    cbv beta in Hm.
    destruct (Re.match_here false _ (Py.chars ym ++ _) 0) eqn:Em; [reflexivity|].
    exfalso.
    apply (ReAppend.match_here_app false (Re.compile PeriodDetector.ym_pattern)
             (Py.chars ym) (Py.chars (String c rest)) 0 0); [|exact Em].
    destruct (Re.match_here false _ (Py.chars ym) 0); [intros X; discriminate X|].
    cbn [Re.found] in Hm. discriminate Hm. }
  assert (Hfil : In p (List.filter PeriodDetector.is_ym periods))
    by (apply filter_In; auto).
  destruct (UnreadableFacts.split_dash_month d1 d2 m1 m2 c (Py.chars rest)
              Hd1 Hd2 Hm1 Hm2 Hc) as (w & Hsplit).
  rewrite <- Hp in Hsplit.
  assert (Hint : Py.int (PeriodDetector.split_dash p 1) = Py.Raise Py.ValueError).
  { rewrite Hsplit. now apply UnreadableFacts.int_digits_letter. }
  unfold PeriodDetector.detect_missing_months.
  destruct (List.filter PeriodDetector.is_ym periods) as [|q qs] eqn:Ef; [destruct Hfil|].
  rewrite <- Ef in *.
  destruct (Py.mapM (fun p0 => Py.int (PeriodDetector.split_dash p0 0)) _) as [ys|[]];
    [|reflexivity].
  cbn [Py.bind].
  rewrite (UnreadableFacts.mapM_raise_in _ _ p Hfil Hint). reflexivity.
Qed.

Lemma X17_missing_months_raises_witness :
  PeriodDetector.detect_missing_months ["2023-01"; "2023-03a"] = Py.Raise Py.ValueError.
Proof.
  apply (X17_missing_months_raises ["2023-01"; "2023-03a"] "2023-03" "a"%char "");
    [reflexivity | reflexivity | right; left; reflexivity].
Defined.

(* ===================================================================== *)
(** * The status of a run *)
(* ===================================================================== *)

Module RunFacts.
Import Py RunPipeline.

Lemma dict_set_nonempty k v d : dict_set k v d <> [].
Proof.
  destruct d as [|[k' v'] rest]; cbn [dict_set]; [intros X; discriminate X|].
  destruct (String.eqb k' k); intros X; discriminate X.
Qed.

Lemma extract_texts_fold w l d :
  d <> [] ->
  fold_left (fun results path => dict_set path (Scorer.extract_text w path) results) l d
  <> [].
Proof.
  revert d. induction l as [|q l IH]; intros d Hd; cbn [fold_left]; [exact Hd|].
  apply IH. apply dict_set_nonempty.
Qed.

(** No text is read only when there is no path. *)
Lemma extract_texts_nil w paths : extract_texts w paths = [] -> paths = [].
Proof.
  unfold extract_texts. destruct paths as [|p paths]; [reflexivity|].
  cbn [fold_left]. intros H. exfalso. revert H.
  apply extract_texts_fold. apply dict_set_nonempty.
Qed.

(** Without a document both stages return, and the validation passes. *)
Lemma no_document_passes label_map :
  exists docs h0 report h1,
    Pipeline.classify_then_validate [] label_map = Ok (docs, h0, report, h1)
    /\ SchemaValidator.passes (SchemaValidator.summary report) = true.
Proof. do 4 eexists. split; reflexivity. Qed.

Lemma route_cases r :
  (Scorer.status r = Scorer.GOOD /\ String.eqb (Scorer.route r) "EXCEPTION_PATH" = false)
  \/ (Scorer.status r = Scorer.BAD /\ String.eqb (Scorer.route r) "EXCEPTION_PATH" = true).
Proof. unfold Scorer.route. destruct (Scorer.status r); [left | right]; split; reflexivity. Qed.

Lemma run_pipeline_cases w label_map zip_path base_workdir :
  (Scorer.status (gate w zip_path base_workdir) = Scorer.BAD
   /\ run_pipeline w label_map zip_path base_workdir = Ok REJECTED)
  \/ (Scorer.status (gate w zip_path base_workdir) = Scorer.GOOD
      /\ pdf_paths w zip_path base_workdir = []
      /\ run_pipeline w label_map zip_path base_workdir = Ok COMPLETED)
  \/ (Scorer.status (gate w zip_path base_workdir) = Scorer.GOOD
      /\ pdf_paths w zip_path base_workdir <> []
      /\ (run_pipeline w label_map zip_path base_workdir = Ok REJECTED_VALIDATION
          \/ run_pipeline w label_map zip_path base_workdir = Raise ValueError)).
Proof.
  unfold run_pipeline. cbv zeta. fold (gate w zip_path base_workdir).
  fold (pdf_paths w zip_path base_workdir).
  destruct (route_cases (gate w zip_path base_workdir)) as [[Hs ->] | [Hs ->]];
    [|left; auto].
  right. destruct (pdf_paths w zip_path base_workdir) as [|p ps] eqn:Ep.
  - left. split; [exact Hs|]. split; [reflexivity|].
    change (extract_texts w []) with (@nil (string * string)).
    destruct (no_document_passes label_map) as (docs & h0 & report & h1 & -> & Hp).
    cbn [bind]. now rewrite Hp.
  - right. split; [exact Hs|]. split; [intros X; discriminate X|].
    destruct (Pipeline.classify_then_validate (extract_texts w (p :: ps)) label_map)
      as [[[[docs h0] report] h1]|[]] eqn:E; [|now right].
    left. cbn [bind].
    destruct (PipelineFacts.pipeline_never_passes _ _ _ _ _ _ E) as [_ Hnp].
    rewrite Hnp; [reflexivity|].
    intros Hnil. apply extract_texts_nil in Hnil. discriminate Hnil.
Qed.

End RunFacts.

(** X18. The status of a run, file operations taken to succeed: the
    package is rejected exactly when the quality gate says BAD, and it
    is completed exactly when the gate says GOOD and the archive holds
    no PDF. A package that passes the gate with a PDF in it is rejected
    by the validation, or the run raises ValueError. *)
Theorem X18_run_completes_without_pdf
        (w : Scorer.World) (label_map : gmap string Z) (zip_path base_workdir : string) :
  (RunPipeline.run_pipeline w label_map zip_path base_workdir = Py.Ok RunPipeline.REJECTED
   <-> Scorer.status (RunPipeline.gate w zip_path base_workdir) = Scorer.BAD)
  /\ (RunPipeline.run_pipeline w label_map zip_path base_workdir
      = Py.Ok RunPipeline.COMPLETED
      <-> Scorer.status (RunPipeline.gate w zip_path base_workdir) = Scorer.GOOD
          /\ RunPipeline.pdf_paths w zip_path base_workdir = [])
  /\ (Scorer.status (RunPipeline.gate w zip_path base_workdir) = Scorer.GOOD ->
      RunPipeline.pdf_paths w zip_path base_workdir <> [] ->
      RunPipeline.run_pipeline w label_map zip_path base_workdir
      = Py.Ok RunPipeline.REJECTED_VALIDATION
      \/ RunPipeline.run_pipeline w label_map zip_path base_workdir
         = Py.Raise Py.ValueError).
Proof.
  destruct (RunFacts.run_pipeline_cases w label_map zip_path base_workdir)
    as [[Hs Hr] | [(Hs & Hp & Hr) | (Hs & Hp & Hr)]].
  - rewrite Hr, Hs. split; [tauto|]. split.
    + split; [intros X; discriminate X | intros [X _]; discriminate X].
    + intros X; discriminate X.
  - rewrite Hr, Hs, Hp. split; [|split].
    + split; intros X; discriminate X.
    + tauto.
    + intros _ X. contradiction.
  - rewrite Hs. split; [|split].
    + split; [|intros X; discriminate X].
      destruct Hr as [-> | ->]; intros X; discriminate X.
    + split; [|intros [_ X]; contradiction].
      destruct Hr as [-> | ->]; intros X; discriminate X.
    + intros _ _. exact Hr.
Qed.

Lemma X18_run_completes_without_pdf_witness :
  RunPipeline.run_pipeline RunPipeline.spreadsheet_world ∅ "inbox/acme.zip" "data/workdir"
  = Py.Ok RunPipeline.COMPLETED.
Proof.
  apply (X18_run_completes_without_pdf RunPipeline.spreadsheet_world ∅
                                       "inbox/acme.zip" "data/workdir").
  split; vm_compute; reflexivity.
Defined.

(* ===================================================================== *)
(** * Labels and document types *)
(* ===================================================================== *)

Module TypeFacts.
Import Py Classify ClassifyFacts.

Lemma label_in_table path text :
  In (label_of (best_match path text))
     ("unknown" :: map fst LABEL_PATTERNS).
Proof.
  destruct (best_match_selected path text) as [(-> & _) | (before & after & Htab & _)].
  - now left.
  - right. unfold archetype_scores in Htab.
    assert (Hin : In (label_of (best_match path text), conf_of (best_match path text))
                     (map (fun entry => (fst entry,
                                         spec_score (hit_count (snd entry) text (path_name path))))
                          LABEL_PATTERNS)).
    { rewrite Htab. apply in_or_app. right. now left. }
    apply in_map_iff in Hin. destruct Hin as (entry & E & Hentry).
    apply (f_equal fst) in E. cbn [fst] in E. rewrite <- E. now apply in_map.
Qed.

Lemma build_structured_type label text st :
  In label ("unknown" :: map fst LABEL_PATTERNS) ->
  _build_structured label text = Ok st ->
  if String.eqb label "cash_flow" || String.eqb label "unknown"
  then st = {| document_type := "unknown";
               fields := [];
               flags := {| missing_fields := [];
                           suspicious_values := [];
                           format_errors := ["unknown document type"] |} |}
  else document_type st = label.
Proof.
  unfold LABEL_PATTERNS. cbn [map fst In]. unfold _build_structured.
  intros [<- | [<- | [<- | [<- | [<- | [<- | [<- | [<- | []]]]]]]]];
    cbn [extractors String.eqb Ascii.eqb Bool.eqb orb]; intros H.
  - apply PyFacts.Ok_inj in H. now subst st.
  - cbn [bind] in H. destruct (_extract_income_statement text) as [[[f m] s] e].
    apply PyFacts.Ok_inj in H. now subst st.
  - cbn [bind] in H. destruct (_extract_balance_sheet text) as [[[f m] s] e].
    apply PyFacts.Ok_inj in H. now subst st.
  - apply PyFacts.Ok_inj in H. now subst st.
  - destruct (_extract_bank_statement text) as [[[[f m] s] e]|]; [|discriminate H].
    cbn [bind] in H. apply PyFacts.Ok_inj in H. now subst st.
  - destruct (_extract_ar_aging text) as [[[[f m] s] e]|]; [|discriminate H].
    cbn [bind] in H. apply PyFacts.Ok_inj in H. now subst st.
  - cbn [bind] in H. destruct (_extract_cap_table text) as [[[f m] s] e].
    apply PyFacts.Ok_inj in H. now subst st.
  - cbn [bind] in H. destruct (_extract_contract text) as [[[f m] s] e].
    apply PyFacts.Ok_inj in H. now subst st.
Qed.

End TypeFacts.

(** X19. The label of a returned record is unknown or one of the seven
    archetypes, and the document type of its structured document is the
    label, except for cash_flow: a cash-flow statement has no extractor,
    and its structured document is the one of an unknown document. *)
Theorem X19_document_type_of_label
        (path text : string) (r : Classify.ClassificationRecord) :
  Classify.classify_document path text = Py.Ok r ->
  In (Classify.label r)
     ["unknown"; "income_statement"; "balance_sheet"; "cash_flow"; "bank_statement";
      "ar_aging"; "cap_table"; "contract"]
  /\ if String.eqb (Classify.label r) "cash_flow" || String.eqb (Classify.label r) "unknown"
     then Classify.structured r
          = {| Classify.document_type := "unknown";
               Classify.fields := [];
               Classify.flags :=
                 {| Classify.missing_fields := [];
                    Classify.suspicious_values := [];
                    Classify.format_errors := ["unknown document type"] |} |}
     else Classify.document_type (Classify.structured r) = Classify.label r.
Proof.
  intros H.
  pose proof (RecordFacts.classify_document_structured _ _ _ H) as Hst.
  apply ClassifyFacts.classify_document_fields in H. destruct H as [Hl _].
  pose proof (TypeFacts.label_in_table path text) as Hin. rewrite <- Hl in Hin.
  split; [exact Hin|]. now apply (TypeFacts.build_structured_type _ text).
Qed.

Lemma X19_document_type_of_label_witness :
  exists r,
    Classify.classify_document "cash_flow.pdf" "Cash Flow Statement 2023" = Py.Ok r
    /\ Classify.label r = "cash_flow"
    /\ Classify.document_type (Classify.structured r) = "unknown".
Proof.
  assert (H : exists r,
             Classify.classify_document "cash_flow.pdf" "Cash Flow Statement 2023" = Py.Ok r
             /\ Classify.label r = "cash_flow").
  { vm_compute. eexists. split; reflexivity. }
  destruct H as (r & E & Hl). exists r. split; [exact E|]. split; [exact Hl|].
  destruct (X19_document_type_of_label "cash_flow.pdf" "Cash Flow Statement 2023" r E)
    as [_ Ht].
  rewrite Hl in Ht. cbn [String.eqb Ascii.eqb Bool.eqb orb] in Ht. now rewrite Ht.
Defined.
